(** * defi-analyzer-mcp: the swap retrieval, comparison and report pipeline

    A shallow embedding of [src/utils/api.ts], [src/tools/transactions.ts],
    [src/tools/comparison.ts], [src/tools/report.ts] and the request handler
    of [src/index.ts], followed by the properties of the specification that
    concern them.

    Conventions of the embedding.

    - Numbers.  The numeric fields of a transaction, a row or a quote are exact
      rationals ([Q], integers as [Z]): the values their texts denote.  The
      code is embedded at two levels of precision.  In the first, sums,
      differences, products, [Math.max], [Math.min] and [Math.round] are
      computed exactly in [Q], and a quotient whose divisor is computed at run
      time has type [num], which adds [NaN] and the two infinities with their
      IEEE behaviour (signed zeros apart), so that a division by zero is
      visible in the result.  Statements on what is requested, compared,
      counted, ordered and echoed are made at this level.  In the second
      (module [Binary64]), the figures of [comparison.ts] and [report.ts] are
      JS numbers and every operation is rounded to binary64 and overflows as
      the code's does.  Statements on the sign, the range and the finiteness
      of a figure are made at that level.
    - Time stamps are the epoch milliseconds [new Date(s).getTime()] of the
      ISO strings the source carries.
    - Strings are byte strings; [length] agrees with the source on ASCII.
    - Effects.  An [Async] computation threads the list of network calls and
      timer waits made so far, the number of [Math.random] draws and the
      number of clock readings, and ends in a value or a thrown message.  The
      answers of the environment (process environment, providers, random
      source, clock) are the fields of a [World].  Console logging is left
      out.
    - A JS object used as a tally is an association list in key insertion
      order: venue names are taken to be ordinary property names, neither
      array indices nor names of members of [Object.prototype].
    - [Array.prototype.sort] is the stable sort of ECMAScript 2019. *)

From Stdlib Require Import ZArith QArith Qround Qminmax Qabs Qpower List String Ascii Bool Lia Lqa.
From Stdlib Require Import Permutation Sorted DecimalString.
Import ListNotations.

Local Open Scope string_scope.
Local Open Scope list_scope.

(** String concatenation, written [+] or as a template in the source. *)
Infix "^^" := String.append (at level 60, right associativity).

(* ===================================================================== *)
(** ** JS numbers *)
(* ===================================================================== *)

Inductive num : Type :=
| Fin (q : Q)
| PInf
| NInf
| NaN.

Definition Qltb (a b : Q) : bool := negb (Qle_bool b a).
Definition Qzero (a : Q) : bool := Qeq_bool a 0.

(** [Math.max] and [Math.min] on finite numbers. *)
Definition Math_max (a b : Q) : Q := if Qltb a b then b else a.

(** [Math.round]: the nearest integer, ties towards plus infinity. *)
Definition Math_round (a : Q) : Q := inject_Z (Qfloor (a + (1 # 2))).

(** [Math.pow(10, 18)]. *)
Definition pow10_18 : Q := inject_Z (10 ^ 18).

Definition nneg (a : num) : num :=
  match a with
  | Fin x => Fin (- x)
  | PInf => NInf
  | NInf => PInf
  | NaN => NaN
  end.

Definition nadd (a b : num) : num :=
  match a, b with
  | NaN, _ | _, NaN => NaN
  | Fin x, Fin y => Fin (x + y)
  | PInf, NInf | NInf, PInf => NaN
  | PInf, _ | _, PInf => PInf
  | NInf, _ | _, NInf => NInf
  end.

Definition nsub (a b : num) : num := nadd a (nneg b).

(** The infinity of the sign of [x] times the sign of the infinity [pos];
    [0 * Infinity] is [NaN]. *)
Definition scale_inf (pos : bool) (x : Q) : num :=
  if Qzero x then NaN
  else if Bool.eqb pos (Qltb 0 x) then PInf else NInf.

Definition nmul (a b : num) : num :=
  match a, b with
  | NaN, _ | _, NaN => NaN
  | Fin x, Fin y => Fin (x * y)
  | PInf, Fin x | Fin x, PInf => scale_inf true x
  | NInf, Fin x | Fin x, NInf => scale_inf false x
  | PInf, PInf | NInf, NInf => PInf
  | PInf, NInf | NInf, PInf => NInf
  end.

Definition ndiv (a b : num) : num :=
  match a, b with
  | NaN, _ | _, NaN => NaN
  | Fin x, Fin y =>
      if Qzero y then
        (if Qzero x then NaN else if Qltb 0 x then PInf else NInf)
      else Fin (x / y)
  | Fin _, (PInf | NInf) => Fin 0
  | PInf, Fin y => if Qltb y 0 then NInf else PInf
  | NInf, Fin y => if Qltb y 0 then PInf else NInf
  | (PInf | NInf), (PInf | NInf) => NaN
  end.

(** [a < b]; every comparison with [NaN] is false. *)
Definition nlt (a b : num) : bool :=
  match a, b with
  | NaN, _ | _, NaN => false
  | Fin x, Fin y => Qltb x y
  | NInf, (Fin _ | PInf) => true
  | Fin _, PInf => true
  | _, _ => false
  end.

Definition ngt (a b : num) : bool := nlt b a.

Definition nle (a b : num) : bool :=
  match a, b with
  | NaN, _ | _, NaN => false
  | Fin x, Fin y => Qle_bool x y
  | NInf, _ => true
  | _, PInf => true
  | _, _ => false
  end.

Definition nge (a b : num) : bool := nle b a.

Definition nMath_max (a b : num) : num :=
  match a, b with
  | NaN, _ | _, NaN => NaN
  | _, _ => if nlt a b then b else a
  end.

Definition nMath_min (a b : num) : num :=
  match a, b with
  | NaN, _ | _, NaN => NaN
  | _, _ => if nlt b a then b else a
  end.

Definition nMath_round (a : num) : num :=
  match a with
  | Fin x => Fin (Math_round x)
  | other => other
  end.

(* ===================================================================== *)
(** ** Strings *)
(* ===================================================================== *)

Definition lower_ascii (c : ascii) : ascii :=
  let n := nat_of_ascii c in
  if andb (Nat.leb 65 n) (Nat.leb n 90) then ascii_of_nat (n + 32) else c.

Fixpoint toLowerCase (s : string) : string :=
  match s with
  | EmptyString => EmptyString
  | String c rest => String (lower_ascii c) (toLowerCase rest)
  end.

Definition startsWith (s p : string) : bool := String.prefix p s.

(** [s.includes(p)]. *)
Fixpoint includes (s p : string) : bool :=
  orb (String.prefix p s)
      (match s with
       | EmptyString => false
       | String _ rest => includes rest p
       end).

(** Truthiness of a string: the empty string is falsy. *)
Definition truthy (s : string) : bool := negb (String.eqb s "").

(** [s || d] on strings. *)
Definition str_or (s d : string) : string := if truthy s then s else d.

(** [o || d] for a property that may be absent. *)
Definition opt_str_or (o : option string) (d : string) : string :=
  match o with
  | Some s => str_or s d
  | None => d
  end.

(** Template interpolation of a count. *)
Definition show_nat (n : nat) : string := NilZero.string_of_uint (Nat.to_uint n).

Definition show_Z (z : Z) : string := NilZero.string_of_int (Z.to_int z).

Fixpoint zeros (n : nat) : string :=
  match n with
  | O => ""
  | S k => String "0" (zeros k)
  end.

(** [x.toFixed(f)] for [0 <= x < 10^21]: the decimal with [f] fraction digits
    nearest to [x], the larger one on a tie. *)
Definition toFixed_nonneg (x : Q) (f : nat) : string :=
  let n := Qfloor (x * inject_Z (10 ^ Z.of_nat f) + (1 # 2)) in
  let digits := show_Z n in
  let padded := zeros (S f - String.length digits) ^^ digits in
  let cut := (String.length padded - f)%nat in
  if Nat.eqb f 0 then digits
  else substring 0 cut padded ^^ "." ^^ substring cut f padded.

Definition toFixed (a : num) (f : nat) : string :=
  match a with
  | NaN => "NaN"
  | PInf => "Infinity"
  | NInf => "-Infinity"
  | Fin x => if Qltb x 0 then "-" ^^ toFixed_nonneg (- x) f else toFixed_nonneg x f
  end.

(* ===================================================================== *)
(** ** Data model ([src/types/index.ts]) *)
(* ===================================================================== *)

Record SwapTransaction : Type := {
  hash : string;
  timestamp : Z;
  from_token : string;
  to_token : string;
  from_token_address : string;
  to_token_address : string;
  from_amount : Q;
  to_amount : Q;
  gas_used : Z;
  gas_price : Q;
  dex : string;
  usd_value : option Q;
  slippage : option Q
}.

(** A result row of the history provider.  A property may be absent; a numeric
    property holds the number its text parses to. *)
Record DuneSwapRow : Type := {
  tx_hash : option string;
  block_time : option Z;
  token_sold_symbol : option string;
  token_bought_symbol : option string;
  token_sold_address : option string;
  token_bought_address : option string;
  token_sold_amount : option Q;
  token_bought_amount : option Q;
  amount_usd : option Q;
  row_gas_used : option Z;
  row_gas_price : option Q;
  project : option string
}.

(** [estimatedGas] and [toAmount] hold what [parseInt] and [parseFloat] read
    from the strings of the source. *)
Record OneInchQuote : Type := {
  toAmount : Q;
  estimatedGas : Z;
  protocols : list (list string);
  fromTokenAmount : Q;
  toTokenAmount : Q
}.

Record ComparisonRecord : Type := {
  txHash : string;
  actualRoute : string;
  optimalRoute : string;
  gasDifference : Q;
  slippageDifference : Q;
  actualAmountOut : Q;
  optimalAmountOut : Q
}.

Record ComparisonResult : Type := {
  success : bool;
  wallet : string;
  totalTransactions : nat;
  totalActualGas : Q;
  totalOptimalGas : Q;
  gasSavingsPotential : Q;
  averageSlippageActual : num;
  recommendations : list string;
  detailedComparisons : list ComparisonRecord
}.

Record Summary : Type := {
  totalSwaps : nat;
  totalVolumeUSD : Q;
  averageGasUsed : num;
  mostUsedDEX : string;
  efficiencyScore : num
}.

Record GasAnalysis : Type := {
  totalGasSpent : Q;
  averageGasPrice : num;
  potentialSavings : Q;
  savingsPercentage : num
}.

Record RoutingAnalysis : Type := {
  optimalRoutes : nat;
  suboptimalRoutes : nat;
  missedOpportunities : list string
}.

Record TimeRange : Type := {
  from : Z;
  to : Z
}.

Record SwapReportData : Type := {
  report_success : bool;
  report_wallet : string;
  reportGeneratedAt : Z;
  summary : Summary;
  gasAnalysis : GasAnalysis;
  routingAnalysis : RoutingAnalysis;
  report_recommendations : list string;
  timeRange : TimeRange
}.

(* ===================================================================== *)
(** ** The environment and the effects of an asynchronous call *)
(* ===================================================================== *)

Inductive Event : Type :=
| HttpPost (url : string)
| HttpGet (url : string)
| Wait (ms : Z).

Definition is_network (e : Event) : bool :=
  match e with
  | HttpPost _ | HttpGet _ => true
  | Wait _ => false
  end.

(** Answer to [POST /query/<id>/execute]. *)
Inductive ExecuteResponse : Type :=
| ExecuteError (message : string)
| ExecuteData (execution_id : string).

(** Answer to [GET /execution/<id>/results]: [data.state] and
    [data.result?.rows]. *)
Inductive ResultsResponse : Type :=
| ResultsError (message : string)
| ResultsData (state : string) (rows : option (list DuneSwapRow)).

(** The body of a quote answer: amounts arrive as strings (present means
    truthy), gas figures as numbers (zero is falsy). *)
Record QuoteData : Type := {
  data_toAmount : option Q;
  data_toTokenAmount : option Q;
  data_estimatedGas : option Z;
  data_gas : option Z;
  data_protocols : option (list (list string))
}.

Inductive QuoteResponse : Type :=
| QuoteError (status : option Z) (message : string)
| QuoteOk (data : QuoteData).

Inductive PriceResponse : Type :=
| PriceError
| PriceOk (usd : option Q).

Record World : Type := {
  DUNE_API_KEY : option string;
  (** the [k]-th value of [Math.random()], in [[0, 1)] *)
  Math_random : nat -> Q;
  (** the [k]-th reading of the clock *)
  Date_now : nat -> Z;
  (** the execute call for a lower-cased wallet and a limit *)
  dune_execute : string -> Z -> ExecuteResponse;
  (** the results call of an execution after [attempts] earlier polls *)
  dune_results : string -> nat -> ResultsResponse;
  (** the quote requested at a position of the batch for a source address, a
      destination address and an amount *)
  oneinch_quote : nat -> string -> string -> Q -> QuoteResponse;
  (** the spot price requested for the transaction at a position *)
  coingecko_price : nat -> string -> PriceResponse
}.

Record St : Type := {
  trace : list Event;
  draws : nat;
  ticks : nat
}.

Definition St0 : St := {| trace := []; draws := 0; ticks := 0 |}.

Inductive Outcome (A : Type) : Type :=
| Ok (a : A)
| Throw (message : string).
Arguments Ok {A} a.
Arguments Throw {A} message.

Definition Async (A : Type) : Type := St -> Outcome A * St.

Definition ret {A} (a : A) : Async A := fun s => (Ok a, s).

Definition throw {A} (message : string) : Async A := fun s => (Throw message, s).

Definition bind {A B} (m : Async A) (k : A -> Async B) : Async B :=
  fun s =>
    match m s with
    | (Ok a, s') => k a s'
    | (Throw e, s') => (Throw e, s')
    end.

Notation "x <- m ;; k" := (bind m (fun x => k))
  (at level 61, m at next level, right associativity).
Notation "m ;;; k" := (bind m (fun _ => k))
  (at level 61, right associativity).

(** [try { body } catch (error) { handler(error.message) }]. *)
Definition try_catch {A} (body : Async A) (handler : string -> Async A) : Async A :=
  fun s =>
    match body s with
    | (Ok a, s') => (Ok a, s')
    | (Throw e, s') => handler e s'
    end.

Definition emit (e : Event) : Async unit :=
  fun s => (Ok tt, {| trace := trace s ++ [e]; draws := draws s; ticks := ticks s |}).

(** [await new Promise(resolve => setTimeout(resolve, ms))]. *)
Definition sleep (ms : Z) : Async unit := emit (Wait ms).

(** [await Promise.all([p1, p2])]: both computations are started, so the
    events of both are recorded, and the call rejects when one of them does.
    The trace lists the events of the first computation before those of the
    second, and the error reported when both fail is that of the first: how
    the two interleave in time, and which of two failures comes first, is not
    modelled.  Apart from which draws of the random source each of them
    gets, the values of two successful computations do not depend on it. *)
Definition Promise_all {A B} (p1 : Async A) (p2 : Async B) : Async (A * B) :=
  fun s =>
    let (r1, s1) := p1 s in
    let (r2, s2) := p2 s1 in
    match r1, r2 with
    | Ok a, Ok b => (Ok (a, b), s2)
    | Throw e, _ => (Throw e, s2)
    | Ok _, Throw e => (Throw e, s2)
    end.

Definition network_calls (s : St) : list Event := filter is_network (trace s).

(* ===================================================================== *)
(** ** [src/utils/api.ts] *)
(* ===================================================================== *)

Definition upper_ascii (c : ascii) : ascii :=
  let n := nat_of_ascii c in
  if andb (Nat.leb 97 n) (Nat.leb n 122) then ascii_of_nat (n - 32) else c.

Fixpoint toUpperCase (s : string) : string :=
  match s with
  | EmptyString => EmptyString
  | String c rest => String (upper_ascii c) (toUpperCase rest)
  end.

Definition TOKEN_ADDRESSES : list (string * string) :=
  [ ("WETH", "0xC02aaA39b223FE8D0A0e5C4F27eAD9083C756Cc2");
    ("USDC", "0xA0b86a33E6417c4c4c4c4c4c4c4c4c4c4c4c4c4c");
    ("USDT", "0xdAC17F958D2ee523a2206206994597C13D831ec7");
    ("DAI", "0x6B175474E89094C44Da98b954EedeAC495271d0F");
    ("WBTC", "0x2260FAC5E5542a773Aa44fBCfeDf7C193bc2C599") ].

Fixpoint lookup {V} (k : string) (o : list (string * V)) : option V :=
  match o with
  | [] => None
  | (k', v) :: rest => if String.eqb k' k then Some v else lookup k rest
  end.

Definition getTokenAddress (symbol : string) : string :=
  match lookup (toUpperCase symbol) TOKEN_ADDRESSES with
  | Some a => a
  | None => symbol
  end.

Definition maxAttempts : nat := 30.

Definition QUERY_STATE_COMPLETED : string := "QUERY_STATE_COMPLETED".
Definition QUERY_STATE_FAILED : string := "QUERY_STATE_FAILED".

Definition execute_url : string :=
  "https://api.dune.com/api/v1/query/3238827/execute".

Definition results_url (executionId : string) : string :=
  "https://api.dune.com/api/v1/execution/" ^^ executionId ^^ "/results".

Definition quote_url : string := "https://api.1inch.dev/swap/v6.0/1/quote".

Definition price_url (tokenSymbol : string) : string :=
  "https://api.coingecko.com/api/v3/simple/price?ids="
    ^^ toLowerCase tokenSymbol ^^ "&vs_currencies=usd".

Definition opt_Q (o : option Q) : Q :=
  match o with Some q => q | None => 0 end.

Definition opt_Z (o : option Z) : Z :=
  match o with Some z => z | None => 0%Z end.

(** [amount.includes('.')] for the decimal text of a number below [10^21],
    which contains a point exactly when the number is not an integer.  (From
    [10^21] on the text is in exponent notation and may contain a point; the
    amount sent for such a number is not modelled.) *)
Definition has_point (a : Q) : bool := negb (Qeq_bool a (inject_Z (Qfloor a))).

Fixpoint mapM {A B} (f : A -> Async B) (l : list A) : Async (list B) :=
  match l with
  | [] => ret []
  | x :: rest => y <- f x ;; ys <- mapM f rest ;; ret (y :: ys)
  end.

Section Api.

Variable w : World.

Definition random : Async Q :=
  fun s => (Ok (Math_random w (draws s)),
            {| trace := trace s; draws := S (draws s); ticks := ticks s |}).

(** [new Date()], as epoch milliseconds. *)
Definition new_Date : Async Z :=
  fun s => (Ok (Date_now w (ticks s)),
            {| trace := trace s; draws := draws s; ticks := S (ticks s) |}).

Definition calculateSlippage (amountIn amountOut : Q) : Async Q :=
  if orb (Qzero amountIn) (Qzero amountOut) then ret 0
  else
    r <- random ;;
    let estimatedSlippage := r * 2 in
    ret (Math_round (estimatedSlippage * 100) / 100).

Definition map_row (row : DuneSwapRow) : Async SwapTransaction :=
  ts <- match block_time row with
        | Some t => ret t
        | None => new_Date
        end ;;
  s <- calculateSlippage (opt_Q (token_sold_amount row))
                         (opt_Q (token_bought_amount row)) ;;
  ret {| hash := opt_str_or (tx_hash row) "unknown";
         timestamp := ts;
         from_token := opt_str_or (token_sold_symbol row) "UNKNOWN";
         to_token := opt_str_or (token_bought_symbol row) "UNKNOWN";
         from_token_address := opt_str_or (token_sold_address row) "";
         to_token_address := opt_str_or (token_bought_address row) "";
         from_amount := opt_Q (token_sold_amount row);
         to_amount := opt_Q (token_bought_amount row);
         gas_used := opt_Z (row_gas_used row);
         gas_price := opt_Q (row_gas_price row);
         dex := opt_str_or (project row) "unknown";
         usd_value := Some (opt_Q (amount_usd row));
         slippage := Some s |}.

(** The poll loop, [remaining] iterations before [attempts] reaches
    [maxAttempts]. *)
Fixpoint poll (executionId : string) (remaining : nat) : Async (list SwapTransaction) :=
  match remaining with
  | O => throw "Dune query execution timeout"
  | S remaining' =>
      let attempts := (maxAttempts - remaining)%nat in
      sleep 2000 ;;;
      emit (HttpGet (results_url executionId)) ;;;
      match dune_results w executionId attempts with
      | ResultsError message => throw message
      | ResultsData state rows =>
          if String.eqb state QUERY_STATE_COMPLETED then
            mapM map_row (match rows with Some r => r | None => [] end)
          else if String.eqb state QUERY_STATE_FAILED then
            throw "Dune query execution failed"
          else poll executionId remaining'
      end
  end.

Definition getDuneData (walletAddress : string) (limit : Z) : Async (list SwapTransaction) :=
  try_catch
    (match DUNE_API_KEY w with
     | None => throw "DUNE_API_KEY not found in environment variables"
     | Some apiKey =>
         if truthy apiKey then
           emit (HttpPost execute_url) ;;;
           match dune_execute w (toLowerCase walletAddress) limit with
           | ExecuteError message => throw message
           | ExecuteData executionId => poll executionId maxAttempts
           end
         else throw "DUNE_API_KEY not found in environment variables"
     end)
    (fun message => throw ("Failed to fetch transaction data: " ^^ message)).

(** The only statement of the [try] block that throws is the request, so the
    [catch] block is placed at its answer. *)
Definition getOneInchQuote (position : nat)
    (fromTokenAddress toTokenAddress : string) (amount : Q)
    (fromTokenSymbol toTokenSymbol : string) : Async OneInchQuote :=
  let srcAddress :=
    if startsWith fromTokenAddress "0x" then fromTokenAddress
    else getTokenAddress (str_or fromTokenSymbol fromTokenAddress) in
  let dstAddress :=
    if startsWith toTokenAddress "0x" then toTokenAddress
    else getTokenAddress (str_or toTokenSymbol toTokenAddress) in
  let amountInWei := if has_point amount then amount * pow10_18 else amount in
  emit (HttpGet quote_url) ;;;
  match oneinch_quote w position srcAddress dstAddress amountInWei with
  | QuoteError status message =>
      match status with
      | Some 429%Z => throw "1inch API rate limit exceeded. Please try again later."
      | _ => throw ("Failed to get 1inch quote: " ^^ message)
      end
  | QuoteOk data =>
      let amountOut :=
        match data_toAmount data, data_toTokenAmount data with
        | Some a, _ => a
        | None, Some a => a
        | None, None => 0
        end in
      ret {| toAmount := amountOut;
             estimatedGas :=
               match data_estimatedGas data, data_gas data with
               | Some g, other =>
                   if Z.eqb g 0 then
                     match other with
                     | Some g' => if Z.eqb g' 0 then 150000%Z else g'
                     | None => 150000%Z
                     end
                   else g
               | None, Some g' => if Z.eqb g' 0 then 150000%Z else g'
               | None, None => 150000%Z
               end;
             protocols :=
               match data_protocols data with
               | Some p => p
               | None => [["1inch Aggregated"]]
               end;
             fromTokenAmount := amountInWei;
             toTokenAmount := amountOut |}
  end.

Definition getTokenPrice (position : nat) (tokenSymbol : string) : Async Q :=
  emit (HttpGet (price_url tokenSymbol)) ;;;
  match coingecko_price w position tokenSymbol with
  | PriceError => ret 0
  | PriceOk usd => ret (opt_Q usd)
  end.

End Api.

(* ===================================================================== *)
(** ** Arrays and tallies *)
(* ===================================================================== *)

(** [Array.prototype.sort(cmp)]: the stable sort by a comparator whose sign
    orders two elements. *)
Fixpoint insert_by {A} (cmp : A -> A -> Z) (x : A) (l : list A) : list A :=
  match l with
  | [] => [x]
  | y :: rest =>
      if (cmp x y <=? 0)%Z then x :: y :: rest else y :: insert_by cmp x rest
  end.

Fixpoint sort_by {A} (cmp : A -> A -> Z) (l : list A) : list A :=
  match l with
  | [] => []
  | x :: rest => insert_by cmp x (sort_by cmp rest)
  end.

(** [acc[k] = (acc[k] || 0) + 1] on a tally object. *)
Fixpoint bump (k : string) (o : list (string * nat)) : list (string * nat) :=
  match o with
  | [] => [(k, 1%nat)]
  | (k', v) :: rest =>
      if String.eqb k' k then (k', S v) :: rest else (k', v) :: bump k rest
  end.

(** [transactions.reduce((acc, tx) => { acc[tx.dex] = ...; return acc }, {})]. *)
Definition dexUsage (transactions : list SwapTransaction) : list (string * nat) :=
  fold_left (fun acc tx => bump (dex tx) acc) transactions [].

(** [Object.entries(tally).sort(([,a], [,b]) => b - a)[0]]. *)
Definition mostUsedDex (transactions : list SwapTransaction) : option (string * nat) :=
  hd_error (sort_by (fun a b => (Z.of_nat (snd b) - Z.of_nat (snd a))%Z)
                    (dexUsage transactions)).

(** [new Set(transactions.map(tx => tx.dex)).size]. *)
Definition uniqueDexes (transactions : list SwapTransaction) : nat :=
  List.length (nodup string_dec (map dex transactions)).

Definition Q_of_nat (n : nat) : Q := inject_Z (Z.of_nat n).

Definition sum_Q {A} (f : A -> Q) (l : list A) : Q :=
  fold_left (fun sum x => sum + f x) l 0.

Definition sum_Z {A} (f : A -> Z) (l : list A) : Z :=
  fold_left (fun sum x => (sum + f x)%Z) l 0%Z.

(* ===================================================================== *)
(** ** [src/tools/transactions.ts] *)
(* ===================================================================== *)

(** The predicate of [transactions.filter] in [getUserTransactions]. *)
Definition valid_transaction (tx : SwapTransaction) : bool :=
  truthy (hash tx) && truthy (from_token tx) && truthy (to_token tx)
  && Qltb 0 (from_amount tx) && Qltb 0 (to_amount tx) && (0 <? gas_used tx)%Z.

(** [new Date(b.timestamp).getTime() - new Date(a.timestamp).getTime()]. *)
Definition by_recency (a b : SwapTransaction) : Z := (timestamp b - timestamp a)%Z.

Definition invalid_format (walletAddress : string) : bool :=
  negb (truthy walletAddress) || negb (startsWith walletAddress "0x").

Section Tools.

Variable w : World.

Definition getUserTransactions (walletAddress : string) (limit : Z)
  : Async (list SwapTransaction) :=
  if invalid_format walletAddress then throw "Invalid wallet address format"
  else if negb (Nat.eqb (String.length walletAddress) 42) then
    throw "Invalid wallet address length"
  else
    try_catch
      (transactions <- getDuneData w walletAddress limit ;;
       let validTransactions := filter valid_transaction transactions in
       ret (sort_by by_recency validTransactions))
      (fun message => throw ("Failed to fetch transaction data: " ^^ message)).

(* ===================================================================== *)
(** ** [src/tools/comparison.ts] *)
(* ===================================================================== *)

Definition generateRecommendations
    (transactions : list SwapTransaction)
    (gasSavingsPotential totalActualGas : Q)
    (averageSlippage : num)
    (comparisons : list ComparisonRecord) : list string :=
  let gas :=
    if Qltb 0 gasSavingsPotential then
      let savingsPercentage :=
        nmul (ndiv (Fin gasSavingsPotential) (Fin totalActualGas)) (Fin 100) in
      [ "Consider using 1inch aggregator for better gas efficiency";
        "Potential gas savings: "
          ^^ toFixed (Fin (gasSavingsPotential / inject_Z (10 ^ 9))) 4
          ^^ " Gwei (" ^^ toFixed savingsPercentage 1 ^^ "%)" ]
    else [ "Your gas usage is already quite efficient!" ] in
  let venue :=
    match mostUsedDex transactions with
    | Some (name, _) =>
        if String.eqb name "Uniswap V2" then
          [ "Consider upgrading to Uniswap V3 for better capital efficiency and lower slippage" ]
        else []
    | None => []
    end in
  let slip :=
    if ngt averageSlippage (Fin 1) then
      [ "Your average slippage is " ^^ toFixed averageSlippage 2
          ^^ "% - consider using limit orders or splitting large trades" ]
    else if ngt averageSlippage (Fin (5 # 10)) then
      [ "Consider adjusting slippage tolerance or timing trades during less volatile periods" ]
    else [] in
  let suboptimalRoutes :=
    List.length (filter (fun c => Qltb 0 (gasDifference c)) comparisons) in
  let routes :=
    if Qltb (Q_of_nat (List.length comparisons) * (3 # 10)) (Q_of_nat suboptimalRoutes) then
      [ "Many of your trades used suboptimal routes - consider using DEX aggregators" ]
    else [] in
  let highValueTrades :=
    List.length (filter (fun tx => Qltb 1000 (opt_Q (usd_value tx))) transactions) in
  let volume :=
    if (0 <? highValueTrades)%nat then
      [ "For high-value trades, consider using professional trading interfaces with better routing" ]
    else [] in
  gas ++ venue ++ slip ++ routes ++ volume.

(** The variables the comparison loop updates. *)
Record Totals : Type := {
  l_detailedComparisons : list ComparisonRecord;
  l_totalActualGas : Q;
  l_totalOptimalGas : Q;
  l_totalSlippage : Q;
  l_validComparisons : nat
}.

Definition Totals0 : Totals :=
  {| l_detailedComparisons := [];
     l_totalActualGas := 0;
     l_totalOptimalGas := 0;
     l_totalSlippage := 0;
     l_validComparisons := 0 |}.

(** [quote.protocols[0]?.[0] || '1inch Aggregated']. *)
Definition first_protocol (quote : OneInchQuote) : string :=
  match protocols quote with
  | (name :: _) :: _ => str_or name "1inch Aggregated"
  | _ => "1inch Aggregated"
  end.

Definition has_addresses (tx : SwapTransaction) : bool :=
  truthy (from_token_address tx) && truthy (to_token_address tx).

(** The statements of the loop body that follow the quote: the two gas costs,
    the running totals and the pushed record. *)
Definition record_comparison (tx : SwapTransaction) (quote : OneInchQuote)
    (acc : Totals) : Totals :=
  let actualGas := inject_Z (gas_used tx) * gas_price tx in
  let optimalGas := inject_Z (estimatedGas quote) * gas_price tx in
  let actualSlippage := opt_Q (slippage tx) in
  let optimalAmountOut := toAmount quote / pow10_18 in
  let actualAmountOut := to_amount tx in
  {| l_detailedComparisons :=
       l_detailedComparisons acc ++
       [ {| txHash := hash tx;
            actualRoute := dex tx;
            optimalRoute := first_protocol quote;
            gasDifference := actualGas - optimalGas;
            slippageDifference := actualSlippage;
            actualAmountOut := actualAmountOut;
            optimalAmountOut := optimalAmountOut |} ];
     l_totalActualGas := l_totalActualGas acc + actualGas;
     l_totalOptimalGas := l_totalOptimalGas acc + optimalGas;
     l_totalSlippage := l_totalSlippage acc + actualSlippage;
     l_validComparisons := S (l_validComparisons acc) |}.

(** One turn of [for (const tx of transactions)], for the transaction at
    [position]. *)
Definition compare_one (position : nat) (tx : SwapTransaction) (acc : Totals)
  : Async Totals :=
  try_catch
    (if negb (has_addresses tx) then ret acc
     else
       let amountInWei := from_amount tx * pow10_18 in
       quote <- getOneInchQuote w position
                  (from_token_address tx) (to_token_address tx)
                  amountInWei (from_token tx) (to_token tx) ;;
       let acc' := record_comparison tx quote acc in
       sleep 100 ;;;
       ret acc')
    (fun _ => ret acc).

Fixpoint compare_loop (position : nat) (transactions : list SwapTransaction)
    (acc : Totals) : Async Totals :=
  match transactions with
  | [] => ret acc
  | tx :: rest =>
      acc' <- compare_one position tx acc ;;
      compare_loop (S position) rest acc'
  end.

Definition average_slippage (acc : Totals) : num :=
  if (0 <? l_validComparisons acc)%nat then
    ndiv (Fin (l_totalSlippage acc)) (Fin (Q_of_nat (l_validComparisons acc)))
  else Fin 0.

(** [Math.round(x * 100) / 100]. *)
Definition round2 (x : num) : num := ndiv (nMath_round (nmul x (Fin 100))) (Fin 100).

(** The result returned when the history is empty. *)
Definition empty_comparison (walletAddress : string) : ComparisonResult :=
  {| success := true;
     wallet := walletAddress;
     totalTransactions := 0;
     totalActualGas := 0;
     totalOptimalGas := 0;
     gasSavingsPotential := 0;
     averageSlippageActual := Fin 0;
     recommendations := [ "No transactions found for analysis" ];
     detailedComparisons := [] |}.

(** The statements that follow the loop. *)
Definition comparison_result (walletAddress : string)
    (transactions : list SwapTransaction) (acc : Totals) : ComparisonResult :=
  let gasSavingsPotential :=
    Math_max 0 (l_totalActualGas acc - l_totalOptimalGas acc) in
  let averageSlippageActual := average_slippage acc in
  let recommendations :=
    generateRecommendations transactions gasSavingsPotential
      (l_totalActualGas acc) averageSlippageActual
      (l_detailedComparisons acc) in
  {| success := true;
     wallet := walletAddress;
     totalTransactions := List.length transactions;
     totalActualGas := l_totalActualGas acc;
     totalOptimalGas := l_totalOptimalGas acc;
     gasSavingsPotential := gasSavingsPotential;
     averageSlippageActual := round2 averageSlippageActual;
     recommendations := recommendations;
     detailedComparisons := l_detailedComparisons acc |}.

Definition compareWithOneInch (walletAddress : string) : Async ComparisonResult :=
  if invalid_format walletAddress then throw "Invalid wallet address format"
  else
    try_catch
      (transactions <- getDuneData w walletAddress 10 ;;
       match transactions with
       | [] => ret (empty_comparison walletAddress)
       | _ :: _ =>
           acc <- compare_loop 0 transactions Totals0 ;;
           ret (comparison_result walletAddress transactions acc)
       end)
      (fun message =>
         throw ("Failed to perform comparison analysis: " ^^ message)).

(* ===================================================================== *)
(** ** [src/tools/report.ts] *)
(* ===================================================================== *)

Fixpoint volume_loop (position : nat) (transactions : list SwapTransaction)
    (totalVolume : Q) : Async Q :=
  match transactions with
  | [] => ret totalVolume
  | tx :: rest =>
      totalVolume' <-
        try_catch
          (match usd_value tx with
           | Some v =>
               if Qltb 0 v then ret (totalVolume + v)
               else
                 tokenPrice <- getTokenPrice w position (from_token tx) ;;
                 if Qltb 0 tokenPrice
                 then ret (totalVolume + from_amount tx * tokenPrice)
                 else ret totalVolume
           | None =>
               tokenPrice <- getTokenPrice w position (from_token tx) ;;
               if Qltb 0 tokenPrice
               then ret (totalVolume + from_amount tx * tokenPrice)
               else ret totalVolume
           end)
          (fun _ => ret totalVolume) ;;
      volume_loop (S position) rest totalVolume'
  end.

Definition calculateRealVolumeUSD (transactions : list SwapTransaction) : Async Q :=
  volume_loop 0 transactions 0.

Definition outdated (tx : SwapTransaction) : bool :=
  includes (dex tx) "V1" || includes (dex tx) "SushiSwap".

Definition calculateEfficiencyScore
    (gasSavingsPotential totalGasSpent : Q) (averageSlippage : num)
    (transactions : list SwapTransaction) : num :=
  let score := Fin 100 in
  let score :=
    if Qltb 0 totalGasSpent then
      let gasEfficiencyPenalty :=
        nmul (ndiv (Fin gasSavingsPotential) (Fin totalGasSpent)) (Fin 50) in
      nsub score gasEfficiencyPenalty
    else score in
  let slippagePenalty := nMath_min (nmul averageSlippage (Fin 10)) (Fin 30) in
  let score := nsub score slippagePenalty in
  let outdatedDexCount := List.length (filter outdated transactions) in
  let outdatedPenalty :=
    nmul (ndiv (Fin (Q_of_nat outdatedDexCount))
               (Fin (Q_of_nat (List.length transactions))))
         (Fin 20) in
  let score := nsub score outdatedPenalty in
  let score :=
    if (uniqueDexes transactions <=? 3)%nat && (5 <? List.length transactions)%nat
    then nadd score (Fin 5)
    else score in
  nMath_max (Fin 0) (nMath_min (Fin 100) score).

Definition calculateRoutingAnalysis (detailedComparisons : list ComparisonRecord)
  : RoutingAnalysis :=
  match detailedComparisons with
  | [] =>
      {| optimalRoutes := 0;
         suboptimalRoutes := 0;
         missedOpportunities := [ "No comparison data available" ] |}
  | _ :: _ =>
      let optimalRoutes :=
        List.length (filter (fun c => Qle_bool (gasDifference c) 0) detailedComparisons) in
      let suboptimalRoutes := (List.length detailedComparisons - optimalRoutes)%nat in
      let significantSavings :=
        filter (fun c => Qltb 50000 (gasDifference c)) detailedComparisons in
      let betterAmountOuts :=
        filter (fun c => Qltb (actualAmountOut c * (101 # 100)) (optimalAmountOut c))
               detailedComparisons in
      let missed :=
        (if (0 <? List.length significantSavings)%nat then
           [ show_nat (List.length significantSavings)
               ^^ " transactions could have saved significant gas" ]
         else [])
        ++
        (if (0 <? List.length betterAmountOuts)%nat then
           [ show_nat (List.length betterAmountOuts)
               ^^ " transactions could have gotten better rates" ]
         else []) in
      {| optimalRoutes := optimalRoutes;
         suboptimalRoutes := suboptimalRoutes;
         missedOpportunities :=
           match missed with
           | [] => [ "Your routing choices were generally optimal!" ]
           | _ :: _ => missed
           end |}
  end.

Definition generateComprehensiveRecommendations
    (transactions : list SwapTransaction) (comparison : ComparisonResult)
    (efficiencyScore averageGasPrice : num) (totalVolumeUSD : Q) : list string :=
  recommendations comparison
  ++ (if nlt efficiencyScore (Fin 50) then
        [ "⚠️ Your trading efficiency is below average - consider using DEX aggregators" ]
      else if nlt efficiencyScore (Fin 70) then
        [ "💡 Theres room for improvement in your trading efficiency" ]
      else if nge efficiencyScore (Fin 90) then
        [ "🎉 Excellent trading efficiency! Youre doing great!" ]
      else [])
  ++ (if ngt averageGasPrice (Fin (inject_Z (100 * 10 ^ 9))) then
        [ "⛽ Consider timing your trades during lower gas periods (weekends, early morning UTC)" ]
      else if nlt averageGasPrice (Fin (inject_Z (20 * 10 ^ 9))) then
        [ "✅ Great job timing your trades during low gas periods!" ]
      else [])
  ++ (if Qltb 100000 totalVolumeUSD then
        [ "💰 For high-volume trading, consider using professional tools like DeFiSaver or Instadapp" ]
      else if Qltb totalVolumeUSD 1000 then
        [ "🔍 For small trades, consider batching transactions to save on gas costs" ]
      else [])
  ++ (if (uniqueDexes transactions =? 1)%nat then
        [ "🔄 Consider diversifying across multiple DEXes for better rates and reduced slippage" ]
      else [])
  ++ (if (20 <? List.length transactions)%nat then
        [ "📊 Consider using DCA (Dollar Cost Averaging) strategies for frequent trading" ]
      else []).

(** [Math.min(...l)] and [Math.max(...l)] of a non-empty list of time values. *)
Definition min_time (l : list Z) : Z :=
  match l with
  | [] => 0%Z
  | t :: rest => fold_left Z.min rest t
  end.

Definition max_time (l : list Z) : Z :=
  match l with
  | [] => 0%Z
  | t :: rest => fold_left Z.max rest t
  end.

(** The gas statistics of the report. *)
Definition total_gas_spent (transactions : list SwapTransaction) : Q :=
  sum_Q (fun tx => inject_Z (gas_used tx) * gas_price tx) transactions.

Definition total_gas_used (transactions : list SwapTransaction) : Z :=
  sum_Z gas_used transactions.

Definition mean_gas_used (transactions : list SwapTransaction) : num :=
  nMath_round (ndiv (Fin (inject_Z (total_gas_used transactions)))
                    (Fin (Q_of_nat (List.length transactions)))).

Definition mean_gas_price (transactions : list SwapTransaction) : num :=
  ndiv (Fin (total_gas_spent transactions))
       (Fin (inject_Z (total_gas_used transactions))).

(** The report returned when no transaction is retrieved; the three clock
    readings are those of its object literal, in order. *)
Definition empty_report (walletAddress : string) (generated range_from range_to : Z)
  : SwapReportData :=
  {| report_success := true;
     report_wallet := walletAddress;
     reportGeneratedAt := generated;
     summary :=
       {| totalSwaps := 0;
          totalVolumeUSD := 0;
          averageGasUsed := Fin 0;
          mostUsedDEX := "N/A";
          efficiencyScore := Fin 0 |};
     gasAnalysis :=
       {| totalGasSpent := 0;
          averageGasPrice := Fin 0;
          potentialSavings := 0;
          savingsPercentage := Fin 0 |};
     routingAnalysis :=
       {| optimalRoutes := 0;
          suboptimalRoutes := 0;
          missedOpportunities := [ "No transactions found" ] |};
     report_recommendations := [ "Start making some swaps to get analysis!" ];
     timeRange := {| from := range_from; to := range_to |} |}.

(** The statements that follow the volume estimate. *)
Definition report_of (walletAddress : string)
    (transactions : list SwapTransaction) (comparison : ComparisonResult)
    (totalVolumeUSD : Q) (generated : Z) : SwapReportData :=
  let totalGasSpent := total_gas_spent transactions in
  let averageGasUsed := mean_gas_used transactions in
  let averageGasPrice := mean_gas_price transactions in
  let mostUsedDEX :=
    match mostUsedDex transactions with
    | Some (name, _) => str_or name "Unknown"
    | None => "Unknown"
    end in
  let efficiencyScore :=
    calculateEfficiencyScore (gasSavingsPotential comparison)
      totalGasSpent (averageSlippageActual comparison) transactions in
  let routingAnalysis :=
    calculateRoutingAnalysis (detailedComparisons comparison) in
  let recommendations :=
    generateComprehensiveRecommendations transactions comparison
      efficiencyScore averageGasPrice totalVolumeUSD in
  let timestamps := map timestamp transactions in
  let potentialSavings := Math_max 0 (gasSavingsPotential comparison) in
  let savingsPercentage :=
    if Qltb 0 totalGasSpent
    then nmul (ndiv (Fin potentialSavings) (Fin totalGasSpent)) (Fin 100)
    else Fin 0 in
  {| report_success := true;
     report_wallet := walletAddress;
     reportGeneratedAt := generated;
     summary :=
       {| totalSwaps := List.length transactions;
          totalVolumeUSD := Math_round (totalVolumeUSD * 100) / 100;
          averageGasUsed := averageGasUsed;
          mostUsedDEX := mostUsedDEX;
          efficiencyScore := nMath_round efficiencyScore |};
     gasAnalysis :=
       {| totalGasSpent := Math_round totalGasSpent;
          averageGasPrice := nMath_round averageGasPrice;
          potentialSavings := Math_round potentialSavings;
          savingsPercentage := round2 savingsPercentage |};
     routingAnalysis := routingAnalysis;
     report_recommendations := recommendations;
     timeRange :=
       {| from := min_time timestamps; to := max_time timestamps |} |}.

Definition generateSwapReport (walletAddress : string) : Async SwapReportData :=
  if invalid_format walletAddress then throw "Invalid wallet address format"
  else
    try_catch
      (both <- Promise_all (getUserTransactions walletAddress 50)
                           (compareWithOneInch walletAddress) ;;
       let transactions := fst both in
       let comparison := snd both in
       match transactions with
       | [] =>
           generated <- new_Date w ;;
           range_from <- new_Date w ;;
           range_to <- new_Date w ;;
           ret (empty_report walletAddress generated range_from range_to)
       | _ :: _ =>
           totalVolumeUSD <- calculateRealVolumeUSD transactions ;;
           generated <- new_Date w ;;
           ret (report_of walletAddress transactions comparison
                          totalVolumeUSD generated)
       end)
      (fun message => throw ("Failed to generate swap report: " ^^ message)).

End Tools.


(* ===================================================================== *)
(** ** [src/index.ts]: the request handler *)
(* ===================================================================== *)

(** The arguments of a tool call: [walletAddress] and the optional [limit]. *)
Record ToolArguments : Type := {
  arg_walletAddress : string;
  arg_limit : option Z
}.

(** The object serialised into the text of the answer: the three success
    shapes and the failure object [{success: false, error, message}]. *)
Inductive Payload : Type :=
| TransactionsPayload (data : list SwapTransaction) (message : string)
| ComparisonPayload (comparison : ComparisonResult)
| ReportPayload (report : SwapReportData)
| ErrorPayload (error : string).

(** [args.limit || 10]. *)
Definition limit_or_default (limit : option Z) : Z :=
  match limit with
  | Some n => if Z.eqb n 0 then 10%Z else n
  | None => 10%Z
  end.

(** The handler of [CallToolRequestSchema]. *)
Definition callTool (w : World) (name : string) (args : ToolArguments) : Async Payload :=
  try_catch
    (if String.eqb name "get_user_transactions" then
       transactions <- getUserTransactions w (arg_walletAddress args)
                         (limit_or_default (arg_limit args)) ;;
       ret (TransactionsPayload transactions
              ("Found " ^^ show_nat (List.length transactions)
                 ^^ " recent swap transactions"))
     else if String.eqb name "compare_with_1inch" then
       comparison <- compareWithOneInch w (arg_walletAddress args) ;;
       ret (ComparisonPayload comparison)
     else if String.eqb name "generate_swap_report" then
       report <- generateSwapReport w (arg_walletAddress args) ;;
       ret (ReportPayload report)
     else throw ("Unknown tool: " ^^ name))
    (fun errorMessage => ret (ErrorPayload errorMessage)).
(* ===================================================================== *)
(** ** binary64 arithmetic *)
(* ===================================================================== *)

(** The gas figures of [comparison.ts] and [report.ts] are sums of products
    of numbers read from the providers; a JS number is a binary64 value, so
    each product, sum, difference and quotient is rounded to the nearest
    binary64 number and overflows to an infinity.  [binary64 q] is that
    number for the exact result [q]: round to nearest, ties to the even
    significand, 53 significant bits, exponents from -1022 (gradual underflow
    below) to 1023.  It is also the number a decimal text of value [q] parses
    to.  The sign of a zero is not kept. *)

Definition pow2 (k : Z) : Q := 2 ^ k.

(** The exponent [e] of a positive number [a]: [2^e <= a < 2^(e+1)]. *)
Definition ilog2 (a : Q) : Z :=
  let k := (Z.log2 (Qnum a) - Z.log2 (Zpos (Qden a)))%Z in
  if Qle_bool (pow2 k) a then k else (k - 1)%Z.

(** The integer nearest to [x], the even one when [x] lies half-way. *)
Definition round_half_even (x : Q) : Z :=
  let n := Qfloor x in
  match Qcompare (x - inject_Z n) (1 # 2) with
  | Lt => n
  | Gt => (n + 1)%Z
  | Eq => if Z.even n then n else (n + 1)%Z
  end.

(** [Number.MAX_VALUE]. *)
Definition max_double : Q := inject_Z ((2 ^ 53 - 1) * 2 ^ 971).

Definition binary64 (q : Q) : num :=
  if Qzero q then Fin 0
  else
    let a := Qabs q in
    let e := Z.max (ilog2 a) (-1022) in
    let ulp := pow2 (e - 52) in
    let r := Qred (inject_Z (round_half_even (a / ulp)) * ulp) in
    if Qle_bool r max_double then Fin (if Qltb 0 q then r else - r)
    else if Qltb 0 q then PInf else NInf.

(** [a + b], [a - b], [a * b] and [a / b] on JS numbers. *)
Definition fadd (a b : num) : num :=
  match a, b with
  | Fin x, Fin y => binary64 (x + y)
  | _, _ => nadd a b
  end.

Definition fsub (a b : num) : num := fadd a (nneg b).

Definition fmul (a b : num) : num :=
  match a, b with
  | Fin x, Fin y => binary64 (x * y)
  | _, _ => nmul a b
  end.

Definition fdiv (a b : num) : num :=
  match a, b with
  | Fin x, Fin y => if Qzero y then ndiv a b else binary64 (x / y)
  | _, _ => ndiv a b
  end.

(* ===================================================================== *)
(** ** The figures of the comparison and of the report in binary64 *)
(* ===================================================================== *)

(** The same functions of [src/tools/comparison.ts] and [src/tools/report.ts]
    as above, with every numeric variable a JS number and every operation
    rounded: the embedding that the statements on magnitudes (overflow,
    [NaN], sign) are about.  A numeric field of a transaction or of a quote
    is read as the binary64 number its value parses to; array lengths and
    counters are exact.  Requests, pauses and the history client are those of
    the embedding above. *)

Module Binary64.

Record ComparisonRecord : Type := {
  txHash : string;
  actualRoute : string;
  optimalRoute : string;
  gasDifference : num;
  slippageDifference : num;
  actualAmountOut : num;
  optimalAmountOut : num
}.

Record ComparisonResult : Type := {
  success : bool;
  wallet : string;
  totalTransactions : nat;
  totalActualGas : num;
  totalOptimalGas : num;
  gasSavingsPotential : num;
  averageSlippageActual : num;
  recommendations : list string;
  detailedComparisons : list ComparisonRecord
}.

Record Summary : Type := {
  totalSwaps : nat;
  totalVolumeUSD : num;
  averageGasUsed : num;
  mostUsedDEX : string;
  efficiencyScore : num
}.

Record GasAnalysis : Type := {
  totalGasSpent : num;
  averageGasPrice : num;
  potentialSavings : num;
  savingsPercentage : num
}.

Record SwapReportData : Type := {
  report_success : bool;
  report_wallet : string;
  reportGeneratedAt : Z;
  summary : Summary;
  gasAnalysis : GasAnalysis;
  routingAnalysis : RoutingAnalysis;
  report_recommendations : list string;
  timeRange : TimeRange
}.

(** [tx.usd_value || 0] and [tx.slippage || 0]. *)
Definition number_or_zero (o : option Q) : num := binary64 (opt_Q o).

Definition generateRecommendations
    (transactions : list SwapTransaction)
    (gasSavingsPotential totalActualGas averageSlippage : num)
    (comparisons : list ComparisonRecord) : list string :=
  let gas :=
    if ngt gasSavingsPotential (Fin 0) then
      let savingsPercentage :=
        fmul (fdiv gasSavingsPotential totalActualGas) (Fin 100) in
      [ "Consider using 1inch aggregator for better gas efficiency";
        "Potential gas savings: "
          ^^ toFixed (fdiv gasSavingsPotential (Fin (inject_Z (10 ^ 9)))) 4
          ^^ " Gwei (" ^^ toFixed savingsPercentage 1 ^^ "%)" ]
    else [ "Your gas usage is already quite efficient!" ] in
  let venue :=
    match mostUsedDex transactions with
    | Some (name, _) =>
        if String.eqb name "Uniswap V2" then
          [ "Consider upgrading to Uniswap V3 for better capital efficiency and lower slippage" ]
        else []
    | None => []
    end in
  let slip :=
    if ngt averageSlippage (Fin 1) then
      [ "Your average slippage is " ^^ toFixed averageSlippage 2
          ^^ "% - consider using limit orders or splitting large trades" ]
    else if ngt averageSlippage (Fin (1 # 2)) then
      [ "Consider adjusting slippage tolerance or timing trades during less volatile periods" ]
    else [] in
  let suboptimalRoutes :=
    List.length (filter (fun c => ngt (gasDifference c) (Fin 0)) comparisons) in
  let routes :=
    if ngt (Fin (Q_of_nat suboptimalRoutes))
           (fmul (Fin (Q_of_nat (List.length comparisons))) (binary64 (3 # 10))) then
      [ "Many of your trades used suboptimal routes - consider using DEX aggregators" ]
    else [] in
  let highValueTrades :=
    List.length (filter (fun tx => ngt (number_or_zero (usd_value tx)) (Fin 1000))
                        transactions) in
  let volume :=
    if (0 <? highValueTrades)%nat then
      [ "For high-value trades, consider using professional trading interfaces with better routing" ]
    else [] in
  gas ++ venue ++ slip ++ routes ++ volume.

(** The variables the comparison loop updates. *)
Record Totals : Type := {
  l_detailedComparisons : list ComparisonRecord;
  l_totalActualGas : num;
  l_totalOptimalGas : num;
  l_totalSlippage : num;
  l_validComparisons : nat
}.

Definition Totals0 : Totals :=
  {| l_detailedComparisons := [];
     l_totalActualGas := Fin 0;
     l_totalOptimalGas := Fin 0;
     l_totalSlippage := Fin 0;
     l_validComparisons := 0 |}.

(** The statements of the loop body that follow the quote. *)
Definition record_comparison (tx : SwapTransaction) (quote : OneInchQuote)
    (acc : Totals) : Totals :=
  let actualGas := fmul (binary64 (inject_Z (gas_used tx))) (binary64 (gas_price tx)) in
  let optimalGas :=
    fmul (binary64 (inject_Z (estimatedGas quote))) (binary64 (gas_price tx)) in
  let actualSlippage := number_or_zero (slippage tx) in
  let optimalAmountOut := fdiv (binary64 (toAmount quote)) (Fin pow10_18) in
  let actualAmountOut := binary64 (to_amount tx) in
  {| l_detailedComparisons :=
       l_detailedComparisons acc ++
       [ {| txHash := hash tx;
            actualRoute := dex tx;
            optimalRoute := first_protocol quote;
            gasDifference := fsub actualGas optimalGas;
            slippageDifference := actualSlippage;
            actualAmountOut := actualAmountOut;
            optimalAmountOut := optimalAmountOut |} ];
     l_totalActualGas := fadd (l_totalActualGas acc) actualGas;
     l_totalOptimalGas := fadd (l_totalOptimalGas acc) optimalGas;
     l_totalSlippage := fadd (l_totalSlippage acc) actualSlippage;
     l_validComparisons := S (l_validComparisons acc) |}.

Definition average_slippage (acc : Totals) : num :=
  if (0 <? l_validComparisons acc)%nat then
    fdiv (l_totalSlippage acc) (Fin (Q_of_nat (l_validComparisons acc)))
  else Fin 0.

(** [Math.round(x * 100) / 100]. *)
Definition round2 (x : num) : num := fdiv (nMath_round (fmul x (Fin 100))) (Fin 100).

(** The result returned when the history is empty. *)
Definition empty_comparison (walletAddress : string) : ComparisonResult :=
  {| success := true;
     wallet := walletAddress;
     totalTransactions := 0;
     totalActualGas := Fin 0;
     totalOptimalGas := Fin 0;
     gasSavingsPotential := Fin 0;
     averageSlippageActual := Fin 0;
     recommendations := [ "No transactions found for analysis" ];
     detailedComparisons := [] |}.

(** The statements that follow the loop. *)
Definition comparison_result (walletAddress : string)
    (transactions : list SwapTransaction) (acc : Totals) : ComparisonResult :=
  let gasSavingsPotential :=
    nMath_max (Fin 0) (fsub (l_totalActualGas acc) (l_totalOptimalGas acc)) in
  let averageSlippageActual := average_slippage acc in
  let recommendations :=
    generateRecommendations transactions gasSavingsPotential
      (l_totalActualGas acc) averageSlippageActual
      (l_detailedComparisons acc) in
  {| success := true;
     wallet := walletAddress;
     totalTransactions := List.length transactions;
     totalActualGas := l_totalActualGas acc;
     totalOptimalGas := l_totalOptimalGas acc;
     gasSavingsPotential := gasSavingsPotential;
     averageSlippageActual := round2 averageSlippageActual;
     recommendations := recommendations;
     detailedComparisons := l_detailedComparisons acc |}.

Definition calculateEfficiencyScore
    (gasSavingsPotential totalGasSpent averageSlippage : num)
    (transactions : list SwapTransaction) : num :=
  let score := Fin 100 in
  let score :=
    if ngt totalGasSpent (Fin 0) then
      let gasEfficiencyPenalty :=
        fmul (fdiv gasSavingsPotential totalGasSpent) (Fin 50) in
      fsub score gasEfficiencyPenalty
    else score in
  let slippagePenalty := nMath_min (fmul averageSlippage (Fin 10)) (Fin 30) in
  let score := fsub score slippagePenalty in
  let outdatedDexCount := List.length (filter outdated transactions) in
  let outdatedPenalty :=
    fmul (fdiv (Fin (Q_of_nat outdatedDexCount))
               (Fin (Q_of_nat (List.length transactions))))
         (Fin 20) in
  let score := fsub score outdatedPenalty in
  let score :=
    if (uniqueDexes transactions <=? 3)%nat && (5 <? List.length transactions)%nat
    then fadd score (Fin 5)
    else score in
  nMath_max (Fin 0) (nMath_min (Fin 100) score).

Definition calculateRoutingAnalysis (detailedComparisons : list ComparisonRecord)
  : RoutingAnalysis :=
  match detailedComparisons with
  | [] =>
      {| optimalRoutes := 0;
         suboptimalRoutes := 0;
         missedOpportunities := [ "No comparison data available" ] |}
  | _ :: _ =>
      let optimalRoutes :=
        List.length (filter (fun c => nle (gasDifference c) (Fin 0)) detailedComparisons) in
      let suboptimalRoutes := (List.length detailedComparisons - optimalRoutes)%nat in
      let significantSavings :=
        filter (fun c => ngt (gasDifference c) (Fin 50000)) detailedComparisons in
      let betterAmountOuts :=
        filter (fun c => ngt (optimalAmountOut c)
                             (fmul (actualAmountOut c) (binary64 (101 # 100))))
               detailedComparisons in
      let missed :=
        (if (0 <? List.length significantSavings)%nat then
           [ show_nat (List.length significantSavings)
               ^^ " transactions could have saved significant gas" ]
         else [])
        ++
        (if (0 <? List.length betterAmountOuts)%nat then
           [ show_nat (List.length betterAmountOuts)
               ^^ " transactions could have gotten better rates" ]
         else []) in
      {| optimalRoutes := optimalRoutes;
         suboptimalRoutes := suboptimalRoutes;
         missedOpportunities :=
           match missed with
           | [] => [ "Your routing choices were generally optimal!" ]
           | _ :: _ => missed
           end |}
  end.

Definition generateComprehensiveRecommendations
    (transactions : list SwapTransaction) (comparison : ComparisonResult)
    (efficiencyScore averageGasPrice totalVolumeUSD : num) : list string :=
  recommendations comparison
  ++ (if nlt efficiencyScore (Fin 50) then
        [ "⚠️ Your trading efficiency is below average - consider using DEX aggregators" ]
      else if nlt efficiencyScore (Fin 70) then
        [ "💡 Theres room for improvement in your trading efficiency" ]
      else if nge efficiencyScore (Fin 90) then
        [ "🎉 Excellent trading efficiency! Youre doing great!" ]
      else [])
  ++ (if ngt averageGasPrice (Fin (inject_Z (100 * 10 ^ 9))) then
        [ "⛽ Consider timing your trades during lower gas periods (weekends, early morning UTC)" ]
      else if nlt averageGasPrice (Fin (inject_Z (20 * 10 ^ 9))) then
        [ "✅ Great job timing your trades during low gas periods!" ]
      else [])
  ++ (if ngt totalVolumeUSD (Fin 100000) then
        [ "💰 For high-volume trading, consider using professional tools like DeFiSaver or Instadapp" ]
      else if nlt totalVolumeUSD (Fin 1000) then
        [ "🔍 For small trades, consider batching transactions to save on gas costs" ]
      else [])
  ++ (if (uniqueDexes transactions =? 1)%nat then
        [ "🔄 Consider diversifying across multiple DEXes for better rates and reduced slippage" ]
      else [])
  ++ (if (20 <? List.length transactions)%nat then
        [ "📊 Consider using DCA (Dollar Cost Averaging) strategies for frequent trading" ]
      else []).

(** The gas statistics of the report: the three [reduce] calls. *)
Definition total_gas_spent (transactions : list SwapTransaction) : num :=
  fold_left (fun sum tx =>
               fadd sum (fmul (binary64 (inject_Z (gas_used tx)))
                              (binary64 (gas_price tx))))
            transactions (Fin 0).

Definition total_gas_used (transactions : list SwapTransaction) : num :=
  fold_left (fun sum tx => fadd sum (binary64 (inject_Z (gas_used tx))))
            transactions (Fin 0).

Definition mean_gas_used (transactions : list SwapTransaction) : num :=
  nMath_round (fdiv (total_gas_used transactions)
                    (Fin (Q_of_nat (List.length transactions)))).

Definition mean_gas_price (transactions : list SwapTransaction) : num :=
  fdiv (total_gas_spent transactions) (total_gas_used transactions).

(** The report returned when no transaction is retrieved. *)
Definition empty_report (walletAddress : string) (generated range_from range_to : Z)
  : SwapReportData :=
  {| report_success := true;
     report_wallet := walletAddress;
     reportGeneratedAt := generated;
     summary :=
       {| totalSwaps := 0;
          totalVolumeUSD := Fin 0;
          averageGasUsed := Fin 0;
          mostUsedDEX := "N/A";
          efficiencyScore := Fin 0 |};
     gasAnalysis :=
       {| totalGasSpent := Fin 0;
          averageGasPrice := Fin 0;
          potentialSavings := Fin 0;
          savingsPercentage := Fin 0 |};
     routingAnalysis :=
       {| optimalRoutes := 0;
          suboptimalRoutes := 0;
          missedOpportunities := [ "No transactions found" ] |};
     report_recommendations := [ "Start making some swaps to get analysis!" ];
     timeRange := {| from := range_from; to := range_to |} |}.

(** The statements that follow the volume estimate. *)
Definition report_of (walletAddress : string)
    (transactions : list SwapTransaction) (comparison : ComparisonResult)
    (totalVolumeUSD : num) (generated : Z) : SwapReportData :=
  let totalGasSpent := total_gas_spent transactions in
  let averageGasUsed := mean_gas_used transactions in
  let averageGasPrice := mean_gas_price transactions in
  let mostUsedDEX :=
    match mostUsedDex transactions with
    | Some (name, _) => str_or name "Unknown"
    | None => "Unknown"
    end in
  let efficiencyScore :=
    calculateEfficiencyScore (gasSavingsPotential comparison)
      totalGasSpent (averageSlippageActual comparison) transactions in
  let routingAnalysis :=
    calculateRoutingAnalysis (detailedComparisons comparison) in
  let recommendations :=
    generateComprehensiveRecommendations transactions comparison
      efficiencyScore averageGasPrice totalVolumeUSD in
  let timestamps := map timestamp transactions in
  let potentialSavings := nMath_max (Fin 0) (gasSavingsPotential comparison) in
  let savingsPercentage :=
    if ngt totalGasSpent (Fin 0)
    then fmul (fdiv potentialSavings totalGasSpent) (Fin 100)
    else Fin 0 in
  {| report_success := true;
     report_wallet := walletAddress;
     reportGeneratedAt := generated;
     summary :=
       {| totalSwaps := List.length transactions;
          totalVolumeUSD := round2 totalVolumeUSD;
          averageGasUsed := averageGasUsed;
          mostUsedDEX := mostUsedDEX;
          efficiencyScore := nMath_round efficiencyScore |};
     gasAnalysis :=
       {| totalGasSpent := nMath_round totalGasSpent;
          averageGasPrice := nMath_round averageGasPrice;
          potentialSavings := nMath_round potentialSavings;
          savingsPercentage := round2 savingsPercentage |};
     routingAnalysis := routingAnalysis;
     report_recommendations := recommendations;
     timeRange :=
       {| from := min_time timestamps; to := max_time timestamps |} |}.

Section Tools.

Variable w : World.

(** One turn of [for (const tx of transactions)], for the transaction at
    [position]. *)
Definition compare_one (position : nat) (tx : SwapTransaction) (acc : Totals)
  : Async Totals :=
  try_catch
    (if negb (has_addresses tx) then ret acc
     else
       let amountInWei := from_amount tx * pow10_18 in
       quote <- getOneInchQuote w position
                  (from_token_address tx) (to_token_address tx)
                  amountInWei (from_token tx) (to_token tx) ;;
       let acc' := record_comparison tx quote acc in
       sleep 100 ;;;
       ret acc')
    (fun _ => ret acc).

Fixpoint compare_loop (position : nat) (transactions : list SwapTransaction)
    (acc : Totals) : Async Totals :=
  match transactions with
  | [] => ret acc
  | tx :: rest =>
      acc' <- compare_one position tx acc ;;
      compare_loop (S position) rest acc'
  end.

Definition compareWithOneInch (walletAddress : string) : Async ComparisonResult :=
  if invalid_format walletAddress then throw "Invalid wallet address format"
  else
    try_catch
      (transactions <- getDuneData w walletAddress 10 ;;
       match transactions with
       | [] => ret (empty_comparison walletAddress)
       | _ :: _ =>
           acc <- compare_loop 0 transactions Totals0 ;;
           ret (comparison_result walletAddress transactions acc)
       end)
      (fun message =>
         throw ("Failed to perform comparison analysis: " ^^ message)).

Fixpoint volume_loop (position : nat) (transactions : list SwapTransaction)
    (totalVolume : num) : Async num :=
  match transactions with
  | [] => ret totalVolume
  | tx :: rest =>
      totalVolume' <-
        try_catch
          (if ngt (number_or_zero (usd_value tx)) (Fin 0)
           then ret (fadd totalVolume (number_or_zero (usd_value tx)))
           else
             tokenPrice <- getTokenPrice w position (from_token tx) ;;
             if ngt (binary64 tokenPrice) (Fin 0)
             then ret (fadd totalVolume
                         (fmul (binary64 (from_amount tx)) (binary64 tokenPrice)))
             else ret totalVolume)
          (fun _ => ret totalVolume) ;;
      volume_loop (S position) rest totalVolume'
  end.

Definition calculateRealVolumeUSD (transactions : list SwapTransaction) : Async num :=
  volume_loop 0 transactions (Fin 0).

Definition generateSwapReport (walletAddress : string) : Async SwapReportData :=
  if invalid_format walletAddress then throw "Invalid wallet address format"
  else
    try_catch
      (both <- Promise_all (getUserTransactions w walletAddress 50)
                           (compareWithOneInch walletAddress) ;;
       let transactions := fst both in
       let comparison := snd both in
       match transactions with
       | [] =>
           generated <- new_Date w ;;
           range_from <- new_Date w ;;
           range_to <- new_Date w ;;
           ret (empty_report walletAddress generated range_from range_to)
       | _ :: _ =>
           totalVolumeUSD <- calculateRealVolumeUSD transactions ;;
           generated <- new_Date w ;;
           ret (report_of walletAddress transactions comparison
                          totalVolumeUSD generated)
       end)
      (fun message => throw ("Failed to generate swap report: " ^^ message)).

End Tools.

End Binary64.

(* ===================================================================== *)
(** ** Vocabulary of the statements *)
(* ===================================================================== *)

(** The state after one more event. *)
Definition after (s : St) (e : Event) : St :=
  {| trace := trace s ++ [e]; draws := draws s; ticks := ticks s |}.

(** The quote obtained for the transaction at a position of the batch, when
    the call succeeds. *)
Definition quote_of (w : World) (position : nat) (tx : SwapTransaction)
  : option OneInchQuote :=
  match fst (getOneInchQuote w position
               (from_token_address tx) (to_token_address tx)
               (from_amount tx * pow10_18) (from_token tx) (to_token tx) St0) with
  | Ok quote => Some quote
  | Throw _ => None
  end.

(** The transactions of a batch that get compared, each with its quote:
    those with both token addresses whose quote call succeeds. *)
Definition compared_here (w : World) (position : nat) (tx : SwapTransaction)
  : list (SwapTransaction * OneInchQuote) :=
  if has_addresses tx then
    match quote_of w position tx with
    | Some quote => [(tx, quote)]
    | None => []
    end
  else [].

Fixpoint compared (w : World) (position : nat) (transactions : list SwapTransaction)
  : list (SwapTransaction * OneInchQuote) :=
  match transactions with
  | [] => []
  | tx :: rest => compared_here w position tx ++ compared w (S position) rest
  end.

(** The number of transactions of a batch whose quote call fails. *)
Fixpoint failed_quotes (w : World) (position : nat) (transactions : list SwapTransaction)
  : nat :=
  match transactions with
  | [] => 0
  | tx :: rest =>
      (match quote_of w position tx with Some _ => 0 | None => 1 end
       + failed_quotes w (S position) rest)%nat
  end.

(** Gas cost paid and gas cost of the quoted route, for a compared pair. *)
Definition actualGas (p : SwapTransaction * OneInchQuote) : Q :=
  inject_Z (gas_used (fst p)) * gas_price (fst p).

Definition optimalGas (p : SwapTransaction * OneInchQuote) : Q :=
  inject_Z (estimatedGas (snd p)) * gas_price (fst p).

(** The running totals after a list of compared pairs. *)
Definition record_all (pairs : list (SwapTransaction * OneInchQuote)) (acc : Totals)
  : Totals :=
  fold_left (fun a p => record_comparison (fst p) (snd p) a) pairs acc.

(** The record pushed for a compared pair. *)
Definition record_of (p : SwapTransaction * OneInchQuote) : ComparisonRecord :=
  {| txHash := hash (fst p);
     actualRoute := dex (fst p);
     optimalRoute := first_protocol (snd p);
     gasDifference := actualGas p - optimalGas p;
     slippageDifference := opt_Q (slippage (fst p));
     actualAmountOut := to_amount (fst p);
     optimalAmountOut := toAmount (snd p) / pow10_18 |}.

(** A status answer that is neither completed nor failed. *)
Definition pending (r : ResultsResponse) : bool :=
  match r with
  | ResultsError _ => false
  | ResultsData state _ =>
      negb (String.eqb state QUERY_STATE_COMPLETED)
      && negb (String.eqb state QUERY_STATE_FAILED)
  end.

(** The events of [n] polling attempts: a two-second wait, then the request. *)
Fixpoint attempt_events (executionId : string) (n : nat) : list Event :=
  match n with
  | O => []
  | S k => Wait 2000 :: HttpGet (results_url executionId) :: attempt_events executionId k
  end.

(** The state after [n] polling attempts. *)
Definition polled (s : St) (executionId : string) (n : nat) : St :=
  {| trace := trace s ++ attempt_events executionId n;
     draws := draws s;
     ticks := ticks s |}.

(** The first element, in list order, among those of greatest key. *)
Fixpoint first_max {A} (key : A -> Z) (l : list A) : option A :=
  match l with
  | [] => None
  | x :: rest =>
      match first_max key rest with
      | None => Some x
      | Some m => if (key m <=? key x)%Z then Some x else Some m
      end
  end.

(** A transaction that passes the filter of transaction retrieval. *)
Definition complete (tx : SwapTransaction) : Prop :=
  hash tx <> "" /\ from_token tx <> "" /\ to_token tx <> ""
  /\ 0 < from_amount tx /\ 0 < to_amount tx /\ (0 < gas_used tx)%Z.

Definition same_time (t : Z) (tx : SwapTransaction) : bool := (timestamp tx =? t)%Z.

(** The number of transactions executed on a venue. *)
Definition venue_count (d : string) (transactions : list SwapTransaction) : nat :=
  count_occ string_dec (map dex transactions) d.

(** The distinct elements of a list, in the order of their first occurrence. *)
Fixpoint first_seen (l : list string) : list string :=
  match l with
  | [] => []
  | x :: rest => x :: filter (fun y => negb (String.eqb x y)) (first_seen rest)
  end.

(** The sort key of a tally entry: its count. *)
Definition by_count (entry : string * nat) : Z := Z.of_nat (snd entry).

Definition upgrade_advice : string :=
  "Consider upgrading to Uniswap V3 for better capital efficiency and lower slippage".


(** A tally built from a list of keys. *)
Definition tally (keys : list string) (acc : list (string * nat)) : list (string * nat) :=
  fold_left (fun acc k => bump k acc) keys acc.

Definition count_of (o : option nat) : nat :=
  match o with Some n => n | None => 0%nat end.

Definition absent (o : list (string * nat)) (k : string) : bool :=
  match lookup k o with Some _ => false | None => true end.

(** Two worlds that give the same upstream data: the same credential, the
    same answers of the three providers and the same clock readings.  Their
    random sources may differ. *)
Definition same_snapshot (w w' : World) : Prop :=
  DUNE_API_KEY w = DUNE_API_KEY w'
  /\ (forall k, Date_now w k = Date_now w' k)
  /\ (forall wallet limit, dune_execute w wallet limit = dune_execute w' wallet limit)
  /\ (forall executionId k, dune_results w executionId k = dune_results w' executionId k)
  /\ (forall position src dst amount,
        oneinch_quote w position src dst amount
        = oneinch_quote w' position src dst amount)
  /\ (forall position symbol,
        coingecko_price w position symbol = coingecko_price w' position symbol).

(** A transaction without its slippage estimate, a comparison record without
    the slippage it carries, a compared pair without the slippage of its
    transaction. *)
Definition forget (tx : SwapTransaction) : SwapTransaction :=
  {| hash := hash tx;
     timestamp := timestamp tx;
     from_token := from_token tx;
     to_token := to_token tx;
     from_token_address := from_token_address tx;
     to_token_address := to_token_address tx;
     from_amount := from_amount tx;
     to_amount := to_amount tx;
     gas_used := gas_used tx;
     gas_price := gas_price tx;
     dex := dex tx;
     usd_value := usd_value tx;
     slippage := None |}.

Definition forget_record (c : ComparisonRecord) : ComparisonRecord :=
  {| txHash := txHash c;
     actualRoute := actualRoute c;
     optimalRoute := optimalRoute c;
     gasDifference := gasDifference c;
     slippageDifference := 0;
     actualAmountOut := actualAmountOut c;
     optimalAmountOut := optimalAmountOut c |}.

Definition strip (p : SwapTransaction * OneInchQuote) : SwapTransaction * OneInchQuote :=
  (forget (fst p), snd p).

(** Two runs that end in the same state, with the same error or with
    transaction lists that differ in slippage estimates only. *)
Definition alike (r r' : Outcome (list SwapTransaction) * St) : Prop :=
  snd r = snd r'
  /\ match fst r, fst r' with
     | Ok l, Ok l' => map forget l = map forget l'
     | Throw e, Throw e' => e = e'
     | _, _ => False
     end.


(** The time spent waiting in a list of events, in milliseconds. *)
Definition total_wait (events : list Event) : Z :=
  fold_right (fun e sum => match e with Wait ms => (ms + sum)%Z | _ => sum end)
             0%Z events.

(** A random source that yields values of [[0, 1)], as [Math.random] does. *)
Definition fair_random (w : World) : Prop :=
  forall k, 0 <= Math_random w k /\ Math_random w k < 1.

(** A transaction whose slippage estimate is present, is a whole number of
    hundredths between 0 and 2, and is 0 when an amount is 0. *)
Definition estimated (tx : SwapTransaction) : Prop :=
  exists x n,
    slippage tx = Some x
    /\ x == inject_Z n / 100
    /\ (0 <= n <= 200)%Z
    /\ (from_amount tx == 0 \/ to_amount tx == 0 -> n = 0%Z).

(** A transaction whose hash, token symbols and venue are not empty. *)
Definition labelled (tx : SwapTransaction) : Prop :=
  hash tx <> "" /\ from_token tx <> "" /\ to_token tx <> "" /\ dex tx <> "".

(** Positive amounts and positive gas used. *)
Definition positive_figures (tx : SwapTransaction) : bool :=
  Qltb 0 (from_amount tx) && Qltb 0 (to_amount tx) && (0 <? gas_used tx)%Z.

Definition is_quote_request (e : Event) : bool :=
  match e with
  | HttpGet url => String.eqb url quote_url
  | _ => false
  end.

(** The 100 ms pause that follows a comparison. *)
Definition is_pause (e : Event) : bool :=
  match e with
  | Wait ms => Z.eqb ms 100
  | _ => false
  end.

(** The events of the comparison loop over a batch. *)
Fixpoint loop_events (w : World) (position : nat) (transactions : list SwapTransaction)
  : list Event :=
  match transactions with
  | [] => []
  | tx :: rest =>
      (if has_addresses tx then
         HttpGet quote_url
           :: match quote_of w position tx with
              | Some _ => [Wait 100]
              | None => []
              end
       else [])
      ++ loop_events w (S position) rest
  end.

(** [l] is obtained from [l'] by dropping elements. *)
Inductive subsequence {A : Type} : list A -> list A -> Prop :=
| sub_nil : subsequence [] []
| sub_keep (x : A) (l l' : list A) : subsequence l l' -> subsequence (x :: l) (x :: l')
| sub_skip (x : A) (l l' : list A) : subsequence l l' -> subsequence l (x :: l').

(** What a comparison record echoes of its transaction. *)
Definition echo_of_record (c : ComparisonRecord) : string * string * Q :=
  (txHash c, actualRoute c, actualAmountOut c).

Definition echo_of_transaction (tx : SwapTransaction) : string * string * Q :=
  (hash tx, dex tx, to_amount tx).


(** The three tool names the handler knows. *)
Definition known_tool (name : string) : bool :=
  String.eqb name "get_user_transactions"
  || String.eqb name "compare_with_1inch"
  || String.eqb name "generate_swap_report".

Definition rate_limit_message : string :=
  "1inch API rate limit exceeded. Please try again later.".


(** A JS number that is not [NaN], and one that is neither [NaN] nor below
    zero (an infinity included). *)
Definition is_number (a : num) : Prop := a <> NaN.

Definition not_below_zero (a : num) : Prop := nle (Fin 0) a = true.

Definition finite (a : num) : Prop := exists x, a = Fin x.

(** Gas cost paid and gas cost of the quoted route for a compared pair, as
    the loop of the comparison computes them in binary64. *)
Definition cost_paid (p : SwapTransaction * OneInchQuote) : num :=
  fmul (binary64 (inject_Z (gas_used (fst p)))) (binary64 (gas_price (fst p))).

Definition cost_quoted (p : SwapTransaction * OneInchQuote) : num :=
  fmul (binary64 (inject_Z (estimatedGas (snd p)))) (binary64 (gas_price (fst p))).

(** A total accumulated in code order: [total += f(p)] from 0. *)
Definition accumulate {A} (f : A -> num) (l : list A) : num :=
  fold_left (fun sum x => fadd sum (f x)) l (Fin 0).

(** The running totals of the binary64 loop after a list of compared pairs. *)
Definition totals_after (pairs : list (SwapTransaction * OneInchQuote))
    (acc : Binary64.Totals) : Binary64.Totals :=
  fold_left (fun a p => Binary64.record_comparison (fst p) (snd p) a) pairs acc.

(** The record the binary64 loop pushes for a compared pair. *)
Definition line_item (p : SwapTransaction * OneInchQuote) : Binary64.ComparisonRecord :=
  {| Binary64.txHash := hash (fst p);
     Binary64.actualRoute := dex (fst p);
     Binary64.optimalRoute := first_protocol (snd p);
     Binary64.gasDifference := fsub (cost_paid p) (cost_quoted p);
     Binary64.slippageDifference := Binary64.number_or_zero (slippage (fst p));
     Binary64.actualAmountOut := binary64 (to_amount (fst p));
     Binary64.optimalAmountOut := fdiv (binary64 (toAmount (snd p))) (Fin pow10_18) |}.

(** A comparison record whose gas difference is positive or [NaN]: one that
    fails the test [gasDifference <= 0]. *)
Definition not_optimal (c : Binary64.ComparisonRecord) : bool :=
  negb (nle (Binary64.gasDifference c) (Fin 0)).
(* ===================================================================== *)
(** ** Sample data *)
(* ===================================================================== *)

Definition well_formed_wallet : string := "0x1111111111111111111111111111111111111111".

Definition short_wallet : string := "0x12".

(** The transaction of the specification's example: gas used 100000 at gas
    price 50. *)
Definition example_row : DuneSwapRow :=
  {| tx_hash := Some "0xaa";
     block_time := Some 1000%Z;
     token_sold_symbol := Some "WETH";
     token_bought_symbol := Some "USDC";
     token_sold_address := Some "0xC02aaA39b223FE8D0A0e5C4F27eAD9083C756Cc2";
     token_bought_address := Some "0xA0b86a33E6417c4c4c4c4c4c4c4c4c4c4c4c4c4c";
     token_sold_amount := Some 1;
     token_bought_amount := Some 2000;
     amount_usd := Some 2000;
     row_gas_used := Some 100000%Z;
     row_gas_price := Some 50;
     project := Some "Uniswap V2" |}.

(** A quote that estimates 80000 gas. *)
Definition example_quote : QuoteData :=
  {| data_toAmount := Some (inject_Z (2000 * 10 ^ 18));
     data_toTokenAmount := None;
     data_estimatedGas := Some 80000%Z;
     data_gas := None;
     data_protocols := None |}.

(** A world whose history provider completes at the first poll with the given
    rows, whose quote provider answers by [quotes], and whose random source is
    [rnd]. *)
Definition world_of (rows : list DuneSwapRow) (quotes : nat -> QuoteResponse)
    (rnd : nat -> Q) : World :=
  {| DUNE_API_KEY := Some "key";
     Math_random := rnd;
     Date_now := fun _ => 5000%Z;
     dune_execute := fun _ _ => ExecuteData "e1";
     dune_results := fun _ _ => ResultsData QUERY_STATE_COMPLETED (Some rows);
     oneinch_quote := fun position _ _ _ => quotes position;
     coingecko_price := fun _ _ => PriceError |}.

Definition example_world : World :=
  world_of [example_row] (fun _ => QuoteOk example_quote) (fun _ => 0).

(** Five copies of the example transaction; the quote call of the third one
    fails. *)
Definition five_rows_world : World :=
  world_of [example_row; example_row; example_row; example_row; example_row]
           (fun position =>
              if Nat.eqb position 2 then QuoteError None "Request failed with status code 500"
              else QuoteOk example_quote)
           (fun _ => 0).

(** A row whose gas used is zero: transaction retrieval discards it. *)
Definition zero_gas_row : DuneSwapRow :=
  {| tx_hash := Some "0xbb";
     block_time := Some 2000%Z;
     token_sold_symbol := Some "WETH";
     token_bought_symbol := Some "USDC";
     token_sold_address := Some "0xC02aaA39b223FE8D0A0e5C4F27eAD9083C756Cc2";
     token_bought_address := Some "0xA0b86a33E6417c4c4c4c4c4c4c4c4c4c4c4c4c4c";
     token_sold_amount := Some 1;
     token_bought_amount := Some 2000;
     amount_usd := Some 2000;
     row_gas_used := Some 0%Z;
     row_gas_price := Some 50;
     project := Some "Uniswap V3" |}.

Definition zero_gas_world : World :=
  world_of [zero_gas_row] (fun _ => QuoteOk example_quote) (fun _ => 0).

(** A later valid row, on another venue. *)
Definition recent_row : DuneSwapRow :=
  {| tx_hash := Some "0xcc";
     block_time := Some 3000%Z;
     token_sold_symbol := Some "DAI";
     token_bought_symbol := Some "WETH";
     token_sold_address := Some "0x6B175474E89094C44Da98b954EedeAC495271d0F";
     token_bought_address := Some "0xC02aaA39b223FE8D0A0e5C4F27eAD9083C756Cc2";
     token_sold_amount := Some 3000;
     token_bought_amount := Some 1;
     amount_usd := Some 3000;
     row_gas_used := Some 120000%Z;
     row_gas_price := Some 40;
     project := Some "Uniswap V3" |}.

Definition mixed_world : World :=
  world_of [example_row; zero_gas_row; recent_row]
           (fun _ => QuoteOk example_quote) (fun _ => 0).


(** Two worlds with the same upstream data whose random sources differ. *)
Definition calm_world : World :=
  world_of [example_row] (fun _ => QuoteOk example_quote) (fun _ => 0).

Definition rough_world : World :=
  world_of [example_row] (fun _ => QuoteOk example_quote) (fun _ => 1 # 2).

(** A history provider that never leaves the executing state, and one that
    reports a failure at the third poll. *)
Definition stalled_world : World :=
  {| DUNE_API_KEY := Some "key";
     Math_random := fun _ => 0;
     Date_now := fun _ => 5000%Z;
     dune_execute := fun _ _ => ExecuteData "e1";
     dune_results := fun _ _ => ResultsData "QUERY_STATE_EXECUTING" None;
     oneinch_quote := fun _ _ _ _ => QuoteOk example_quote;
     coingecko_price := fun _ _ => PriceError |}.

Definition failing_world : World :=
  {| DUNE_API_KEY := Some "key";
     Math_random := fun _ => 0;
     Date_now := fun _ => 5000%Z;
     dune_execute := fun _ _ => ExecuteData "e1";
     dune_results :=
       fun _ attempts =>
         if Nat.eqb attempts 2 then ResultsData QUERY_STATE_FAILED None
         else ResultsData "QUERY_STATE_EXECUTING" None;
     oneinch_quote := fun _ _ _ _ => QuoteOk example_quote;
     coingecko_price := fun _ _ => PriceError |}.


(** A world without the credential of the history provider. *)
Definition keyless_world : World :=
  {| DUNE_API_KEY := None;
     Math_random := fun _ => 0;
     Date_now := fun _ => 5000%Z;
     dune_execute := fun _ _ => ExecuteData "e1";
     dune_results := fun _ _ => ResultsData QUERY_STATE_COMPLETED (Some [example_row]);
     oneinch_quote := fun _ _ _ _ => QuoteOk example_quote;
     coingecko_price := fun _ _ => PriceError |}.

(** The same wallet in mixed case and in lower case. *)
Definition mixed_case_wallet : string := "0xABCDEFabcdef1111111111111111111111111111".
Definition lower_case_wallet : string := "0xabcdefabcdef1111111111111111111111111111".

(** A world whose quote provider answers every request with status 429. *)
Definition throttled_world : World :=
  world_of [example_row]
           (fun _ => QuoteError (Some 429%Z) "Request failed with status code 429")
           (fun _ => 0).


(** The example row at a gas price of 2^1023, a number of binary64: its gas
    costs exceed the largest one. *)
Definition steep_row : DuneSwapRow :=
  {| tx_hash := Some "0xdd";
     block_time := Some 1000%Z;
     token_sold_symbol := Some "WETH";
     token_bought_symbol := Some "USDC";
     token_sold_address := Some "0xC02aaA39b223FE8D0A0e5C4F27eAD9083C756Cc2";
     token_bought_address := Some "0xA0b86a33E6417c4c4c4c4c4c4c4c4c4c4c4c4c4c";
     token_sold_amount := Some 1;
     token_bought_amount := Some 2000;
     amount_usd := Some 2000;
     row_gas_used := Some 100000%Z;
     row_gas_price := Some (inject_Z (2 ^ 1023));
     project := Some "Uniswap V2" |}.

Definition steep_world : World :=
  world_of [steep_row] (fun _ => QuoteOk example_quote) (fun _ => 0).








(** Three compared pairs with gas figures in wei: gas used, gas price and the
    gas of the quote. *)
Definition wei_pair (used : Z) (price : Q) (quoted : Z)
  : SwapTransaction * OneInchQuote :=
  ({| hash := "0xee";
      timestamp := 1000;
      from_token := "WETH";
      to_token := "USDC";
      from_token_address := "0xC02aaA39b223FE8D0A0e5C4F27eAD9083C756Cc2";
      to_token_address := "0xA0b86a33E6417c4c4c4c4c4c4c4c4c4c4c4c4c4c";
      from_amount := 1;
      to_amount := 2000;
      gas_used := used;
      gas_price := price;
      dex := "Uniswap V3";
      usd_value := Some 500;
      slippage := Some 0 |},
   {| toAmount := inject_Z (2000 * 10 ^ 18);
      estimatedGas := quoted;
      protocols := [];
      fromTokenAmount := pow10_18;
      toTokenAmount := inject_Z (2000 * 10 ^ 18) |}).

Definition wei_pairs : list (SwapTransaction * OneInchQuote) :=
  [ wei_pair 131076 34523832096 35862;
    wei_pair 225372 120652231581 22104;
    wei_pair 385816 124285970256 399294 ].
(* ===================================================================== *)
(** ** Basic facts: numbers *)
(* ===================================================================== *)

Lemma Qltb_lt (a b : Q) : Qltb a b = true <-> a < b.
Proof.
  unfold Qltb. rewrite negb_true_iff. split.
  - intros H. apply Qnot_le_lt. intros Hle.
    apply Qle_bool_iff in Hle. congruence.
  - intros H. destruct (Qle_bool b a) eqn:E; [|reflexivity].
    apply Qle_bool_iff in E. exfalso. apply (Qlt_not_le _ _ H E).
Qed.

Lemma Qltb_ge (a b : Q) : Qltb a b = false <-> b <= a.
Proof.
  unfold Qltb. rewrite negb_false_iff. apply Qle_bool_iff.
Qed.

Lemma Math_max_Qmax (a b : Q) : Math_max a b == Qmax a b.
Proof.
  unfold Math_max. destruct (Qltb a b) eqn:E.
  - apply Qltb_lt in E. symmetry. apply Q.max_r. apply Qlt_le_weak, E.
  - apply Qltb_ge in E. symmetry. apply Q.max_l. exact E.
Qed.

Lemma Math_max_lower (a b : Q) : a <= Math_max a b.
Proof.
  unfold Math_max. destruct (Qltb a b) eqn:E.
  - apply Qltb_lt in E. apply Qlt_le_weak, E.
  - apply Qle_refl.
Qed.

Lemma Q_of_nat_pos (n : nat) : (0 < n)%nat -> 0 < Q_of_nat n.
Proof.
  intros H. unfold Q_of_nat. change 0 with (inject_Z 0).
  rewrite <- Zlt_Qlt. lia.
Qed.

Lemma Qzero_false (a : Q) : ~ a == 0 -> Qzero a = false.
Proof.
  intros H. unfold Qzero. destruct (Qeq_bool a 0) eqn:E; [|reflexivity].
  apply Qeq_bool_iff in E. contradiction.
Qed.

Lemma ndiv_finite (a b : Q) : ~ b == 0 -> ndiv (Fin a) (Fin b) = Fin (a / b).
Proof.
  intros H. simpl. rewrite (Qzero_false b H). reflexivity.
Qed.

(* ===================================================================== *)
(** ** Basic facts: effects *)
(* ===================================================================== *)

Lemma bind_Ok {A B} (m : Async A) (k : A -> Async B) s b s' :
  bind m k s = (Ok b, s') ->
  exists a s1, m s = (Ok a, s1) /\ k a s1 = (Ok b, s').
Proof.
  unfold bind. destruct (m s) as [[a|e] s1]; intros H.
  - exists a, s1. split; [reflexivity|exact H].
  - discriminate.
Qed.

Lemma try_catch_rethrow_Ok {A} (body : Async A) (prefix : string) s a s' :
  try_catch body (fun message => throw (prefix ^^ message)) s = (Ok a, s') ->
  body s = (Ok a, s').
Proof.
  unfold try_catch, throw. destruct (body s) as [[x|e] s1]; intros H.
  - exact H.
  - discriminate.
Qed.

(** Validation failures of the three operations happen before any effect. *)
Lemma getUserTransactions_rejects (w : World) (walletAddress : string) (limit : Z) (s : St) :
  startsWith walletAddress "0x" = false \/ String.length walletAddress <> 42%nat ->
  exists message,
    getUserTransactions w walletAddress limit s = (Throw message, s)
    /\ (message = "Invalid wallet address format"
        \/ message = "Invalid wallet address length").
Proof.
  intros H. unfold getUserTransactions.
  destruct (invalid_format walletAddress) eqn:F.
  - eexists. split; [reflexivity|left; reflexivity].
  - destruct (Nat.eqb (String.length walletAddress) 42) eqn:L.
    + apply Nat.eqb_eq in L. unfold invalid_format in F.
      apply orb_false_iff in F. destruct F as [_ F].
      apply negb_false_iff in F.
      destruct H as [H|H]; [congruence|contradiction].
    + eexists. split; [reflexivity|right; reflexivity].
Qed.

Lemma compareWithOneInch_rejects (w : World) (walletAddress : string) (s : St) :
  startsWith walletAddress "0x" = false ->
  compareWithOneInch w walletAddress s = (Throw "Invalid wallet address format", s).
Proof.
  intros H. unfold compareWithOneInch, invalid_format. rewrite H.
  rewrite orb_true_r. reflexivity.
Qed.

Lemma generateSwapReport_rejects (w : World) (walletAddress : string) (s : St) :
  startsWith walletAddress "0x" = false ->
  generateSwapReport w walletAddress s = (Throw "Invalid wallet address format", s).
Proof.
  intros H. unfold generateSwapReport, invalid_format. rewrite H.
  rewrite orb_true_r. reflexivity.
Qed.

(* ===================================================================== *)
(** ** Wallet validation *)
(* ===================================================================== *)

(** C1. The wallet ["0x12"] is not a 42-character identifier.  Transaction
    retrieval rejects it with no effect at all, but the comparison engine
    accepts it, queries the history provider and the quote provider and
    returns a result; the report generator, which starts the comparison engine
    alongside transaction retrieval, fails with the length error of the
    latter only after the same network calls have been issued. *)
Theorem C1_short_wallet_reaches_the_network :
  String.length short_wallet = 4%nat
  /\ getUserTransactions example_world short_wallet 10 St0
     = (Throw "Invalid wallet address length", St0)
  /\ (exists r s,
        compareWithOneInch example_world short_wallet St0 = (Ok r, s)
        /\ totalTransactions r = 1%nat
        /\ network_calls s
           = [ HttpPost execute_url; HttpGet (results_url "e1"); HttpGet quote_url ])
  /\ (exists s,
        generateSwapReport example_world short_wallet St0
        = (Throw "Failed to generate swap report: Invalid wallet address length", s)
        /\ network_calls s
           = [ HttpPost execute_url; HttpGet (results_url "e1"); HttpGet quote_url ]).
Proof.
  split; [reflexivity|].
  split; [reflexivity|].
  split.
  - eexists. eexists. split; [vm_compute; reflexivity|].
    split; reflexivity.
  - eexists. split; [vm_compute; reflexivity|]. reflexivity.
Qed.

(* ===================================================================== *)
(** ** The comparison loop *)
(* ===================================================================== *)

(** The outcome of a quote call does not depend on the state it starts in. *)
Lemma getOneInchQuote_state w position a b amount fs ts s :
  getOneInchQuote w position a b amount fs ts s
  = (fst (getOneInchQuote w position a b amount fs ts St0), after s (HttpGet quote_url)).
Proof.
  unfold getOneInchQuote, bind, emit, throw, ret, after. simpl.
  repeat match goal with
         | |- context [match ?x with _ => _ end] => destruct x
         end; reflexivity.
Qed.

Lemma compare_one_spec w position tx acc s :
  exists s',
    compare_one w position tx acc s
    = (Ok (record_all (compared_here w position tx) acc), s')
    /\ draws s' = draws s /\ ticks s' = ticks s.
Proof.
  unfold compare_one, compared_here, quote_of, try_catch, bind.
  destruct (has_addresses tx); simpl.
  - rewrite getOneInchQuote_state.
    destruct (fst (getOneInchQuote w position _ _ _ _ _ St0)) as [quote|e]; simpl.
    + eexists. split; [reflexivity|]. split; reflexivity.
    + eexists. split; [reflexivity|]. split; reflexivity.
  - exists s. split; [reflexivity|]. split; reflexivity.
Qed.

Lemma record_all_app pairs1 pairs2 acc :
  record_all (pairs1 ++ pairs2) acc = record_all pairs2 (record_all pairs1 acc).
Proof. unfold record_all. apply fold_left_app. Qed.

Lemma compare_loop_spec w transactions :
  forall position acc s,
  exists s',
    compare_loop w position transactions acc s
    = (Ok (record_all (compared w position transactions) acc), s')
    /\ draws s' = draws s /\ ticks s' = ticks s.
Proof.
  induction transactions as [|tx rest IH]; intros position acc s.
  - exists s. split; [reflexivity|]. split; reflexivity.
  - simpl. unfold bind.
    destruct (compare_one_spec w position tx acc s) as [s1 [E1 [D1 T1]]].
    rewrite E1.
    destruct (IH (S position) (record_all (compared_here w position tx) acc) s1)
      as [s2 [E2 [D2 T2]]].
    exists s2. rewrite E2, record_all_app. split; [reflexivity|].
    split; congruence.
Qed.

Lemma record_all_actual pairs :
  forall acc,
    l_totalActualGas (record_all pairs acc)
    = fold_left (fun sum p => sum + actualGas p) pairs (l_totalActualGas acc).
Proof.
  induction pairs as [|p rest IH]; intros acc; [reflexivity|].
  simpl. rewrite IH. reflexivity.
Qed.

Lemma record_all_optimal pairs :
  forall acc,
    l_totalOptimalGas (record_all pairs acc)
    = fold_left (fun sum p => sum + optimalGas p) pairs (l_totalOptimalGas acc).
Proof.
  induction pairs as [|p rest IH]; intros acc; [reflexivity|].
  simpl. rewrite IH. reflexivity.
Qed.



Lemma record_all_records pairs :
  forall acc,
    l_detailedComparisons (record_all pairs acc)
    = l_detailedComparisons acc ++ map record_of pairs.
Proof.
  induction pairs as [|p rest IH]; intros acc; simpl.
  - symmetry. apply app_nil_r.
  - rewrite IH. simpl. rewrite <- app_assoc. reflexivity.
Qed.

(** What a successful comparison returns. *)
Lemma compareWithOneInch_Ok w walletAddress s r s' :
  compareWithOneInch w walletAddress s = (Ok r, s') ->
  invalid_format walletAddress = false
  /\ exists transactions s1,
       getDuneData w walletAddress 10 s = (Ok transactions, s1)
       /\ draws s' = draws s1 /\ ticks s' = ticks s1
       /\ r = match transactions with
              | [] => empty_comparison walletAddress
              | _ :: _ =>
                  comparison_result walletAddress transactions
                    (record_all (compared w 0 transactions) Totals0)
              end.
Proof.
  unfold compareWithOneInch. intros H.
  destruct (invalid_format walletAddress); [discriminate|].
  split; [reflexivity|].
  apply try_catch_rethrow_Ok in H.
  apply bind_Ok in H. destruct H as [transactions [s1 [E H]]].
  exists transactions, s1. split; [exact E|].
  destruct transactions as [|tx rest].
  - inversion H; subst. repeat split; reflexivity.
  - apply bind_Ok in H. destruct H as [acc [s2 [L H]]].
    destruct (compare_loop_spec w (tx :: rest) 0 Totals0 s1) as [s3 [L' [D T]]].
    rewrite L' in L. inversion L; subst. inversion H; subst.
    repeat split; assumption.
Qed.

(** A comparison succeeds as soon as the wallet has the prefix and the
    history client answers. *)
Lemma compareWithOneInch_total w walletAddress s transactions s1 :
  invalid_format walletAddress = false ->
  getDuneData w walletAddress 10 s = (Ok transactions, s1) ->
  exists r s', compareWithOneInch w walletAddress s = (Ok r, s').
Proof.
  intros F E. unfold compareWithOneInch. rewrite F.
  unfold try_catch, bind. rewrite E.
  destruct transactions as [|tx rest].
  - eexists. eexists. reflexivity.
  - destruct (compare_loop_spec w (tx :: rest) 0 Totals0 s1) as [s2 [L _]].
    rewrite L. eexists. eexists. reflexivity.
Qed.

Lemma compared_length w transactions :
  forall position,
    Forall (fun tx => has_addresses tx = true) transactions ->
    (List.length (compared w position transactions)
     + failed_quotes w position transactions)%nat
    = List.length transactions.
Proof.
  induction transactions as [|tx rest IH]; intros position HA; [reflexivity|].
  inversion HA as [|? ? Htx Hrest]; subst.
  simpl. rewrite length_app. unfold compared_here. rewrite Htx.
  specialize (IH (S position) Hrest).
  destruct (quote_of w position tx); simpl; lia.
Qed.

Lemma sum_Q_unfold {A} (f : A -> Q) (l : list A) :
  sum_Q f l = fold_left (fun sum x => sum + f x) l 0.
Proof. reflexivity. Qed.

(** C6. When the history client returns five transactions that all carry both
    token addresses and exactly one of the five quote calls fails, the
    comparison engine returns (it does not throw) and its result holds four
    detailed comparisons. *)
Theorem C6_one_failed_quote_of_five :
  forall w walletAddress s transactions s1,
    invalid_format walletAddress = false ->
    getDuneData w walletAddress 10 s = (Ok transactions, s1) ->
    List.length transactions = 5%nat ->
    Forall (fun tx => has_addresses tx = true) transactions ->
    failed_quotes w 0 transactions = 1%nat ->
    exists r s',
      compareWithOneInch w walletAddress s = (Ok r, s')
      /\ List.length (detailedComparisons r) = 4%nat.
Proof.
  intros w walletAddress s transactions s1 F E L HA HF.
  destruct (compareWithOneInch_total w walletAddress s transactions s1 F E)
    as [r [s' H]].
  exists r, s'. split; [exact H|].
  apply compareWithOneInch_Ok in H.
  destruct H as [_ [transactions' [s1' [E' [_ [_ R]]]]]].
  rewrite E in E'. inversion E'; subst transactions' s1'.
  pose proof (compared_length w transactions 0 HA) as HL.
  rewrite HF, L in HL.
  assert (R' : r = comparison_result walletAddress transactions
                     (record_all (compared w 0 transactions) Totals0))
    by (destruct transactions; [discriminate|exact R]).
  clear R. subst r. unfold comparison_result. cbn [detailedComparisons].
  rewrite record_all_records. cbn [l_detailedComparisons Totals0 app].
  rewrite length_map. lia.
Qed.

(** C6 at five copies of the example transaction, the third quote failing. *)
Lemma C6_witness :
  exists r s',
    compareWithOneInch five_rows_world well_formed_wallet St0 = (Ok r, s')
    /\ List.length (detailedComparisons r) = 4%nat.
Proof.
  destruct (getDuneData five_rows_world well_formed_wallet 10 St0)
    as [[transactions|e] s1] eqn:E; [|vm_compute in E; discriminate].
  apply (C6_one_failed_quote_of_five five_rows_world well_formed_wallet St0
           transactions s1).
  - reflexivity.
  - exact E.
  - vm_compute in E. inversion E. reflexivity.
  - vm_compute in E. inversion E. repeat constructor.
  - vm_compute in E. inversion E. vm_compute. reflexivity.
Defined.





(* ===================================================================== *)
(** ** The poll loop of the history client *)
(* ===================================================================== *)

Lemma calculateSlippage_trace w a b s :
  exists x s', calculateSlippage w a b s = (Ok x, s') /\ trace s' = trace s.
Proof.
  unfold calculateSlippage. destruct (Qzero a || Qzero b).
  - exists 0, s. split; reflexivity.
  - unfold bind, random, ret. simpl. eexists. eexists. split; reflexivity.
Qed.

(** Mapping a row never throws and makes no network call. *)
Lemma map_row_trace w row s :
  exists tx s', map_row w row s = (Ok tx, s') /\ trace s' = trace s.
Proof.
  unfold map_row, bind.
  destruct (block_time row) as [t|]; simpl.
  - destruct (calculateSlippage_trace w (opt_Q (token_sold_amount row))
               (opt_Q (token_bought_amount row)) s) as [x [s' [E T]]].
    rewrite E. eexists. eexists. split; [reflexivity|exact T].
  - match goal with
    | |- context [calculateSlippage w ?a ?b ?st] =>
        destruct (calculateSlippage_trace w a b st) as [x [s' [E T]]]
    end.
    rewrite E. eexists. eexists. split; [reflexivity|exact T].
Qed.

Lemma mapM_map_row_trace w rows :
  forall s,
  exists transactions s',
    mapM (map_row w) rows s = (Ok transactions, s')
    /\ trace s' = trace s
    /\ List.length transactions = List.length rows.
Proof.
  induction rows as [|row rest IH]; intros s.
  - exists [], s. repeat split; reflexivity.
  - simpl. unfold bind.
    destruct (map_row_trace w row s) as [tx [s1 [E1 T1]]]. rewrite E1.
    destruct (IH s1) as [txs [s2 [E2 [T2 L2]]]]. rewrite E2.
    exists (tx :: txs), s2. split; [reflexivity|].
    split; [congruence|simpl; congruence].
Qed.

Lemma polled_S s executionId n :
  polled (after (after s (Wait 2000)) (HttpGet (results_url executionId))) executionId n
  = polled s executionId (S n).
Proof.
  unfold polled, after. simpl. rewrite <- !app_assoc. reflexivity.
Qed.

Lemma polled_0 s executionId : polled s executionId 0 = s.
Proof.
  unfold polled. simpl. rewrite app_nil_r. destruct s; reflexivity.
Qed.

(** One iteration of the loop. *)
Lemma poll_step w executionId remaining s :
  poll w executionId (S remaining) s
  = let s2 := after (after s (Wait 2000)) (HttpGet (results_url executionId)) in
    match dune_results w executionId (maxAttempts - S remaining) with
    | ResultsError message => (Throw message, s2)
    | ResultsData state rows =>
        if String.eqb state QUERY_STATE_COMPLETED then
          mapM (map_row w) (match rows with Some r => r | None => [] end) s2
        else if String.eqb state QUERY_STATE_FAILED then
          (Throw "Dune query execution failed", s2)
        else poll w executionId remaining s2
    end.
Proof.
  cbn [poll]. unfold bind, sleep, emit, after, throw. cbn [trace draws ticks].
  destruct (dune_results w executionId (maxAttempts - S remaining)) as [message|state rows];
    [reflexivity|].
  destruct (String.eqb state QUERY_STATE_COMPLETED); [reflexivity|].
  destruct (String.eqb state QUERY_STATE_FAILED); reflexivity.
Qed.

(** The loop with [remaining] iterations left: it makes [n] attempts, the
    answers before the last one are pending, and the last answer decides. *)
Lemma poll_spec w executionId :
  forall remaining s,
    (0 < remaining <= maxAttempts)%nat ->
    exists n,
      (1 <= n <= remaining)%nat
      /\ (forall k, (k < n - 1)%nat ->
            pending (dune_results w executionId (maxAttempts - remaining + k)) = true)
      /\ match dune_results w executionId (maxAttempts - remaining + (n - 1)) with
         | ResultsError message =>
             poll w executionId remaining s = (Throw message, polled s executionId n)
         | ResultsData state rows =>
             if String.eqb state QUERY_STATE_COMPLETED then
               poll w executionId remaining s
               = mapM (map_row w) (match rows with Some r => r | None => [] end)
                      (polled s executionId n)
             else if String.eqb state QUERY_STATE_FAILED then
               poll w executionId remaining s
               = (Throw "Dune query execution failed", polled s executionId n)
             else
               n = remaining
               /\ poll w executionId remaining s
                  = (Throw "Dune query execution timeout", polled s executionId n)
         end.
Proof.
  induction remaining as [|remaining IH]; intros s Hr; [lia|].
  rewrite poll_step. cbv zeta.
  set (s2 := after (after s (Wait 2000)) (HttpGet (results_url executionId))).
  destruct (dune_results w executionId (maxAttempts - S remaining)) as [message|state rows] eqn:R.
  - exists 1%nat. split; [lia|]. split; [intros k Hk; lia|].
    change (1 - 1)%nat with 0%nat. rewrite Nat.add_0_r, R.
    unfold throw. unfold s2. rewrite <- (polled_0 _ executionId), polled_S. reflexivity.
  - destruct (String.eqb state QUERY_STATE_COMPLETED) eqn:C.
    + exists 1%nat. split; [lia|]. split; [intros k Hk; lia|].
      change (1 - 1)%nat with 0%nat. rewrite Nat.add_0_r, R, C.
      unfold s2. rewrite <- (polled_0 (after _ _) executionId), polled_S. reflexivity.
    + destruct (String.eqb state QUERY_STATE_FAILED) eqn:F.
      * exists 1%nat. split; [lia|]. split; [intros k Hk; lia|].
        change (1 - 1)%nat with 0%nat. rewrite Nat.add_0_r, R, C, F.
        unfold throw. unfold s2.
        rewrite <- (polled_0 (after _ _) executionId), polled_S. reflexivity.
      * destruct remaining as [|remaining'].
        -- exists 1%nat. split; [lia|]. split; [intros k Hk; lia|].
           change (1 - 1)%nat with 0%nat. rewrite Nat.add_0_r, R, C, F. split; [reflexivity|].
           cbn [poll]. unfold throw. unfold s2.
           rewrite <- (polled_0 (after _ _) executionId), polled_S. reflexivity.
        -- destruct (IH s2) as [n [Hn [Hpend Hlast]]]; [lia|].
           exists (S n). split; [lia|]. split.
           ++ intros k Hk. destruct k as [|k].
              ** rewrite Nat.add_0_r, R. simpl. rewrite C, F. reflexivity.
              ** replace (maxAttempts - S (S remaining') + S k)%nat
                   with (maxAttempts - S remaining' + k)%nat by lia.
                 apply Hpend. lia.
           ++ replace (maxAttempts - S (S remaining') + (S n - 1))%nat
                with (maxAttempts - S remaining' + (n - 1))%nat by lia.
              destruct (dune_results w executionId (maxAttempts - S remaining' + (n - 1)))
                as [message'|state' rows'].
              ** rewrite Hlast. unfold s2. rewrite polled_S. reflexivity.
              ** destruct (String.eqb state' QUERY_STATE_COMPLETED).
                 --- rewrite Hlast. unfold s2. rewrite polled_S. reflexivity.
                 --- destruct (String.eqb state' QUERY_STATE_FAILED).
                     +++ rewrite Hlast. unfold s2. rewrite polled_S. reflexivity.
                     +++ destruct Hlast as [Hn' Hlast]. split; [lia|].
                         rewrite Hlast. unfold s2. rewrite polled_S. reflexivity.
Qed.

(** C7. For every sequence of answers of the results endpoint the poll loop
    returns after [n] attempts with [1 <= n <= 30], each attempt being a
    two-second wait followed by one request.  The answers before the last one
    are neither completed nor failed, and the last answer decides: a
    transport error is thrown as it is, a completed status returns one mapped
    transaction per row, a failed status throws the execution error at once,
    and any other status means that all 30 attempts were used and throws the
    timeout error. *)
Theorem C7_poll_loop_bounded_and_decided :
  forall w executionId s,
  exists n,
    (1 <= n <= 30)%nat
    /\ trace (snd (poll w executionId maxAttempts s))
       = trace s ++ attempt_events executionId n
    /\ (forall k, (k < n - 1)%nat -> pending (dune_results w executionId k) = true)
    /\ match dune_results w executionId (n - 1) with
       | ResultsError message =>
           poll w executionId maxAttempts s = (Throw message, polled s executionId n)
       | ResultsData state rows =>
           if String.eqb state QUERY_STATE_COMPLETED then
             exists transactions s',
               poll w executionId maxAttempts s = (Ok transactions, s')
               /\ mapM (map_row w) (match rows with Some r => r | None => [] end)
                       (polled s executionId n)
                  = (Ok transactions, s')
               /\ List.length transactions
                  = List.length (match rows with Some r => r | None => [] end)
           else if String.eqb state QUERY_STATE_FAILED then
             poll w executionId maxAttempts s
             = (Throw "Dune query execution failed", polled s executionId n)
           else
             n = 30%nat
             /\ poll w executionId maxAttempts s
                = (Throw "Dune query execution timeout", polled s executionId 30)
       end.
Proof.
  intros w executionId s.
  destruct (poll_spec w executionId maxAttempts s) as [n [Hn [Hpend Hlast]]];
    [unfold maxAttempts; lia|].
  rewrite Nat.sub_diag in Hlast. simpl Nat.add in Hlast.
  exists n. split; [exact Hn|].
  assert (Hpend' : forall k, (k < n - 1)%nat ->
                     pending (dune_results w executionId k) = true).
  { intros k Hk. specialize (Hpend k Hk).
    rewrite Nat.sub_diag in Hpend. exact Hpend. }
  destruct (dune_results w executionId (n - 1)) as [message|state rows].
  - rewrite Hlast. split; [reflexivity|]. split; [exact Hpend'|reflexivity].
  - destruct (String.eqb state QUERY_STATE_COMPLETED).
    + destruct (mapM_map_row_trace w (match rows with Some r => r | None => [] end)
                  (polled s executionId n)) as [transactions [s' [E [T L]]]].
      rewrite Hlast, E. split; [exact T|]. split; [exact Hpend'|].
      exists transactions, s'. split; [reflexivity|]. split; [reflexivity|exact L].
    + destruct (String.eqb state QUERY_STATE_FAILED).
      * rewrite Hlast. split; [reflexivity|]. split; [exact Hpend'|reflexivity].
      * destruct Hlast as [Hn' Hlast]. rewrite Hlast. subst n.
        split; [reflexivity|]. split; [exact Hpend'|]. split; reflexivity.
Qed.

(** The history client wraps the two errors of the loop: a stalled execution
    costs the execute call and 30 polls, a failure at the third poll costs
    the execute call and 3 polls. *)
Example stalled_history_times_out :
  exists s,
    getDuneData stalled_world well_formed_wallet 10 St0
    = (Throw "Failed to fetch transaction data: Dune query execution timeout", s)
    /\ List.length (network_calls s) = 31%nat
    /\ List.length (filter (fun e => negb (is_network e)) (trace s)) = 30%nat.
Proof.
  eexists. split; [vm_compute; reflexivity|]. split; reflexivity.
Qed.

Example failed_history_stops_at_once :
  exists s,
    getDuneData failing_world well_formed_wallet 10 St0
    = (Throw "Failed to fetch transaction data: Dune query execution failed", s)
    /\ List.length (network_calls s) = 4%nat.
Proof.
  eexists. split; [vm_compute; reflexivity|]. reflexivity.
Qed.

(* ===================================================================== *)
(** ** The stable sort, by decreasing key *)
(* ===================================================================== *)

Section Descending.

Context {A : Type} (key : A -> Z).

Let cmp (a b : A) : Z := (key b - key a)%Z.

Lemma insert_by_perm (x : A) (l : list A) :
  Permutation (insert_by cmp x l) (x :: l).
Proof.
  induction l as [|y rest IH]; simpl.
  - apply Permutation_refl.
  - destruct (cmp x y <=? 0)%Z.
    + apply Permutation_refl.
    + apply perm_trans with (y :: x :: rest).
      * apply perm_skip, IH.
      * apply perm_swap.
Qed.

Lemma sort_by_perm (l : list A) : Permutation (sort_by cmp l) l.
Proof.
  induction l as [|x rest IH]; simpl.
  - apply Permutation_refl.
  - apply perm_trans with (x :: sort_by cmp rest).
    + apply insert_by_perm.
    + apply perm_skip, IH.
Qed.

Lemma insert_by_sorted (x : A) (l : list A) :
  StronglySorted (fun a b => (key b <= key a)%Z) l ->
  StronglySorted (fun a b => (key b <= key a)%Z) (insert_by cmp x l).
Proof.
  induction l as [|y rest IH]; intros S; simpl.
  - constructor; constructor.
  - inversion S as [|? ? Srest Hy]; subst.
    destruct (cmp x y <=? 0)%Z eqn:E; unfold cmp in E.
    + apply Z.leb_le in E. constructor; [exact S|].
      constructor; [lia|].
      rewrite Forall_forall in Hy |- *. intros z Hz.
      specialize (Hy z Hz). simpl in Hy. lia.
    + apply Z.leb_gt in E. constructor; [apply IH, Srest|].
      rewrite Forall_forall in Hy |- *. intros z Hz.
      apply (Permutation_in _ (insert_by_perm x rest)) in Hz.
      destruct Hz as [Hz|Hz]; [subst z; lia|apply Hy, Hz].
Qed.

Lemma sort_by_sorted (l : list A) :
  StronglySorted (fun a b => (key b <= key a)%Z) (sort_by cmp l).
Proof.
  induction l as [|x rest IH]; simpl.
  - constructor.
  - apply insert_by_sorted, IH.
Qed.

(** Stability: the elements of one key keep their order. *)
Lemma insert_by_stable (t : Z) (x : A) (l : list A) :
  filter (fun a => (key a =? t)%Z) (insert_by cmp x l)
  = filter (fun a => (key a =? t)%Z) (x :: l).
Proof.
  induction l as [|y rest IH]; [reflexivity|].
  simpl insert_by. destruct (cmp x y <=? 0)%Z eqn:E; [reflexivity|].
  unfold cmp in E. apply Z.leb_gt in E.
  simpl. simpl in IH. rewrite IH.
  destruct (key y =? t)%Z eqn:Ty; [|reflexivity].
  apply Z.eqb_eq in Ty.
  destruct (key x =? t)%Z eqn:Tx; [|reflexivity].
  apply Z.eqb_eq in Tx. lia.
Qed.

Lemma sort_by_stable (t : Z) (l : list A) :
  filter (fun a => (key a =? t)%Z) (sort_by cmp l)
  = filter (fun a => (key a =? t)%Z) l.
Proof.
  induction l as [|x rest IH]; [reflexivity|].
  simpl sort_by. rewrite insert_by_stable. simpl. rewrite IH. reflexivity.
Qed.

(** The head of the sorted list is the first element of greatest key. *)
Lemma sort_by_head (l : list A) : hd_error (sort_by cmp l) = first_max key l.
Proof.
  induction l as [|x rest IH]; [reflexivity|].
  simpl. rewrite <- IH.
  destruct (sort_by cmp rest) as [|y l']; [reflexivity|].
  simpl. unfold cmp.
  destruct (key y - key x <=? 0)%Z eqn:E.
  - apply Z.leb_le in E.
    destruct (key y <=? key x)%Z eqn:E'; [reflexivity|].
    apply Z.leb_gt in E'. lia.
  - apply Z.leb_gt in E.
    destruct (key y <=? key x)%Z eqn:E'; [|reflexivity].
    apply Z.leb_le in E'. lia.
Qed.

Lemma first_max_spec (l : list A) (m : A) :
  first_max key l = Some m ->
  exists before after,
    l = before ++ m :: after
    /\ (forall x, In x before -> (key x < key m)%Z)
    /\ (forall x, In x after -> (key x <= key m)%Z).
Proof.
  revert m. induction l as [|x rest IH]; intros m H; [discriminate|].
  simpl in H. destruct (first_max key rest) as [m'|] eqn:F.
  - destruct (IH m' eq_refl) as [before [after [E [Hb Ha]]]].
    destruct (key m' <=? key x)%Z eqn:C; inversion H; subst m.
    + apply Z.leb_le in C. exists [], rest. split; [reflexivity|].
      split; [intros y []|].
      intros y Hy. rewrite E in Hy. apply in_app_or in Hy.
      destruct Hy as [Hy|[Hy|Hy]].
      * specialize (Hb y Hy). lia.
      * subst y. exact C.
      * specialize (Ha y Hy). lia.
    + apply Z.leb_gt in C. exists (x :: before), after.
      split; [rewrite E; reflexivity|].
      split; [|exact Ha].
      intros y [Hy|Hy]; [subst y; exact C|apply Hb, Hy].
  - inversion H; subst m. destruct rest as [|y rest'].
    + exists [], []. split; [reflexivity|]. split; intros y [].
    + simpl in F. destruct (first_max key rest'); [destruct (key a <=? key y)%Z|];
        discriminate.
Qed.

End Descending.

(* ===================================================================== *)
(** ** Transaction retrieval *)
(* ===================================================================== *)

Lemma truthy_nonempty (s : string) : truthy s = true -> s <> "".
Proof.
  unfold truthy. rewrite negb_true_iff. intros H E. subst s. discriminate.
Qed.

Lemma valid_transaction_complete (tx : SwapTransaction) :
  valid_transaction tx = true -> complete tx.
Proof.
  unfold valid_transaction, complete. intros H.
  repeat (apply andb_true_iff in H; destruct H as [H ?]).
  repeat split.
  - apply truthy_nonempty; assumption.
  - apply truthy_nonempty; assumption.
  - apply truthy_nonempty; assumption.
  - apply Qltb_lt; assumption.
  - apply Qltb_lt; assumption.
  - apply Z.ltb_lt; assumption.
Qed.

(** What a successful retrieval returns. *)
Lemma getUserTransactions_Ok w walletAddress limit s transactions s' :
  getUserTransactions w walletAddress limit s = (Ok transactions, s') ->
  invalid_format walletAddress = false
  /\ String.length walletAddress = 42%nat
  /\ exists provided,
       getDuneData w walletAddress limit s = (Ok provided, s')
       /\ transactions = sort_by by_recency (filter valid_transaction provided).
Proof.
  unfold getUserTransactions. intros H.
  destruct (invalid_format walletAddress); [discriminate|].
  destruct (Nat.eqb (String.length walletAddress) 42) eqn:L; [|discriminate].
  apply Nat.eqb_eq in L. split; [reflexivity|]. split; [exact L|].
  apply try_catch_rethrow_Ok in H.
  apply bind_Ok in H. destruct H as [provided [s1 [E H]]].
  inversion H; subst. exists provided. split; [exact E|reflexivity].
Qed.

Lemma getUserTransactions_complete w walletAddress limit s transactions s' :
  getUserTransactions w walletAddress limit s = (Ok transactions, s') ->
  Forall complete transactions.
Proof.
  intros H. apply getUserTransactions_Ok in H.
  destruct H as [_ [_ [provided [E R]]]]. subst transactions.
  rewrite Forall_forall. intros tx Htx.
  apply (Permutation_in _ (sort_by_perm timestamp _)) in Htx.
  apply filter_In in Htx. apply valid_transaction_complete, Htx.
Qed.

(** C5. Every transaction that transaction retrieval returns has a hash, both
    token symbols, positive amounts and positive gas used; the output is
    sorted by non-increasing time stamp; and it is the filtered provider
    sequence rearranged so that the transactions of one time stamp keep their
    provider order. *)
Theorem C5_retrieval_filters_and_sorts_stably :
  forall w walletAddress limit s transactions s',
    getUserTransactions w walletAddress limit s = (Ok transactions, s') ->
    Forall complete transactions
    /\ StronglySorted (fun a b => (timestamp b <= timestamp a)%Z) transactions
    /\ exists provided,
         getDuneData w walletAddress limit s = (Ok provided, s')
         /\ Permutation transactions (filter valid_transaction provided)
         /\ forall t,
              filter (same_time t) transactions
              = filter (same_time t) (filter valid_transaction provided).
Proof.
  intros w walletAddress limit s transactions s' H.
  pose proof (getUserTransactions_complete _ _ _ _ _ _ H) as HC.
  apply getUserTransactions_Ok in H.
  destruct H as [_ [_ [provided [E R]]]]. subst transactions.
  split; [|split].
  - exact HC.
  - apply (sort_by_sorted timestamp).
  - exists provided. split; [exact E|]. split.
    + apply (sort_by_perm timestamp).
    + intros t. apply (sort_by_stable timestamp).
Qed.

(** C5 at a history of an older valid row, a zero-gas row and a recent valid
    row: the zero-gas row is dropped and the recent row comes first. *)
Lemma C5_witness :
  exists transactions s',
    getUserTransactions mixed_world well_formed_wallet 10 St0 = (Ok transactions, s')
    /\ map hash transactions = ["0xcc"; "0xaa"]
    /\ Forall complete transactions
    /\ StronglySorted (fun a b => (timestamp b <= timestamp a)%Z) transactions.
Proof.
  destruct (getUserTransactions mixed_world well_formed_wallet 10 St0)
    as [[transactions|e] s'] eqn:E; [|vm_compute in E; discriminate].
  exists transactions, s'. split; [reflexivity|].
  destruct (C5_retrieval_filters_and_sorts_stably mixed_world well_formed_wallet
              10 St0 transactions s' E) as [HF [HS _]].
  split; [|split; assumption].
  vm_compute in E. inversion E. reflexivity.
Defined.

(* ===================================================================== *)
(** ** The report generator *)
(* ===================================================================== *)

Lemma Promise_all_Ok {A B} (p1 : Async A) (p2 : Async B) s a b s' :
  Promise_all p1 p2 s = (Ok (a, b), s') ->
  exists s1, p1 s = (Ok a, s1) /\ p2 s1 = (Ok b, s').
Proof.
  unfold Promise_all. destruct (p1 s) as [[x|e] s1] eqn:E1.
  - destruct (p2 s1) as [[y|e] s2] eqn:E2; intros H; [|discriminate].
    inversion H; subst. exists s1. split; [reflexivity|exact E2].
  - destruct (p2 s1) as [r2 s2]. intros H. discriminate.
Qed.

(** What a successful report is made of. *)
Lemma generateSwapReport_Ok w walletAddress s r s' :
  generateSwapReport w walletAddress s = (Ok r, s') ->
  exists transactions s1 comparison s2,
    getUserTransactions w walletAddress 50 s = (Ok transactions, s1)
    /\ compareWithOneInch w walletAddress s1 = (Ok comparison, s2)
    /\ ((transactions = []
         /\ exists generated range_from range_to,
              r = empty_report walletAddress generated range_from range_to)
        \/ (transactions <> []
            /\ exists totalVolumeUSD s3 generated,
                 calculateRealVolumeUSD w transactions s2 = (Ok totalVolumeUSD, s3)
                 /\ r = report_of walletAddress transactions comparison
                                  totalVolumeUSD generated)).
Proof.
  unfold generateSwapReport. intros H.
  destruct (invalid_format walletAddress); [discriminate|].
  apply try_catch_rethrow_Ok in H.
  apply bind_Ok in H. destruct H as [[transactions comparison] [s2 [P H]]].
  apply Promise_all_Ok in P. destruct P as [s1 [E1 E2]].
  exists transactions, s1, comparison, s2.
  split; [exact E1|]. split; [exact E2|].
  cbn [fst snd] in H. destruct transactions as [|tx rest].
  - left. split; [reflexivity|].
    apply bind_Ok in H. destruct H as [g [s3 [_ H]]].
    apply bind_Ok in H. destruct H as [f [s4 [_ H]]].
    apply bind_Ok in H. destruct H as [t [s5 [_ H]]].
    inversion H; subst. exists g, f, t. reflexivity.
  - right. split; [discriminate|].
    apply bind_Ok in H. destruct H as [v [s3 [V H]]].
    apply bind_Ok in H. destruct H as [g [s4 [_ H]]].
    inversion H; subst. exists v, s3, g. split; [exact V|reflexivity].
Qed.

Lemma sum_Z_lower {A} (f : A -> Z) (l : list A) :
  forall acc,
    Forall (fun x => (0 < f x)%Z) l ->
    (acc + Z.of_nat (List.length l)
     <= fold_left (fun sum x => (sum + f x)%Z) l acc)%Z.
Proof.
  induction l as [|x rest IH]; intros acc H.
  - simpl. lia.
  - inversion H as [|? ? Hx Hrest]; subst.
    cbn [fold_left List.length]. specialize (IH (acc + f x)%Z Hrest). lia.
Qed.

(** The gas used by a non-empty list of complete transactions is positive. *)
Lemma total_gas_used_positive (transactions : list SwapTransaction) :
  transactions <> [] ->
  Forall complete transactions ->
  (0 < total_gas_used transactions)%Z.
Proof.
  intros Hne Hc. unfold total_gas_used, sum_Z.
  assert (Hpos : Forall (fun tx => (0 < gas_used tx)%Z) transactions).
  { rewrite Forall_forall in Hc |- *. intros tx Htx. apply Hc, Htx. }
  pose proof (sum_Z_lower gas_used transactions 0%Z Hpos) as H.
  destruct transactions as [|tx rest]; [contradiction|].
  cbn [List.length] in H. lia.
Qed.

Lemma inject_Z_nonzero (z : Z) : z <> 0%Z -> ~ inject_Z z == 0.
Proof.
  intros H E. unfold Qeq in E. simpl in E. lia.
Qed.

Lemma mean_gas_price_finite (transactions : list SwapTransaction) :
  (0 < total_gas_used transactions)%Z ->
  mean_gas_price transactions
  = Fin (total_gas_spent transactions / inject_Z (total_gas_used transactions)).
Proof.
  intros H. unfold mean_gas_price. apply ndiv_finite.
  apply inject_Z_nonzero. lia.
Qed.

(* ===================================================================== *)
(** ** The efficiency score *)
(* ===================================================================== *)


(** [Math.max(0, Math.min(100, x))] of a finite number. *)
Lemma clamp_finite (x : Q) :
  exists q, nMath_max (Fin 0) (nMath_min (Fin 100) (Fin x)) = Fin q /\ 0 <= q <= 100.
Proof.
  cbn [nMath_min nlt]. destruct (Qltb x 100) eqn:E.
  - cbn [nMath_max nlt]. apply Qltb_lt in E.
    destruct (Qltb 0 x) eqn:E0.
    + apply Qltb_lt in E0. exists x. split; [reflexivity|]. lra.
    + exists 0. split; [reflexivity|]. lra.
  - cbn [nMath_max nlt]. exists 100. split; [reflexivity|]. lra.
Qed.

Lemma slippage_penalty_finite (a : Q) :
  exists p, nMath_min (nmul (Fin a) (Fin 10)) (Fin 30) = Fin p.
Proof.
  cbn [nmul nMath_min nlt]. destruct (Qltb 30 (a * 10)); eexists; reflexivity.
Qed.

(** The score of a non-empty transaction list and a finite mean slippage. *)
Lemma calculateEfficiencyScore_clamped
    (gasSavingsPotential totalGasSpent averageSlippage : Q)
    (transactions : list SwapTransaction) :
  transactions <> [] ->
  exists q,
    calculateEfficiencyScore gasSavingsPotential totalGasSpent
      (Fin averageSlippage) transactions = Fin q
    /\ 0 <= q <= 100.
Proof.
  intros Hne. unfold calculateEfficiencyScore.
  assert (Hgas : exists x,
            (if Qltb 0 totalGasSpent
             then nsub (Fin 100)
                    (nmul (ndiv (Fin gasSavingsPotential) (Fin totalGasSpent)) (Fin 50))
             else Fin 100) = Fin x).
  { destruct (Qltb 0 totalGasSpent) eqn:E.
    - apply Qltb_lt in E. rewrite ndiv_finite by lra. eexists. reflexivity.
    - eexists. reflexivity. }
  destruct Hgas as [x1 ->].
  destruct (slippage_penalty_finite averageSlippage) as [p ->].
  rewrite ndiv_finite.
  - cbn [nsub nneg nadd nmul].
    destruct ((uniqueDexes transactions <=? 3)%nat
              && (5 <? List.length transactions)%nat);
      cbn [nadd]; apply clamp_finite.
  - destruct transactions as [|tx rest]; [contradiction|].
    intros E. pose proof (Q_of_nat_pos (List.length (tx :: rest))) as H.
    cbn [List.length] in H. cbn [List.length] in E.
    specialize (H (Nat.lt_0_succ _)). rewrite E in H. apply (Qlt_irrefl 0 H).
Qed.

Lemma average_slippage_finite (acc : Totals) :
  exists a, average_slippage acc = Fin a.
Proof.
  unfold average_slippage. destruct (0 <? l_validComparisons acc)%nat eqn:E.
  - apply Nat.ltb_lt in E. rewrite ndiv_finite; [eexists; reflexivity|].
    intros Z. pose proof (Q_of_nat_pos _ E) as H. rewrite Z in H.
    apply (Qlt_irrefl 0 H).
  - eexists. reflexivity.
Qed.

Lemma round2_finite (x : Q) : exists y, round2 (Fin x) = Fin y.
Proof. unfold round2. cbn. eexists. reflexivity. Qed.

(** The mean slippage of a comparison result is a finite number. *)
Lemma comparison_slippage_finite w walletAddress s r s' :
  compareWithOneInch w walletAddress s = (Ok r, s') ->
  exists a, averageSlippageActual r = Fin a.
Proof.
  intros H. apply compareWithOneInch_Ok in H.
  destruct H as [_ [transactions [s1 [_ [_ [_ R]]]]]].
  destruct transactions as [|tx rest]; subst r.
  - exists 0. reflexivity.
  - cbn [averageSlippageActual comparison_result].
    destruct (average_slippage_finite
                (record_all (compared w 0 (tx :: rest)) Totals0)) as [a ->].
    apply round2_finite.
Qed.

(** On an empty list the quotient of the outdated-venue rule is [0 / 0]; the
    report generator returns before it gets there. *)
Example calculateEfficiencyScore_empty :
  calculateEfficiencyScore 0 0 (Fin 0) [] = NaN.
Proof. reflexivity. Qed.

(* ===================================================================== *)
(** ** The venue tally *)
(* ===================================================================== *)

Lemma dexUsage_tally (transactions : list SwapTransaction) :
  dexUsage transactions = tally (map dex transactions) [].
Proof.
  unfold dexUsage, tally. generalize (@nil (string * nat)).
  induction transactions as [|tx rest IH]; intros acc; [reflexivity|].
  simpl. apply IH.
Qed.

Lemma lookup_bump (d k : string) (o : list (string * nat)) :
  lookup d (bump k o)
  = if String.eqb k d then Some (S (count_of (lookup k o))) else lookup d o.
Proof.
  induction o as [|[k' v] rest IH]; simpl.
  - destruct (String.eqb k d); reflexivity.
  - destruct (String.eqb k' k) eqn:E; simpl.
    + apply String.eqb_eq in E. subst k'.
      destruct (String.eqb k d); reflexivity.
    + rewrite IH. destruct (String.eqb k d) eqn:E'.
      * apply String.eqb_eq in E'. subst d. rewrite E. reflexivity.
      * reflexivity.
Qed.

Lemma lookup_tally (keys : list string) :
  forall acc d,
    lookup d (tally keys acc)
    = match count_occ string_dec keys d with
      | O => lookup d acc
      | S c => Some (S c + count_of (lookup d acc))%nat
      end.
Proof.
  induction keys as [|k rest IH]; intros acc d; [reflexivity|].
  change (tally (k :: rest) acc) with (tally rest (bump k acc)).
  rewrite IH, lookup_bump. simpl count_occ.
  destruct (string_dec k d) as [E|E].
  - subst k. rewrite String.eqb_refl.
    destruct (count_occ string_dec rest d); simpl; f_equal; lia.
  - apply String.eqb_neq in E. rewrite E. reflexivity.
Qed.

Lemma keys_bump (k : string) (o : list (string * nat)) :
  map fst (bump k o) = if absent o k then map fst o ++ [k] else map fst o.
Proof.
  unfold absent. induction o as [|[k' v] rest IH]; [reflexivity|].
  simpl. destruct (String.eqb k' k) eqn:E; simpl.
  - reflexivity.
  - rewrite IH. destruct (lookup k rest); reflexivity.
Qed.

Lemma absent_bump (k y : string) (o : list (string * nat)) :
  absent (bump k o) y = negb (String.eqb k y) && absent o y.
Proof.
  unfold absent. rewrite lookup_bump. destruct (String.eqb k y); reflexivity.
Qed.

Lemma keys_tally (keys : list string) :
  forall acc,
    map fst (tally keys acc) = map fst acc ++ filter (absent acc) (first_seen keys).
Proof.
  induction keys as [|k rest IH]; intros acc.
  - simpl. symmetry. apply app_nil_r.
  - change (tally (k :: rest) acc) with (tally rest (bump k acc)).
    rewrite IH, keys_bump. cbn [first_seen filter].
    assert (F : filter (absent (bump k acc)) (first_seen rest)
                = filter (absent acc)
                    (filter (fun y => negb (String.eqb k y)) (first_seen rest))).
    { generalize (first_seen rest) as l. induction l as [|y l IHl]; [reflexivity|].
      simpl. rewrite absent_bump.
      destruct (String.eqb k y); simpl; rewrite IHl; reflexivity. }
    rewrite F. destruct (absent acc k).
    + rewrite <- app_assoc. reflexivity.
    + reflexivity.
Qed.

Lemma filter_all {A} (l : list A) : filter (fun _ => true) l = l.
Proof. induction l as [|x rest IH]; simpl; congruence. Qed.

(** The tally lists the venues in the order in which they are first met. *)
Lemma dexUsage_keys (transactions : list SwapTransaction) :
  map fst (dexUsage transactions) = first_seen (map dex transactions).
Proof.
  rewrite dexUsage_tally, keys_tally. simpl. apply filter_all.
Qed.

Lemma first_seen_In (l : list string) (x : string) :
  In x (first_seen l) -> In x l.
Proof.
  induction l as [|y rest IH]; [intros []|].
  simpl. intros [H|H]; [left; exact H|].
  apply filter_In in H. right. apply IH, H.
Qed.

Lemma first_seen_NoDup (l : list string) : NoDup (first_seen l).
Proof.
  induction l as [|y rest IH]; simpl; constructor.
  - intros H. apply filter_In in H. destruct H as [_ H].
    rewrite String.eqb_refl in H. discriminate.
  - apply NoDup_filter, IH.
Qed.

Lemma lookup_In (o : list (string * nat)) (d : string) (n : nat) :
  NoDup (map fst o) -> In (d, n) o -> lookup d o = Some n.
Proof.
  induction o as [|[k v] rest IH]; intros ND H; [contradiction|].
  simpl in ND. inversion ND as [|? ? Hk Hrest]; subst.
  simpl. destruct H as [H|H].
  - inversion H; subst. rewrite String.eqb_refl. reflexivity.
  - destruct (String.eqb k d) eqn:E.
    + apply String.eqb_eq in E. subst k. exfalso. apply Hk.
      apply (in_map fst) in H. exact H.
    + apply IH; assumption.
Qed.

Lemma In_lookup (o : list (string * nat)) (d : string) (n : nat) :
  lookup d o = Some n -> In (d, n) o.
Proof.
  induction o as [|[k v] rest IH]; [discriminate|].
  simpl. destruct (String.eqb k d) eqn:E.
  - apply String.eqb_eq in E. subst k. intros H. inversion H. left. reflexivity.
  - intros H. right. apply IH, H.
Qed.

(** The entries of the tally: every venue met, with its number of
    transactions. *)
Lemma dexUsage_entries (transactions : list SwapTransaction) (d : string) (n : nat) :
  In (d, n) (dexUsage transactions)
  <-> (In d (map dex transactions) /\ n = venue_count d transactions).
Proof.
  assert (L : lookup d (dexUsage transactions)
              = match venue_count d transactions with
                | O => None
                | S c => Some (S c)
                end).
  { rewrite dexUsage_tally, lookup_tally. unfold venue_count.
    destruct (count_occ string_dec (map dex transactions) d); [reflexivity|].
    simpl. f_equal. lia. }
  split.
  - intros H. apply lookup_In in H.
    + rewrite L in H. unfold venue_count in *.
      destruct (count_occ string_dec (map dex transactions) d) eqn:C; [discriminate|].
      inversion H. split; [|reflexivity].
      apply (count_occ_In string_dec). lia.
    + rewrite dexUsage_keys. apply first_seen_NoDup.
  - intros [Hin Hn]. apply In_lookup. rewrite L. subst n.
    apply (count_occ_In string_dec) in Hin. unfold venue_count.
    destruct (count_occ string_dec (map dex transactions) d); [lia|reflexivity].
Qed.

(** The venue chosen: the first entry of the tally among those of greatest
    count. *)
Lemma mostUsedDex_first_max (transactions : list SwapTransaction) :
  mostUsedDex transactions = first_max by_count (dexUsage transactions).
Proof.
  unfold mostUsedDex. apply (sort_by_head by_count).
Qed.




(* ===================================================================== *)
(** ** The recommendation list *)
(* ===================================================================== *)


(* ===================================================================== *)
(** ** Two runs on the same upstream data *)
(* ===================================================================== *)

Section SameSnapshot.

Variables w w' : World.
Hypothesis snapshot : same_snapshot w w'.

Lemma calculateSlippage_alike a b s :
  exists x x' s1,
    calculateSlippage w a b s = (Ok x, s1)
    /\ calculateSlippage w' a b s = (Ok x', s1).
Proof.
  unfold calculateSlippage. destruct (Qzero a || Qzero b).
  - exists 0, 0, s. split; reflexivity.
  - unfold bind, random, ret. simpl. eexists. eexists. eexists.
    split; reflexivity.
Qed.

Lemma map_row_alike row s :
  exists tx tx' s1,
    map_row w row s = (Ok tx, s1)
    /\ map_row w' row s = (Ok tx', s1)
    /\ forget tx = forget tx'.
Proof.
  destruct snapshot as [_ [Hclock _]].
  unfold map_row, bind.
  destruct (block_time row) as [t|]; simpl.
  - destruct (calculateSlippage_alike (opt_Q (token_sold_amount row))
               (opt_Q (token_bought_amount row)) s) as [x [x' [s1 [E E']]]].
    rewrite E, E'. eexists. eexists. eexists.
    split; [reflexivity|]. split; reflexivity.
  - rewrite <- Hclock.
    match goal with
    | |- context [calculateSlippage w ?a ?b ?st] =>
        destruct (calculateSlippage_alike a b st) as [x [x' [s1 [E E']]]]
    end.
    rewrite E, E'. eexists. eexists. eexists.
    split; [reflexivity|]. split; reflexivity.
Qed.

Lemma mapM_map_row_alike rows :
  forall s, alike (mapM (map_row w) rows s) (mapM (map_row w') rows s).
Proof.
  induction rows as [|row rest IH]; intros s.
  - split; reflexivity.
  - simpl. unfold bind.
    destruct (map_row_alike row s) as [tx [tx' [s1 [E [E' F]]]]].
    rewrite E, E'. specialize (IH s1). unfold alike in IH.
    destruct (mapM (map_row w) rest s1) as [[l|e] s2];
      destruct (mapM (map_row w') rest s1) as [[l'|e'] s2'];
      simpl in IH; destruct IH as [Hs Hl]; try contradiction.
    + subst s2'. split; [reflexivity|]. simpl. rewrite F, Hl. reflexivity.
    + subst s2' e'. split; reflexivity.
Qed.

Lemma poll_alike executionId :
  forall remaining s,
    alike (poll w executionId remaining s) (poll w' executionId remaining s).
Proof.
  destruct snapshot as [_ [_ [_ [Hres _]]]].
  induction remaining as [|remaining IH]; intros s.
  - split; reflexivity.
  - rewrite !poll_step. cbv zeta. rewrite <- Hres.
    destruct (dune_results w executionId (maxAttempts - S remaining))
      as [message|state rows].
    + split; reflexivity.
    + destruct (String.eqb state QUERY_STATE_COMPLETED);
        [apply mapM_map_row_alike|].
      destruct (String.eqb state QUERY_STATE_FAILED); [split; reflexivity|].
      apply IH.
Qed.

Lemma alike_rethrow (prefix : string) (body body' : Async (list SwapTransaction)) s :
  alike (body s) (body' s) ->
  alike (try_catch body (fun message => throw (prefix ^^ message)) s)
        (try_catch body' (fun message => throw (prefix ^^ message)) s).
Proof.
  unfold alike, try_catch, throw.
  destruct (body s) as [[l|e] s1]; destruct (body' s) as [[l'|e'] s1'];
    simpl; intros [Hs H]; try contradiction; subst; split; reflexivity || assumption.
Qed.

Lemma getDuneData_alike walletAddress limit s :
  alike (getDuneData w walletAddress limit s) (getDuneData w' walletAddress limit s).
Proof.
  destruct snapshot as [Hkey [_ [Hexec _]]].
  unfold getDuneData. apply alike_rethrow. rewrite <- Hkey.
  destruct (DUNE_API_KEY w) as [apiKey|]; [|split; reflexivity].
  destruct (truthy apiKey); [|split; reflexivity].
  unfold bind, emit. rewrite <- Hexec.
  destruct (dune_execute w (toLowerCase walletAddress) limit) as [message|executionId].
  - split; reflexivity.
  - apply poll_alike.
Qed.

End SameSnapshot.

(* ===================================================================== *)
(** ** What does not depend on the slippage estimates *)
(* ===================================================================== *)

Lemma filter_map_comm {A B} (p : B -> bool) (g : A -> B) (l : list A) :
  filter p (map g l) = map g (filter (fun x => p (g x)) l).
Proof.
  induction l as [|x rest IH]; [reflexivity|].
  simpl. destruct (p (g x)); simpl; rewrite IH; reflexivity.
Qed.

Lemma insert_by_map {A} (cmp : A -> A -> Z) (g : A -> A) (x : A) (l : list A) :
  (forall a b, cmp (g a) (g b) = cmp a b) ->
  insert_by cmp (g x) (map g l) = map g (insert_by cmp x l).
Proof.
  intros H. induction l as [|y rest IH]; [reflexivity|].
  simpl. rewrite H. destruct (cmp x y <=? 0)%Z; [reflexivity|].
  simpl. rewrite IH. reflexivity.
Qed.

Lemma sort_by_map {A} (cmp : A -> A -> Z) (g : A -> A) (l : list A) :
  (forall a b, cmp (g a) (g b) = cmp a b) ->
  sort_by cmp (map g l) = map g (sort_by cmp l).
Proof.
  intros H. induction l as [|x rest IH]; [reflexivity|].
  simpl. rewrite IH. apply insert_by_map, H.
Qed.

Lemma fold_left_of_map {A B C} (f : C -> B -> C) (g : A -> B) (l : list A) :
  forall acc, fold_left f (map g l) acc = fold_left (fun c x => f c (g x)) l acc.
Proof.
  induction l as [|x rest IH]; intros acc; [reflexivity|]. simpl. apply IH.
Qed.

(** Quantities of a transaction list that ignore the slippage estimates. *)
Lemma retrieval_forget (l : list SwapTransaction) :
  map forget (sort_by by_recency (filter valid_transaction l))
  = sort_by by_recency (filter valid_transaction (map forget l)).
Proof.
  rewrite filter_map_comm.
  rewrite (sort_by_map by_recency forget) by reflexivity.
  reflexivity.
Qed.

Lemma total_gas_spent_forget (l : list SwapTransaction) :
  total_gas_spent (map forget l) = total_gas_spent l.
Proof. unfold total_gas_spent, sum_Q. rewrite fold_left_of_map. reflexivity. Qed.

Lemma total_gas_used_forget (l : list SwapTransaction) :
  total_gas_used (map forget l) = total_gas_used l.
Proof. unfold total_gas_used, sum_Z. rewrite fold_left_of_map. reflexivity. Qed.

Lemma dexUsage_forget (l : list SwapTransaction) :
  dexUsage (map forget l) = dexUsage l.
Proof. unfold dexUsage. rewrite fold_left_of_map. reflexivity. Qed.

Lemma mostUsedDex_forget (l : list SwapTransaction) :
  mostUsedDex (map forget l) = mostUsedDex l.
Proof. unfold mostUsedDex. rewrite dexUsage_forget. reflexivity. Qed.

Lemma mean_gas_used_forget (l : list SwapTransaction) :
  mean_gas_used (map forget l) = mean_gas_used l.
Proof.
  unfold mean_gas_used. rewrite total_gas_used_forget, length_map. reflexivity.
Qed.

Lemma mean_gas_price_forget (l : list SwapTransaction) :
  mean_gas_price (map forget l) = mean_gas_price l.
Proof.
  unfold mean_gas_price. rewrite total_gas_used_forget, total_gas_spent_forget.
  reflexivity.
Qed.

(** The routing analysis ignores the slippage carried by the records. *)
Lemma calculateRoutingAnalysis_forget (l : list ComparisonRecord) :
  calculateRoutingAnalysis (map forget_record l) = calculateRoutingAnalysis l.
Proof.
  destruct l as [|c rest]; [reflexivity|].
  unfold calculateRoutingAnalysis.
  change (map forget_record (c :: rest))
    with (forget_record c :: map forget_record rest).
  cbv iota. rewrite <- !(map_cons forget_record).
  rewrite !filter_map_comm, !length_map. reflexivity.
Qed.

Lemma sum_Q_strip (f : SwapTransaction * OneInchQuote -> Q)
    (pairs pairs' : list (SwapTransaction * OneInchQuote)) :
  (forall p, f (strip p) = f p) ->
  map strip pairs = map strip pairs' ->
  sum_Q f pairs = sum_Q f pairs'.
Proof.
  intros Hf H.
  assert (E : forall l, sum_Q f (map strip l) = sum_Q f l).
  { intros l. unfold sum_Q. rewrite fold_left_of_map.
    generalize 0. induction l as [|p rest IH]; intros acc; [reflexivity|].
    simpl. rewrite Hf. apply IH. }
  rewrite <- (E pairs), <- (E pairs'), H. reflexivity.
Qed.

Lemma records_strip (pairs pairs' : list (SwapTransaction * OneInchQuote)) :
  map strip pairs = map strip pairs' ->
  map forget_record (map record_of pairs) = map forget_record (map record_of pairs').
Proof.
  intros H.
  assert (E : forall l,
            map forget_record (map record_of l)
            = map (fun p => forget_record (record_of p)) (map strip l)).
  { intros l. rewrite !map_map. reflexivity. }
  rewrite !E, H. reflexivity.
Qed.

Section SameSnapshotReport.

Variables w w' : World.
Hypothesis snapshot : same_snapshot w w'.

Lemma getUserTransactions_alike walletAddress limit s :
  alike (getUserTransactions w walletAddress limit s)
        (getUserTransactions w' walletAddress limit s).
Proof.
  unfold getUserTransactions.
  destruct (invalid_format walletAddress); [split; reflexivity|].
  destruct (negb (Nat.eqb (String.length walletAddress) 42)); [split; reflexivity|].
  apply alike_rethrow. unfold bind, ret.
  pose proof (getDuneData_alike w w' snapshot walletAddress limit s) as H.
  unfold alike in H.
  destruct (getDuneData w walletAddress limit s) as [[l|e] s1];
    destruct (getDuneData w' walletAddress limit s) as [[l'|e'] s1'];
    simpl in H; destruct H as [Hs H]; try contradiction; subst s1'.
  - split; [reflexivity|]. simpl. rewrite !retrieval_forget, H. reflexivity.
  - subst e'. split; reflexivity.
Qed.

Lemma quote_of_alike position tx tx' :
  forget tx = forget tx' -> quote_of w position tx = quote_of w' position tx'.
Proof.
  destruct snapshot as [_ [_ [_ [_ [Hquote _]]]]].
  intros H. unfold quote_of, getOneInchQuote, bind, emit.
  rewrite (f_equal from_token_address H : from_token_address tx = from_token_address tx').
  rewrite (f_equal to_token_address H : to_token_address tx = to_token_address tx').
  rewrite (f_equal from_token H : from_token tx = from_token tx').
  rewrite (f_equal to_token H : to_token tx = to_token tx').
  rewrite (f_equal from_amount H : from_amount tx = from_amount tx').
  rewrite <- Hquote. reflexivity.
Qed.

Lemma compared_alike transactions :
  forall transactions' position,
    map forget transactions = map forget transactions' ->
    map strip (compared w position transactions)
    = map strip (compared w' position transactions').
Proof.
  induction transactions as [|tx rest IH]; intros [|tx' rest'] position H;
    try discriminate; [reflexivity|].
  simpl in H.
  assert (Htx : forget tx = forget tx') by congruence.
  assert (Hrest : map forget rest = map forget rest') by congruence.
  simpl. rewrite !map_app. rewrite (IH rest' (S position) Hrest). f_equal.
  unfold compared_here, has_addresses.
  rewrite (f_equal from_token_address Htx : from_token_address tx = from_token_address tx').
  rewrite (f_equal to_token_address Htx : to_token_address tx = to_token_address tx').
  rewrite (quote_of_alike position tx tx' Htx).
  destruct (truthy (from_token_address tx') && truthy (to_token_address tx'));
    [|reflexivity].
  destruct (quote_of w' position tx'); [|reflexivity].
  simpl. unfold strip. simpl. rewrite Htx. reflexivity.
Qed.

(** Two comparisons on the same upstream data agree on everything but the
    slippage figures and the recommendations drawn from them. *)
Lemma compareWithOneInch_alike walletAddress s r s1 r' s1' :
  compareWithOneInch w walletAddress s = (Ok r, s1) ->
  compareWithOneInch w' walletAddress s = (Ok r', s1') ->
  totalTransactions r = totalTransactions r'
  /\ totalActualGas r = totalActualGas r'
  /\ totalOptimalGas r = totalOptimalGas r'
  /\ gasSavingsPotential r = gasSavingsPotential r'
  /\ map forget_record (detailedComparisons r)
     = map forget_record (detailedComparisons r').
Proof.
  intros H H'.
  apply compareWithOneInch_Ok in H. apply compareWithOneInch_Ok in H'.
  destruct H as [_ [l [s2 [E [_ [_ R]]]]]].
  destruct H' as [_ [l' [s2' [E' [_ [_ R']]]]]].
  pose proof (getDuneData_alike w w' snapshot walletAddress 10 s) as A.
  unfold alike in A. rewrite E, E' in A. simpl in A. destruct A as [_ A].
  pose proof (compared_alike l l' 0 A) as P.
  assert (HA : sum_Q actualGas (compared w 0 l) = sum_Q actualGas (compared w' 0 l'))
    by (apply sum_Q_strip; [reflexivity|exact P]).
  assert (HO : sum_Q optimalGas (compared w 0 l) = sum_Q optimalGas (compared w' 0 l'))
    by (apply sum_Q_strip; [reflexivity|exact P]).
  destruct l as [|tx rest]; destruct l' as [|tx' rest']; try discriminate.
  - subst r r'. repeat split; reflexivity.
  - subst r r'. unfold comparison_result.
    cbn [totalTransactions totalActualGas totalOptimalGas gasSavingsPotential
         detailedComparisons].
    rewrite !record_all_actual, !record_all_optimal, !record_all_records.
    cbn [l_totalActualGas l_totalOptimalGas l_detailedComparisons Totals0 app].
    rewrite <- !sum_Q_unfold. rewrite HA, HO.
    split; [rewrite <- (length_map forget (tx :: rest)), A, length_map; reflexivity|].
    split; [reflexivity|]. split; [reflexivity|]. split; [reflexivity|].
    apply records_strip, P.
Qed.

Lemma getTokenPrice_alike position symbol s s' :
  exists price s1 s1',
    getTokenPrice w position symbol s = (Ok price, s1)
    /\ getTokenPrice w' position symbol s' = (Ok price, s1').
Proof.
  destruct snapshot as [_ [_ [_ [_ [_ Hprice]]]]].
  unfold getTokenPrice, bind, emit, ret. rewrite <- Hprice.
  destruct (coingecko_price w position symbol);
    eexists; eexists; eexists; split; reflexivity.
Qed.

Lemma volume_loop_alike transactions :
  forall transactions' position totalVolume s s',
    map forget transactions = map forget transactions' ->
    exists volume s1 s1',
      volume_loop w position transactions totalVolume s = (Ok volume, s1)
      /\ volume_loop w' position transactions' totalVolume s' = (Ok volume, s1').
Proof.
  induction transactions as [|tx rest IH];
    intros [|tx' rest'] position totalVolume s s' H; try discriminate.
  - exists totalVolume, s, s'. split; reflexivity.
  - simpl in H.
    assert (Htx : forget tx = forget tx') by congruence.
    assert (Hrest : map forget rest = map forget rest') by congruence.
    cbn [volume_loop]. unfold bind at 1 3. unfold try_catch.
    rewrite <- (f_equal usd_value Htx : usd_value tx = usd_value tx').
    rewrite <- (f_equal from_token Htx : from_token tx = from_token tx').
    rewrite <- (f_equal from_amount Htx : from_amount tx = from_amount tx').
    destruct (getTokenPrice_alike position (from_token tx) s s')
      as [price [s1 [s1' [P P']]]].
    destruct (usd_value tx) as [v|].
    + destruct (Qltb 0 v).
      * unfold ret. apply IH, Hrest.
      * unfold bind. rewrite P, P'.
        destruct (Qltb 0 price); unfold ret; apply IH, Hrest.
    + unfold bind. rewrite P, P'.
      destruct (Qltb 0 price); unfold ret; apply IH, Hrest.
Qed.

End SameSnapshotReport.

(** C2 as stated fails: two worlds give the same upstream data -- one
    transaction, the same quote -- and the two reports differ in the
    efficiency score of their summary block, because the slippage of a
    transaction is drawn from the random source (0 in one run, 0.5 in the
    other, hence an estimated slippage of 0 and of 1 percent). *)
Lemma C2_counterexample :
  same_snapshot calm_world rough_world
  /\ exists r s r' s',
       generateSwapReport calm_world well_formed_wallet St0 = (Ok r, s)
       /\ generateSwapReport rough_world well_formed_wallet St0 = (Ok r', s')
       /\ efficiencyScore (summary r) = Fin 90
       /\ efficiencyScore (summary r') = Fin 80
       /\ summary r <> summary r'.
Proof.
  split; [repeat split|].
  eexists. eexists. eexists. eexists.
  split; [vm_compute; reflexivity|].
  split; [vm_compute; reflexivity|].
  split; [reflexivity|]. split; [reflexivity|].
  intros H. apply (f_equal efficiencyScore) in H. discriminate H.
Qed.

(** C2, amended. Two invocations of [generateSwapReport] on the same upstream
    data (the same credential, provider answers and clock readings), started
    in the same state, produce the same gas-analysis block, the same
    routing-analysis block and summary blocks that agree on the number of
    swaps, the volume, the mean gas used and the most-used venue, whatever
    the random draws.  The efficiency score of the summary is not determined
    by the upstream data: it depends on the slippage estimates, which are
    drawn from the random source. *)
Theorem C2_report_blocks_up_to_random_slippage :
  forall w w' walletAddress s r s1 r' s1',
    same_snapshot w w' ->
    generateSwapReport w walletAddress s = (Ok r, s1) ->
    generateSwapReport w' walletAddress s = (Ok r', s1') ->
    gasAnalysis r = gasAnalysis r'
    /\ routingAnalysis r = routingAnalysis r'
    /\ totalSwaps (summary r) = totalSwaps (summary r')
    /\ totalVolumeUSD (summary r) = totalVolumeUSD (summary r')
    /\ averageGasUsed (summary r) = averageGasUsed (summary r')
    /\ mostUsedDEX (summary r) = mostUsedDEX (summary r').
Proof.
  intros w w' walletAddress s r s1 r' s1' snapshot H H'.
  apply generateSwapReport_Ok in H. apply generateSwapReport_Ok in H'.
  destruct H as [l [s2 [c [s3 [E [C R]]]]]].
  destruct H' as [l' [s2' [c' [s3' [E' [C' R']]]]]].
  pose proof (getUserTransactions_alike w w' snapshot walletAddress 50 s) as A.
  unfold alike in A. rewrite E, E' in A. simpl in A. destruct A as [Hs A].
  subst s2'.
  destruct (compareWithOneInch_alike w w' snapshot walletAddress s2 c s3 c' s3' C C')
    as [_ [_ [_ [HG HD]]]].
  destruct R as [[Hnil [g [f [t R]]]]|[Hne [v [s4 [g [V R]]]]]];
    destruct R' as [[Hnil' [g' [f' [t' R']]]]|[Hne' [v' [s4' [g' [V' R']]]]]];
    subst r r'.
  - repeat split; reflexivity.
  - subst l. destruct l'; [contradiction|discriminate].
  - subst l'. destruct l; [contradiction|discriminate].
  - destruct (volume_loop_alike w w' snapshot l l' 0 0 s3 s3' A)
      as [volume [s5 [s5' [W W']]]].
    unfold calculateRealVolumeUSD in V, V'. rewrite W in V. rewrite W' in V'.
    inversion V; inversion V'; subst v v'.
    unfold report_of.
    cbn [gasAnalysis routingAnalysis summary totalSwaps totalVolumeUSD
         averageGasUsed mostUsedDEX].
    rewrite <- (total_gas_spent_forget l), <- (total_gas_spent_forget l').
    rewrite <- (mean_gas_price_forget l), <- (mean_gas_price_forget l').
    rewrite <- (mean_gas_used_forget l), <- (mean_gas_used_forget l').
    rewrite <- (mostUsedDex_forget l), <- (mostUsedDex_forget l').
    rewrite <- (calculateRoutingAnalysis_forget (detailedComparisons c)).
    rewrite <- (calculateRoutingAnalysis_forget (detailedComparisons c')).
    rewrite <- (length_map forget l), <- (length_map forget l').
    rewrite A, HG, HD. repeat split; reflexivity.
Qed.

(** C2, amended, at the two worlds of the counterexample. *)
Lemma C2_witness :
  exists r s r' s',
    generateSwapReport calm_world well_formed_wallet St0 = (Ok r, s)
    /\ generateSwapReport rough_world well_formed_wallet St0 = (Ok r', s')
    /\ gasAnalysis r = gasAnalysis r'
    /\ routingAnalysis r = routingAnalysis r'.
Proof.
  destruct (generateSwapReport calm_world well_formed_wallet St0)
    as [[r|e] s] eqn:E; [|vm_compute in E; discriminate].
  destruct (generateSwapReport rough_world well_formed_wallet St0)
    as [[r'|e'] s'] eqn:E'; [|vm_compute in E'; discriminate].
  exists r, s, r', s'. split; [reflexivity|]. split; [reflexivity|].
  destruct (C2_report_blocks_up_to_random_slippage calm_world rough_world
              well_formed_wallet St0 r s r' s'
              ltac:(repeat split) E E') as [HG [HR _]].
  split; assumption.
Defined.

(* ===================================================================== *)
(** ** Further properties: the history client *)
(* ===================================================================== *)

Lemma rethrow_state {A} (body : Async A) (prefix : string) s :
  snd (try_catch body (fun message => throw (prefix ^^ message)) s) = snd (body s).
Proof.
  unfold try_catch, throw. destruct (body s) as [[a|e] s1]; reflexivity.
Qed.

Lemma rethrow_Throw {A} (body : Async A) (prefix : string) s e s' :
  body s = (Throw e, s') ->
  try_catch body (fun message => throw (prefix ^^ message)) s
  = (Throw (prefix ^^ e), s').
Proof. unfold try_catch, throw. intros ->. reflexivity. Qed.

Lemma getDuneData_without_key w walletAddress limit s :
  (DUNE_API_KEY w = None \/ DUNE_API_KEY w = Some "") ->
  getDuneData w walletAddress limit s
  = (Throw "Failed to fetch transaction data: DUNE_API_KEY not found in environment variables", s).
Proof.
  intros [H|H]; unfold getDuneData; rewrite H; reflexivity.
Qed.

Lemma getUserTransactions_without_key w walletAddress limit s :
  (DUNE_API_KEY w = None \/ DUNE_API_KEY w = Some "") ->
  exists e, getUserTransactions w walletAddress limit s = (Throw e, s).
Proof.
  intros H. unfold getUserTransactions.
  destruct (invalid_format walletAddress); [eexists; reflexivity|].
  destruct (negb (Nat.eqb (String.length walletAddress) 42)); [eexists; reflexivity|].
  eexists. apply rethrow_Throw. unfold bind.
  rewrite (getDuneData_without_key w walletAddress limit s H). reflexivity.
Qed.

Lemma compareWithOneInch_without_key w walletAddress s :
  (DUNE_API_KEY w = None \/ DUNE_API_KEY w = Some "") ->
  exists e, compareWithOneInch w walletAddress s = (Throw e, s).
Proof.
  intros H. unfold compareWithOneInch.
  destruct (invalid_format walletAddress); [eexists; reflexivity|].
  eexists. apply rethrow_Throw. unfold bind.
  rewrite (getDuneData_without_key w walletAddress 10 s H). reflexivity.
Qed.

Lemma generateSwapReport_without_key w walletAddress s :
  (DUNE_API_KEY w = None \/ DUNE_API_KEY w = Some "") ->
  exists e, generateSwapReport w walletAddress s = (Throw e, s).
Proof.
  intros H. unfold generateSwapReport.
  destruct (invalid_format walletAddress); [eexists; reflexivity|].
  destruct (getUserTransactions_without_key w walletAddress 50 s H) as [e1 E1].
  destruct (compareWithOneInch_without_key w walletAddress s H) as [e2 E2].
  eexists. apply rethrow_Throw. unfold bind, Promise_all.
  rewrite E1, E2. reflexivity.
Qed.

(** X1. Without the credential of the history provider (absent or empty) the
    history client throws its missing-key error before any request, and every
    tool call -- whatever the tool name and the arguments -- answers with a
    failure object and leaves no trace of a network call or a wait. *)
Theorem X1_missing_credential_stops_before_the_network :
  forall w name args s,
    (DUNE_API_KEY w = None \/ DUNE_API_KEY w = Some "") ->
    getDuneData w (arg_walletAddress args) (limit_or_default (arg_limit args)) s
    = (Throw "Failed to fetch transaction data: DUNE_API_KEY not found in environment variables", s)
    /\ exists e, callTool w name args s = (Ok (ErrorPayload e), s).
Proof.
  intros w name args s H. split; [apply getDuneData_without_key, H|].
  unfold callTool, try_catch, bind.
  destruct (String.eqb name "get_user_transactions").
  { destruct (getUserTransactions_without_key w (arg_walletAddress args)
                (limit_or_default (arg_limit args)) s H) as [e ->].
    exists e. reflexivity. }
  destruct (String.eqb name "compare_with_1inch").
  { destruct (compareWithOneInch_without_key w (arg_walletAddress args) s H) as [e ->].
    exists e. reflexivity. }
  destruct (String.eqb name "generate_swap_report").
  { destruct (generateSwapReport_without_key w (arg_walletAddress args) s H) as [e ->].
    exists e. reflexivity. }
  eexists. reflexivity.
Qed.

(** X1 at a report request in a world without the credential. *)
Lemma X1_witness :
  exists e,
    callTool keyless_world "generate_swap_report"
      {| arg_walletAddress := well_formed_wallet; arg_limit := None |} St0
    = (Ok (ErrorPayload e), St0).
Proof.
  apply (X1_missing_credential_stops_before_the_network keyless_world
           "generate_swap_report"
           {| arg_walletAddress := well_formed_wallet; arg_limit := None |} St0).
  left. reflexivity.
Defined.

Lemma attempt_events_network executionId n :
  List.length (filter is_network (attempt_events executionId n)) = n.
Proof. induction n as [|n IH]; simpl; congruence. Qed.

Lemma attempt_events_wait executionId n :
  total_wait (attempt_events executionId n) = (2000 * Z.of_nat n)%Z.
Proof.
  induction n as [|n IH]; [reflexivity|].
  cbn [attempt_events total_wait fold_right]. fold (total_wait (attempt_events executionId n)).
  rewrite IH. lia.
Qed.

(** The events of a complete run of the poll loop. *)
Lemma poll_trace w executionId s :
  exists n,
    (1 <= n <= maxAttempts)%nat
    /\ trace (snd (poll w executionId maxAttempts s))
       = trace s ++ attempt_events executionId n.
Proof.
  destruct (poll_spec w executionId maxAttempts s) as [n [Hn [_ Hlast]]];
    [unfold maxAttempts; lia|].
  exists n. split; [exact Hn|].
  destruct (dune_results w executionId (maxAttempts - maxAttempts + (n - 1)))
    as [message|state rows].
  - rewrite Hlast. reflexivity.
  - destruct (String.eqb state QUERY_STATE_COMPLETED).
    + rewrite Hlast.
      destruct (mapM_map_row_trace w (match rows with Some r => r | None => [] end)
                  (polled s executionId n)) as [transactions [s' [E [T _]]]].
      rewrite E. exact T.
    + destruct (String.eqb state QUERY_STATE_FAILED).
      * rewrite Hlast. reflexivity.
      * destruct Hlast as [_ Hlast]. rewrite Hlast. reflexivity.
Qed.

(** X2. Whatever the providers answer, one call of the history client adds to
    the trace at most 31 network calls (the execute request and at most 30
    polls) and waits 60 seconds at most. *)
Theorem X2_history_client_budget :
  forall w walletAddress limit s,
  exists added,
    trace (snd (getDuneData w walletAddress limit s)) = trace s ++ added
    /\ (List.length (filter is_network added) <= 31)%nat
    /\ (0 <= total_wait added <= 60000)%Z.
Proof.
  intros w walletAddress limit s. unfold getDuneData. rewrite rethrow_state.
  destruct (DUNE_API_KEY w) as [apiKey|];
    [|exists []; simpl; rewrite app_nil_r; repeat split; lia].
  destruct (truthy apiKey);
    [|exists []; simpl; rewrite app_nil_r; repeat split; lia].
  unfold bind, emit.
  destruct (dune_execute w (toLowerCase walletAddress) limit) as [message|executionId].
  - exists [HttpPost execute_url]. simpl. repeat split; lia.
  - match goal with
    | |- context [poll w executionId maxAttempts ?st] =>
        destruct (poll_trace w executionId st) as [n [Hn T]]
    end.
    exists (HttpPost execute_url :: attempt_events executionId n).
    rewrite T. cbn [trace]. rewrite <- app_assoc. split; [reflexivity|].
    cbn [filter is_network List.length total_wait fold_right].
    fold (total_wait (attempt_events executionId n)).
    rewrite attempt_events_network, attempt_events_wait.
    unfold maxAttempts in Hn. split; lia.
Qed.

Lemma lower_ascii_idempotent (c : ascii) : lower_ascii (lower_ascii c) = lower_ascii c.
Proof.
  destruct c as [[] [] [] [] [] [] [] []]; reflexivity.
Qed.

Lemma toLowerCase_length (s : string) : String.length (toLowerCase s) = String.length s.
Proof. induction s as [|c rest IH]; simpl; congruence. Qed.

Lemma toLowerCase_idempotent (s : string) : toLowerCase (toLowerCase s) = toLowerCase s.
Proof.
  induction s as [|c rest IH]; [reflexivity|].
  simpl. rewrite lower_ascii_idempotent, IH. reflexivity.
Qed.

(** X3. Transaction retrieval does not distinguish the letter case of a
    wallet: two identifiers with the '0x' prefix that are equal up to case
    give the same outcome, effects included (the provider is queried with the
    lower-cased identifier). *)
Theorem X3_retrieval_ignores_letter_case :
  forall w a b limit s,
    toLowerCase a = toLowerCase b ->
    startsWith a "0x" = true ->
    startsWith b "0x" = true ->
    getUserTransactions w a limit s = getUserTransactions w b limit s.
Proof.
  intros w a b limit s H Pa Pb.
  assert (L : String.length a = String.length b)
    by (rewrite <- (toLowerCase_length a), H; apply toLowerCase_length).
  assert (Fa : invalid_format a = false).
  { unfold invalid_format. rewrite Pa. destruct a; [discriminate|reflexivity]. }
  assert (Fb : invalid_format b = false).
  { unfold invalid_format. rewrite Pb. destruct b; [discriminate|reflexivity]. }
  unfold getUserTransactions, getDuneData. rewrite Fa, Fb, L, H. reflexivity.
Qed.

(** X3 at a wallet written in mixed case and in lower case. *)
Lemma X3_witness :
  getUserTransactions example_world mixed_case_wallet 10 St0
  = getUserTransactions example_world lower_case_wallet 10 St0.
Proof.
  apply X3_retrieval_ignores_letter_case; reflexivity.
Defined.

(* ===================================================================== *)
(** ** Further properties: the rows of the history client *)
(* ===================================================================== *)

Lemma poll_Ok_rows w executionId :
  forall remaining s transactions s',
    poll w executionId remaining s = (Ok transactions, s') ->
    exists rows s0, mapM (map_row w) rows s0 = (Ok transactions, s').
Proof.
  induction remaining as [|remaining IH]; intros s transactions s' H.
  - discriminate.
  - rewrite poll_step in H. cbv zeta in H.
    destruct (dune_results w executionId (maxAttempts - S remaining))
      as [message|state rows]; [discriminate|].
    destruct (String.eqb state QUERY_STATE_COMPLETED).
    + eexists. eexists. exact H.
    + destruct (String.eqb state QUERY_STATE_FAILED); [discriminate|].
      apply (IH _ _ _ H).
Qed.

(** A successful call of the history client returns mapped rows. *)
Lemma getDuneData_Ok_rows w walletAddress limit s transactions s' :
  getDuneData w walletAddress limit s = (Ok transactions, s') ->
  exists rows s0, mapM (map_row w) rows s0 = (Ok transactions, s').
Proof.
  unfold getDuneData. intros H. apply try_catch_rethrow_Ok in H.
  destruct (DUNE_API_KEY w) as [apiKey|]; [|discriminate].
  destruct (truthy apiKey); [|discriminate].
  apply bind_Ok in H. destruct H as [[] [s1 [_ H]]].
  destruct (dune_execute w (toLowerCase walletAddress) limit)
    as [message|executionId]; [discriminate|].
  apply (poll_Ok_rows _ _ _ _ _ _ H).
Qed.

Lemma mapM_Forall {A B} (f : A -> Async B) (P : B -> Prop) :
  (forall x s y s', f x s = (Ok y, s') -> P y) ->
  forall l s ys s', mapM f l s = (Ok ys, s') -> Forall P ys.
Proof.
  intros Hf. induction l as [|x rest IH]; intros s ys s' H.
  - inversion H. constructor.
  - simpl in H. apply bind_Ok in H. destruct H as [y [s1 [E H]]].
    apply bind_Ok in H. destruct H as [ys' [s2 [E' H]]].
    inversion H; subst. constructor; [apply (Hf _ _ _ _ E)|apply (IH _ _ _ E')].
Qed.

Lemma Math_round_integer (x : Q) (lo hi : Z) :
  inject_Z lo <= x <= inject_Z hi ->
  exists n, Math_round x = inject_Z n /\ (lo <= n <= hi)%Z.
Proof.
  intros [H0 H1]. unfold Math_round. exists (Qfloor (x + (1 # 2))).
  split; [reflexivity|]. split.
  - rewrite <- (Qfloor_Z lo). apply Qfloor_resp_le.
    apply Qle_trans with x; [exact H0|].
    rewrite <- (Qplus_0_r x) at 1. apply Qplus_le_r. discriminate.
  - apply Z.lt_succ_r. rewrite Zlt_Qlt.
    apply Qle_lt_trans with (x + (1 # 2)); [apply Qfloor_le|].
    unfold Z.succ. rewrite inject_Z_plus.
    apply Qle_lt_trans with (inject_Z hi + (1 # 2)).
    + apply Qplus_le_l. exact H1.
    + apply Qplus_lt_r. reflexivity.
Qed.

Lemma Qzero_iff (a : Q) : Qzero a = true <-> a == 0.
Proof. unfold Qzero. apply Qeq_bool_iff. Qed.

Lemma calculateSlippage_estimate w a b s x s' :
  fair_random w ->
  calculateSlippage w a b s = (Ok x, s') ->
  exists n,
    x == inject_Z n / 100
    /\ (0 <= n <= 200)%Z
    /\ (a == 0 \/ b == 0 -> n = 0%Z).
Proof.
  intros Hr. unfold calculateSlippage.
  destruct (Qzero a || Qzero b) eqn:Z.
  - intros H. inversion H. exists 0%Z.
    split; [reflexivity|]. split; [lia|]. intros _. reflexivity.
  - unfold bind, random, ret. intros H. inversion H; subst. clear H.
    destruct (Hr (draws s)) as [H0 H1].
    destruct (Math_round_integer (Math_random w (draws s) * 2 * 100) 0 200)
      as [n [E Hn]]; [unfold inject_Z; split; lra|].
    exists n. rewrite E. split; [reflexivity|]. split; [exact Hn|].
    intros Hz. apply orb_false_iff in Z. destruct Z as [Za Zb].
    destruct Hz as [Hz|Hz]; apply Qzero_iff in Hz; congruence.
Qed.

Lemma map_row_Ok w row s tx s' :
  map_row w row s = (Ok tx, s') ->
  exists ts x s1,
    calculateSlippage w (opt_Q (token_sold_amount row))
      (opt_Q (token_bought_amount row)) s1 = (Ok x, s')
    /\ tx = {| hash := opt_str_or (tx_hash row) "unknown";
               timestamp := ts;
               from_token := opt_str_or (token_sold_symbol row) "UNKNOWN";
               to_token := opt_str_or (token_bought_symbol row) "UNKNOWN";
               from_token_address := opt_str_or (token_sold_address row) "";
               to_token_address := opt_str_or (token_bought_address row) "";
               from_amount := opt_Q (token_sold_amount row);
               to_amount := opt_Q (token_bought_amount row);
               gas_used := opt_Z (row_gas_used row);
               gas_price := opt_Q (row_gas_price row);
               dex := opt_str_or (project row) "unknown";
               usd_value := Some (opt_Q (amount_usd row));
               slippage := Some x |}.
Proof.
  unfold map_row. intros H.
  apply bind_Ok in H. destruct H as [ts [s1 [_ H]]].
  apply bind_Ok in H. destruct H as [x [s2 [E H]]].
  inversion H; subst. exists ts, x, s1. split; [exact E|reflexivity].
Qed.

Lemma getDuneData_estimated w walletAddress limit s transactions s' :
  fair_random w ->
  getDuneData w walletAddress limit s = (Ok transactions, s') ->
  Forall estimated transactions.
Proof.
  intros Hr H.
  apply getDuneData_Ok_rows in H. destruct H as [rows [s0 H]].
  apply (mapM_Forall (map_row w) estimated) with (l := rows) (s := s0) (s' := s');
    [|exact H].
  intros row s1 tx s2 E. apply map_row_Ok in E.
  destruct E as [ts [x [s3 [E ->]]]].
  destruct (calculateSlippage_estimate w _ _ _ _ _ Hr E) as [n [Hx [Hn Hz]]].
  exists x, n. cbn [slippage from_amount to_amount]. repeat split; try assumption; lia.
Qed.

(** X4. When the random source yields values of [[0, 1)], every transaction
    the history client returns carries a slippage estimate that is a whole
    number of hundredths between 0 and 2 percent, and 0 when the sold or the
    bought amount is 0. *)
Theorem X4_slippage_estimate_between_0_and_2 :
  forall w walletAddress limit s transactions s',
    fair_random w ->
    getDuneData w walletAddress limit s = (Ok transactions, s') ->
    Forall estimated transactions.
Proof.
  intros w walletAddress limit s transactions s' Hr H.
  exact (getDuneData_estimated w walletAddress limit s transactions s' Hr H).
Qed.

(** X4 at a world whose random source always yields one half: the estimate of
    the example transaction is 1 percent. *)
Lemma X4_witness :
  exists transactions s',
    getDuneData rough_world well_formed_wallet 10 St0 = (Ok transactions, s')
    /\ map slippage transactions = [Some 1.00]
    /\ Forall estimated transactions.
Proof.
  destruct (getDuneData rough_world well_formed_wallet 10 St0)
    as [[transactions|e] s'] eqn:E; [|vm_compute in E; discriminate].
  exists transactions, s'. split; [reflexivity|]. split.
  - vm_compute in E. inversion E. reflexivity.
  - apply (X4_slippage_estimate_between_0_and_2 rough_world well_formed_wallet
             10 St0 transactions s'); [|exact E].
    intros k. simpl. split; [discriminate|reflexivity].
Defined.

Lemma opt_str_or_nonempty (o : option string) (d : string) :
  d <> "" -> opt_str_or o d <> "".
Proof.
  intros Hd. unfold opt_str_or, str_or. destruct o as [s|]; [|exact Hd].
  destruct (truthy s) eqn:T; [apply truthy_nonempty, T|exact Hd].
Qed.

Lemma truthy_true (s : string) : s <> "" -> truthy s = true.
Proof.
  intros H. unfold truthy. destruct (String.eqb s "") eqn:E; [|reflexivity].
  apply String.eqb_eq in E. contradiction.
Qed.

Lemma getDuneData_labelled w walletAddress limit s transactions s' :
  getDuneData w walletAddress limit s = (Ok transactions, s') ->
  Forall labelled transactions.
Proof.
  intros H. apply getDuneData_Ok_rows in H. destruct H as [rows [s0 H]].
  apply (mapM_Forall (map_row w) labelled) with (l := rows) (s := s0) (s' := s');
    [|exact H].
  intros row s1 tx s2 E. apply map_row_Ok in E.
  destruct E as [ts [x [s3 [_ ->]]]].
  repeat split; apply opt_str_or_nonempty; discriminate.
Qed.

Lemma valid_labelled (tx : SwapTransaction) :
  labelled tx -> valid_transaction tx = positive_figures tx.
Proof.
  intros [H1 [H2 [H3 _]]]. unfold valid_transaction, positive_figures.
  rewrite (truthy_true _ H1), (truthy_true _ H2), (truthy_true _ H3). reflexivity.
Qed.

Lemma filter_Forall_ext {A} (f g : A -> bool) (P : A -> Prop) (l : list A) :
  (forall x, P x -> f x = g x) -> Forall P l -> filter f l = filter g l.
Proof.
  intros H. induction 1 as [|x rest Hx _ IH]; [reflexivity|].
  simpl. rewrite (H x Hx), IH. reflexivity.
Qed.

(** X5. The history client never returns a transaction with an empty hash,
    token symbol or venue (defaults are substituted), so the filter of
    transaction retrieval comes down to the three numeric tests: the output is
    the provider sequence restricted to positive amounts and positive gas
    used, sorted by recency. *)
Theorem X5_retrieval_filter_is_numeric :
  forall w walletAddress limit s transactions s',
    getUserTransactions w walletAddress limit s = (Ok transactions, s') ->
    exists provided,
      getDuneData w walletAddress limit s = (Ok provided, s')
      /\ Forall labelled provided
      /\ transactions = sort_by by_recency (filter positive_figures provided).
Proof.
  intros w walletAddress limit s transactions s' H.
  apply getUserTransactions_Ok in H. destruct H as [_ [_ [provided [E R]]]].
  pose proof (getDuneData_labelled _ _ _ _ _ _ E) as HL.
  exists provided. split; [exact E|]. split; [exact HL|].
  rewrite R. f_equal. apply (filter_Forall_ext _ _ labelled); [|exact HL].
  intros tx Htx. apply valid_labelled, Htx.
Qed.

(** X5 at the history of a valid row, a zero-gas row and a recent valid row. *)
Lemma X5_witness :
  exists transactions s' provided,
    getUserTransactions mixed_world well_formed_wallet 10 St0 = (Ok transactions, s')
    /\ getDuneData mixed_world well_formed_wallet 10 St0 = (Ok provided, s')
    /\ map hash provided = ["0xaa"; "0xbb"; "0xcc"]
    /\ transactions = sort_by by_recency (filter positive_figures provided).
Proof.
  destruct (getUserTransactions mixed_world well_formed_wallet 10 St0)
    as [[transactions|e] s'] eqn:E; [|vm_compute in E; discriminate].
  destruct (X5_retrieval_filter_is_numeric mixed_world well_formed_wallet 10 St0
              transactions s' E) as [provided [E1 [_ R]]].
  exists transactions, s', provided. split; [reflexivity|]. split; [exact E1|].
  split; [|exact R].
  vm_compute in E1. inversion E1. reflexivity.
Defined.

(* ===================================================================== *)
(** ** Further properties: the comparison engine *)
(* ===================================================================== *)

Lemma compare_one_trace w position tx acc s :
  trace (snd (compare_one w position tx acc s))
  = trace s ++ (if has_addresses tx then
                  HttpGet quote_url
                    :: match quote_of w position tx with
                       | Some _ => [Wait 100]
                       | None => []
                       end
                else []).
Proof.
  unfold compare_one, quote_of, try_catch, bind.
  destruct (has_addresses tx); simpl.
  - rewrite getOneInchQuote_state.
    destruct (fst (getOneInchQuote w position _ _ _ _ _ St0)) as [quote|e]; simpl.
    + rewrite <- app_assoc. reflexivity.
    + reflexivity.
  - symmetry. apply app_nil_r.
Qed.

Lemma compare_loop_trace w transactions :
  forall position acc s,
    trace (snd (compare_loop w position transactions acc s))
    = trace s ++ loop_events w position transactions.
Proof.
  induction transactions as [|tx rest IH]; intros position acc s.
  - simpl. symmetry. apply app_nil_r.
  - cbn [compare_loop loop_events]. unfold bind.
    pose proof (compare_one_trace w position tx acc s) as T.
    destruct (compare_one_spec w position tx acc s) as [s1 [E _]].
    rewrite E in T |- *. cbn [snd] in T.
    rewrite IH, T, <- app_assoc. reflexivity.
Qed.

Lemma loop_events_kinds w transactions :
  forall position,
    Forall (fun e => e = HttpGet quote_url \/ e = Wait 100)
           (loop_events w position transactions).
Proof.
  induction transactions as [|tx rest IH]; intros position; [constructor|].
  cbn [loop_events]. apply Forall_app. split; [|apply IH].
  destruct (has_addresses tx); [|constructor].
  constructor; [left; reflexivity|].
  destruct (quote_of w position tx); [|constructor].
  constructor; [right; reflexivity|constructor].
Qed.

Lemma loop_events_requests w transactions :
  forall position,
    List.length (filter is_quote_request (loop_events w position transactions))
    = List.length (filter has_addresses transactions).
Proof.
  induction transactions as [|tx rest IH]; intros position; [reflexivity|].
  cbn [loop_events]. rewrite filter_app, length_app, IH.
  cbn [filter]. destruct (has_addresses tx); [|reflexivity].
  destruct (quote_of w position tx); reflexivity.
Qed.

Lemma loop_events_pauses w transactions :
  forall position,
    List.length (filter is_pause (loop_events w position transactions))
    = List.length (compared w position transactions).
Proof.
  induction transactions as [|tx rest IH]; intros position; [reflexivity|].
  cbn [loop_events compared]. rewrite filter_app, !length_app, IH.
  unfold compared_here. destruct (has_addresses tx); [|reflexivity].
  destruct (quote_of w position tx); reflexivity.
Qed.

(** The events of a successful comparison, after those of the history
    client. *)
Lemma compareWithOneInch_trace w walletAddress s r s' :
  compareWithOneInch w walletAddress s = (Ok r, s') ->
  exists transactions s1,
    getDuneData w walletAddress 10 s = (Ok transactions, s1)
    /\ trace s' = trace s1 ++ loop_events w 0 transactions
    /\ detailedComparisons r = map record_of (compared w 0 transactions)
    /\ totalTransactions r = List.length transactions.
Proof.
  intros H. pose proof H as H0.
  apply compareWithOneInch_Ok in H0.
  destruct H0 as [F [transactions [s1 [E [_ [_ R]]]]]].
  exists transactions, s1. split; [exact E|].
  unfold compareWithOneInch in H. rewrite F in H.
  apply try_catch_rethrow_Ok in H. unfold bind in H. rewrite E in H.
  destruct transactions as [|tx rest].
  - inversion H; subst. simpl. rewrite app_nil_r. repeat split; reflexivity.
  - pose proof (compare_loop_trace w (tx :: rest) 0 Totals0 s1) as T.
    destruct (compare_loop_spec w (tx :: rest) 0 Totals0 s1) as [s2 [L _]].
    rewrite L in H, T. cbn [snd] in T. clear R.
    inversion H; subst s' r.
    split; [exact T|]. unfold comparison_result.
    cbn [detailedComparisons totalTransactions].
    rewrite record_all_records. split; reflexivity.
Qed.

(** X6. After the history client has answered, a successful comparison adds
    to the trace nothing but quote requests and 100 ms pauses: one quote
    request for each transaction that carries both token addresses (none for
    the others) and one pause for each detailed comparison it returns. *)
Theorem X6_one_request_per_addressed_transaction :
  forall w walletAddress s r s',
    compareWithOneInch w walletAddress s = (Ok r, s') ->
    exists transactions s1 added,
      getDuneData w walletAddress 10 s = (Ok transactions, s1)
      /\ trace s' = trace s1 ++ added
      /\ Forall (fun e => e = HttpGet quote_url \/ e = Wait 100) added
      /\ List.length (filter is_quote_request added)
         = List.length (filter has_addresses transactions)
      /\ List.length (filter is_pause added)
         = List.length (detailedComparisons r).
Proof.
  intros w walletAddress s r s' H.
  apply compareWithOneInch_trace in H.
  destruct H as [transactions [s1 [E [T [D _]]]]].
  exists transactions, s1, (loop_events w 0 transactions).
  split; [exact E|]. split; [exact T|].
  split; [apply loop_events_kinds|].
  split; [apply loop_events_requests|].
  rewrite D, length_map. apply loop_events_pauses.
Qed.

(** X6 at five transactions whose third quote fails: five requests, four
    pauses. *)
Lemma X6_witness :
  exists r s' added,
    compareWithOneInch five_rows_world well_formed_wallet St0 = (Ok r, s')
    /\ List.length (filter is_quote_request added) = 5%nat
    /\ List.length (filter is_pause added) = List.length (detailedComparisons r).
Proof.
  destruct (compareWithOneInch five_rows_world well_formed_wallet St0)
    as [[r|e] s'] eqn:E; [|vm_compute in E; discriminate].
  destruct (X6_one_request_per_addressed_transaction five_rows_world
              well_formed_wallet St0 r s' E)
    as [transactions [s1 [added [E1 [_ [_ [HR HP]]]]]]].
  exists r, s', added. split; [reflexivity|]. split; [|exact HP].
  rewrite HR. vm_compute in E1. inversion E1. reflexivity.
Defined.

Lemma subsequence_refl {A} (l : list A) : subsequence l l.
Proof. induction l; constructor; assumption. Qed.

Lemma subsequence_app {A} (l1 l1' l2 l2' : list A) :
  subsequence l1 l1' -> subsequence l2 l2' -> subsequence (l1 ++ l2) (l1' ++ l2').
Proof.
  induction 1; intros H2; simpl; [exact H2| |]; constructor; auto.
Qed.

Lemma compared_subsequence w transactions :
  forall position,
    subsequence (map (fun p => echo_of_transaction (fst p))
                     (compared w position transactions))
                (map echo_of_transaction transactions).
Proof.
  induction transactions as [|tx rest IH]; intros position; [constructor|].
  cbn [compared]. rewrite map_app.
  change (map echo_of_transaction (tx :: rest))
    with ([echo_of_transaction tx] ++ map echo_of_transaction rest).
  apply subsequence_app; [|apply IH].
  unfold compared_here. destruct (has_addresses tx); [|repeat constructor].
  destruct (quote_of w position tx); repeat constructor.
Qed.

Lemma first_protocol_nonempty (quote : OneInchQuote) : first_protocol quote <> "".
Proof.
  unfold first_protocol.
  destruct (protocols quote) as [|[|name hop] hops]; try discriminate.
  unfold str_or. destruct (truthy name) eqn:T; [apply truthy_nonempty, T|discriminate].
Qed.

Lemma subsequence_length {A} (l l' : list A) :
  subsequence l l' -> (List.length l <= List.length l')%nat.
Proof. induction 1; simpl; lia. Qed.

(** X7. The detailed comparisons of a result follow the provider order: the
    hashes, venues and output amounts they echo form a subsequence of those of
    the provided transactions, so there are at most [totalTransactions] of
    them; and the best-quoted venue of a record is never an empty string. *)
Theorem X7_records_follow_provider_order :
  forall w walletAddress s r s',
    compareWithOneInch w walletAddress s = (Ok r, s') ->
    exists transactions s1,
      getDuneData w walletAddress 10 s = (Ok transactions, s1)
      /\ subsequence (map echo_of_record (detailedComparisons r))
                     (map echo_of_transaction transactions)
      /\ (List.length (detailedComparisons r) <= totalTransactions r)%nat
      /\ Forall (fun c => optimalRoute c <> "") (detailedComparisons r).
Proof.
  intros w walletAddress s r s' H.
  apply compareWithOneInch_trace in H.
  destruct H as [transactions [s1 [E [_ [D L]]]]].
  exists transactions, s1. split; [exact E|].
  assert (S : subsequence (map echo_of_record (detailedComparisons r))
                          (map echo_of_transaction transactions)).
  { rewrite D, map_map. apply (compared_subsequence w transactions 0). }
  split; [exact S|]. split.
  - apply subsequence_length in S. rewrite !length_map in S. lia.
  - rewrite D. rewrite Forall_forall. intros c Hc.
    apply in_map_iff in Hc. destruct Hc as [p [<- _]].
    apply first_protocol_nonempty.
Qed.

(** X7 at the history of one zero-gas transaction. *)
Lemma X7_witness :
  exists r s',
    compareWithOneInch zero_gas_world well_formed_wallet St0 = (Ok r, s')
    /\ (List.length (detailedComparisons r) <= totalTransactions r)%nat.
Proof.
  destruct (compareWithOneInch zero_gas_world well_formed_wallet St0)
    as [[r|e] s'] eqn:E; [|vm_compute in E; discriminate].
  exists r, s'. split; [reflexivity|].
  destruct (X7_records_follow_provider_order zero_gas_world well_formed_wallet
              St0 r s' E) as [transactions [s1 [_ [_ [H _]]]]].
  exact H.
Defined.










(* ===================================================================== *)
(** ** Further properties: the report generator *)
(* ===================================================================== *)

Lemma fold_max_head (rest : list Z) :
  forall t, Forall (fun x => (x <= t)%Z) rest -> fold_left Z.max rest t = t.
Proof.
  induction rest as [|x r IH]; intros t H; [reflexivity|].
  inversion H as [|? ? Hx Hr]; subst. simpl.
  rewrite Z.max_l by exact Hx. apply IH, Hr.
Qed.

Lemma last_default {A} (l : list A) (x d d' : A) :
  last (x :: l) d = last (x :: l) d'.
Proof.
  revert x. induction l as [|y rest IH]; intros x; [reflexivity|].
  change (last (y :: rest) d = last (y :: rest) d'). apply IH.
Qed.

Lemma last_cons {A} (l : list A) (x d : A) : last (x :: l) d = last l x.
Proof.
  destruct l as [|y rest]; [reflexivity|].
  change (last (y :: rest) d = last (y :: rest) x). apply last_default.
Qed.

Lemma fold_min_last (rest : list Z) :
  forall t,
    StronglySorted (fun a b => (b <= a)%Z) (t :: rest) ->
    fold_left Z.min rest t = last rest t.
Proof.
  induction rest as [|x r IH]; intros t H; [reflexivity|].
  inversion H as [|? ? Hs Ht]; subst.
  inversion Ht as [|? ? Hx _]; subst.
  cbn [fold_left]. rewrite Z.min_r by exact Hx. rewrite (IH x Hs).
  symmetry. apply last_cons.
Qed.

Lemma sorted_timestamps (l : list SwapTransaction) :
  StronglySorted (fun a b => (timestamp b <= timestamp a)%Z) l ->
  StronglySorted (fun a b => (b <= a)%Z) (map timestamp l).
Proof.
  induction 1 as [|tx rest _ IH H]; simpl; constructor; [exact IH|].
  rewrite Forall_forall in H |- *. intros t Ht.
  apply in_map_iff in Ht. destruct Ht as [tx' [<- Hin]]. apply H, Hin.
Qed.

Lemma getUserTransactions_sorted w walletAddress limit s transactions s' :
  getUserTransactions w walletAddress limit s = (Ok transactions, s') ->
  StronglySorted (fun a b => (timestamp b <= timestamp a)%Z) transactions.
Proof.
  intros H. apply getUserTransactions_Ok in H.
  destruct H as [_ [_ [provided [_ ->]]]]. apply (sort_by_sorted timestamp).
Qed.

Lemma last_map {A B} (f : A -> B) (l : list A) (d : A) :
  last (map f l) (f d) = f (last l d).
Proof.
  induction l as [|x rest IH]; [reflexivity|].
  simpl. destruct rest; [reflexivity|exact IH].
Qed.

Lemma sorted_last_lowest (rest : list SwapTransaction) :
  forall first tx,
    StronglySorted (fun a b => (timestamp b <= timestamp a)%Z) (first :: rest) ->
    In tx (first :: rest) ->
    (timestamp (last rest first) <= timestamp tx)%Z.
Proof.
  induction rest as [|x r IH]; intros first tx S Htx.
  - destruct Htx as [<-|[]]. simpl. lia.
  - inversion S as [|? ? Ss HF]; subst.
    destruct Htx as [<-|Htx].
    + destruct (exists_last (l := x :: r)) as [l' [z Hz]]; [discriminate|].
      rewrite Hz, last_last.
      rewrite Forall_forall in HF. apply HF. rewrite Hz.
      apply in_or_app. right. left. reflexivity.
    + rewrite last_cons. apply (IH x tx Ss Htx).
Qed.

(** X11. The time range of a report of at least one transaction runs from the
    time stamp of the last retrieved transaction to that of the first one (the
    most recent), and every retrieved transaction lies within it. *)
Theorem X11_time_range_spans_the_retrieved_transactions :
  forall w walletAddress s r s' transactions s1 first rest,
    generateSwapReport w walletAddress s = (Ok r, s') ->
    getUserTransactions w walletAddress 50 s = (Ok transactions, s1) ->
    transactions = first :: rest ->
    to (timeRange r) = timestamp first
    /\ from (timeRange r) = timestamp (last rest first)
    /\ Forall (fun tx => (from (timeRange r) <= timestamp tx <= to (timeRange r))%Z)
              transactions.
Proof.
  intros w walletAddress s r s' transactions s1 first rest H E Hl.
  pose proof (getUserTransactions_sorted _ _ _ _ _ _ E) as S.
  apply generateSwapReport_Ok in H.
  destruct H as [l [s2 [c [s3 [E' [_ R]]]]]].
  rewrite E in E'. inversion E'; subst l s2. subst transactions.
  destruct R as [[Hnil _]|[_ [v [s4 [g [_ R]]]]]]; [discriminate|].
  subst r. unfold report_of. cbn [timeRange to from].
  pose proof (sorted_timestamps _ S) as S'. cbn [map] in S'.
  assert (Hmax : max_time (map timestamp (first :: rest)) = timestamp first).
  { cbn [map max_time]. apply fold_max_head.
    inversion S'; assumption. }
  assert (Hmin : min_time (map timestamp (first :: rest))
                 = timestamp (last rest first)).
  { cbn [map min_time]. rewrite (fold_min_last _ _ S'). apply last_map. }
  rewrite Hmax, Hmin. split; [reflexivity|]. split; [reflexivity|].
  rewrite Forall_forall. intros tx Htx.
  assert (Hhi : (timestamp tx <= timestamp first)%Z).
  { destruct Htx as [<-|Htx]; [lia|].
    inversion S as [|? ? _ HF]; subst. rewrite Forall_forall in HF.
    apply HF, Htx. }
  split; [|exact Hhi].
  apply (sorted_last_lowest rest first tx S Htx).
Qed.

(** X11 at a history of an older valid row, a zero-gas row and a recent valid
    row: the range runs from 1000 to 3000. *)
Lemma X11_witness :
  exists r s',
    generateSwapReport mixed_world well_formed_wallet St0 = (Ok r, s')
    /\ to (timeRange r) = 3000%Z
    /\ from (timeRange r) = 1000%Z.
Proof.
  destruct (generateSwapReport mixed_world well_formed_wallet St0)
    as [[r|e] s'] eqn:E; [|vm_compute in E; discriminate].
  destruct (getUserTransactions mixed_world well_formed_wallet 50 St0)
    as [[transactions|e] s1] eqn:E1; [|vm_compute in E1; discriminate].
  exists r, s'. split; [reflexivity|].
  destruct transactions as [|first rest]; [vm_compute in E1; discriminate|].
  destruct (X11_time_range_spans_the_retrieved_transactions mixed_world
              well_formed_wallet St0 r s' (first :: rest) s1 first rest E E1 eq_refl)
    as [Hto [Hfrom _]].
  rewrite Hto, Hfrom. vm_compute in E1. inversion E1. split; reflexivity.
Defined.






Lemma getUserTransactions_labelled w walletAddress limit s transactions s' :
  getUserTransactions w walletAddress limit s = (Ok transactions, s') ->
  Forall labelled transactions.
Proof.
  intros H. apply getUserTransactions_Ok in H.
  destruct H as [_ [_ [provided [E ->]]]].
  pose proof (getDuneData_labelled _ _ _ _ _ _ E) as HL.
  rewrite Forall_forall in HL |- *. intros tx Htx.
  apply (Permutation_in _ (sort_by_perm timestamp _)) in Htx.
  apply filter_In in Htx. apply HL, Htx.
Qed.

(** The venue chosen is one of the venues met, and no venue has more
    transactions. *)
Lemma mostUsedDex_is_most_frequent (transactions : list SwapTransaction) name n :
  mostUsedDex transactions = Some (name, n) ->
  In name (map dex transactions)
  /\ n = venue_count name transactions
  /\ forall d, (venue_count d transactions <= venue_count name transactions)%nat.
Proof.
  intros H. rewrite mostUsedDex_first_max in H.
  destruct (first_max_spec by_count _ _ H) as [before [after [E [Hb Ha]]]].
  assert (Hin : In (name, n) (dexUsage transactions))
    by (rewrite E; apply in_or_app; right; left; reflexivity).
  apply dexUsage_entries in Hin. destruct Hin as [Hname Hn].
  split; [exact Hname|]. split; [exact Hn|].
  intros d. destruct (in_dec string_dec d (map dex transactions)) as [Hd|Hd].
  - assert (He : In (d, venue_count d transactions) (dexUsage transactions))
      by (apply dexUsage_entries; split; [exact Hd|reflexivity]).
    rewrite E in He. apply in_app_or in He. rewrite <- Hn.
    destruct He as [He|[He|He]].
    + specialize (Hb _ He). unfold by_count in Hb. simpl in Hb. lia.
    + inversion He. lia.
    + specialize (Ha _ He). unfold by_count in Ha. simpl in Ha. lia.
  - unfold venue_count. rewrite (proj1 (count_occ_not_In string_dec _ _) Hd). lia.
Qed.

Lemma mostUsedDex_nonempty (transactions : list SwapTransaction) :
  transactions <> [] -> exists name n, mostUsedDex transactions = Some (name, n).
Proof.
  intros Hne. rewrite mostUsedDex_first_max.
  destruct transactions as [|tx rest]; [contradiction|].
  assert (Hin : In (dex tx, venue_count (dex tx) (tx :: rest)) (dexUsage (tx :: rest)))
    by (apply dexUsage_entries; split; [left; reflexivity|reflexivity]).
  destruct (dexUsage (tx :: rest)) as [|[d n] l]; [contradiction|].
  simpl. destruct (first_max by_count l) as [[d' n']|].
  - destruct (by_count (d', n') <=? by_count (d, n))%Z; eexists; eexists; reflexivity.
  - eexists. eexists. reflexivity.
Qed.

(** X14. The most-used venue of a report of at least one transaction is the
    venue of one of the retrieved transactions, and no venue has more of them
    (venue names being ordinary property names, the fallback 'Unknown' is
    never needed). *)
Theorem X14_most_used_venue_is_most_frequent :
  forall w walletAddress s r s' transactions s1,
    generateSwapReport w walletAddress s = (Ok r, s') ->
    getUserTransactions w walletAddress 50 s = (Ok transactions, s1) ->
    transactions <> [] ->
    In (mostUsedDEX (summary r)) (map dex transactions)
    /\ forall d,
         (venue_count d transactions
          <= venue_count (mostUsedDEX (summary r)) transactions)%nat.
Proof.
  intros w walletAddress s r s' transactions s1 H E Hne.
  pose proof (getUserTransactions_labelled _ _ _ _ _ _ E) as HL.
  apply generateSwapReport_Ok in H.
  destruct H as [l [s2 [c [s3 [E' [_ R]]]]]].
  rewrite E in E'. inversion E'; subst l s2.
  destruct R as [[Hnil _]|[_ [v [s4 [g [_ ->]]]]]]; [contradiction|].
  unfold report_of. cbn [summary mostUsedDEX].
  destruct (mostUsedDex_nonempty transactions Hne) as [name [n M]].
  rewrite M.
  destruct (mostUsedDex_is_most_frequent transactions name n M) as [Hin [_ Hmax]].
  assert (Hname : name <> "").
  { apply in_map_iff in Hin. destruct Hin as [tx [<- Htx]].
    rewrite Forall_forall in HL. apply (HL tx Htx). }
  unfold str_or. rewrite (truthy_true _ Hname). split; assumption.
Qed.

(** X14 at a history of an older valid row, a zero-gas row and a recent valid
    row on two venues: the first venue met wins the tie. *)
Lemma X14_witness :
  exists r s' transactions,
    generateSwapReport mixed_world well_formed_wallet St0 = (Ok r, s')
    /\ mostUsedDEX (summary r) = "Uniswap V3"
    /\ In (mostUsedDEX (summary r)) (map dex transactions).
Proof.
  destruct (generateSwapReport mixed_world well_formed_wallet St0)
    as [[r|e] s'] eqn:E; [|vm_compute in E; discriminate].
  destruct (getUserTransactions mixed_world well_formed_wallet 50 St0)
    as [[transactions|e] s1] eqn:E1; [|vm_compute in E1; discriminate].
  exists r, s', transactions. split; [reflexivity|]. split.
  - vm_compute in E. inversion E. reflexivity.
  - apply (X14_most_used_venue_is_most_frequent mixed_world well_formed_wallet
             St0 r s' transactions s1 E E1).
    vm_compute in E1. inversion E1. discriminate.
Defined.

(** X15. When transaction retrieval returns no transaction, the report is the
    all-zero report with its two advisory notes, whatever the comparison
    engine has found in the unfiltered history; the network calls made by
    then are, in some order, those of the retrieval and of the comparison. *)
Theorem X15_empty_retrieval_gives_the_zero_report :
  forall w walletAddress s r s' s1,
    generateSwapReport w walletAddress s = (Ok r, s') ->
    getUserTransactions w walletAddress 50 s = (Ok [], s1) ->
    summary r = {| totalSwaps := 0;
                   totalVolumeUSD := 0;
                   averageGasUsed := Fin 0;
                   mostUsedDEX := "N/A";
                   efficiencyScore := Fin 0 |}
    /\ gasAnalysis r = {| totalGasSpent := 0;
                          averageGasPrice := Fin 0;
                          potentialSavings := 0;
                          savingsPercentage := Fin 0 |}
    /\ routingAnalysis r = {| optimalRoutes := 0;
                              suboptimalRoutes := 0;
                              missedOpportunities := [ "No transactions found" ] |}
    /\ report_recommendations r = [ "Start making some swaps to get analysis!" ]
    /\ Permutation (network_calls s')
                    (network_calls (snd (compareWithOneInch w walletAddress s1))).
Proof.
  intros w walletAddress s r s' s1 H E.
  pose proof H as H0. apply generateSwapReport_Ok in H0.
  destruct H0 as [l [s2 [c [s3 [E' [C R]]]]]].
  rewrite E in E'. inversion E'; subst l s2.
  destruct R as [[_ [g [f [t ->]]]]|[Hne _]]; [|contradiction].
  repeat (split; [reflexivity|]).
  unfold generateSwapReport in H.
  destruct (invalid_format walletAddress); [discriminate|].
  apply try_catch_rethrow_Ok in H. unfold bind, Promise_all in H.
  rewrite E, C in H. unfold new_Date, ret in H. cbn in H.
  inversion H. rewrite C. apply Permutation_refl.
Qed.

(** X15 at a history of one zero-gas transaction: the comparison engine has
    compared it, the report is all zero. *)
Lemma X15_witness :
  exists r s' c s2,
    generateSwapReport zero_gas_world well_formed_wallet St0 = (Ok r, s')
    /\ compareWithOneInch zero_gas_world well_formed_wallet
         (snd (getUserTransactions zero_gas_world well_formed_wallet 50 St0))
       = (Ok c, s2)
    /\ totalOptimalGas c = 4000000
    /\ report_recommendations r = [ "Start making some swaps to get analysis!" ].
Proof.
  destruct (generateSwapReport zero_gas_world well_formed_wallet St0)
    as [[r|e] s'] eqn:E; [|vm_compute in E; discriminate].
  destruct (getUserTransactions zero_gas_world well_formed_wallet 50 St0)
    as [[[|tx rest]|e] s1] eqn:E1; try (vm_compute in E1; discriminate).
  destruct (X15_empty_retrieval_gives_the_zero_report zero_gas_world
              well_formed_wallet St0 r s' s1 E E1) as [_ [_ [_ [HR _]]]].
  eexists r, s', _, _. split; [reflexivity|]. split; [|split; [|exact HR]].
  - cbn [snd]. vm_compute in E1. inversion E1. vm_compute. reflexivity.
  - reflexivity.
Defined.

(* ===================================================================== *)
(** ** Further properties: the request handler and the quote client *)
(* ===================================================================== *)

(** X16. The request handler turns bad input into a failure object without
    any effect: an unknown tool name is answered with 'Unknown tool: <name>',
    and for each of the three tools a wallet without the '0x' prefix is
    answered with 'Invalid wallet address format'.  A limit of 0 counts as
    absent: the retrieval tool then asks for 10 transactions. *)
Theorem X16_handler_answers_bad_input_without_effect :
  forall w name walletAddress limit s,
    (known_tool name = false ->
     callTool w name {| arg_walletAddress := walletAddress; arg_limit := limit |} s
     = (Ok (ErrorPayload ("Unknown tool: " ^^ name)), s))
    /\ (known_tool name = true ->
        startsWith walletAddress "0x" = false ->
        callTool w name {| arg_walletAddress := walletAddress; arg_limit := limit |} s
        = (Ok (ErrorPayload "Invalid wallet address format"), s))
    /\ callTool w "get_user_transactions"
         {| arg_walletAddress := walletAddress; arg_limit := Some 0%Z |} s
       = callTool w "get_user_transactions"
           {| arg_walletAddress := walletAddress; arg_limit := Some 10%Z |} s
    /\ callTool w "get_user_transactions"
         {| arg_walletAddress := walletAddress; arg_limit := None |} s
       = callTool w "get_user_transactions"
           {| arg_walletAddress := walletAddress; arg_limit := Some 10%Z |} s.
Proof.
  intros w name walletAddress limit s. unfold known_tool.
  split; [|split; [|split; reflexivity]].
  - intros H. apply orb_false_iff in H. destruct H as [H H3].
    apply orb_false_iff in H. destruct H as [H1 H2].
    unfold callTool. rewrite H1, H2, H3. reflexivity.
  - intros H P.
    assert (G : getUserTransactions w walletAddress
                  (limit_or_default limit) s
                = (Throw "Invalid wallet address format", s)).
    { unfold getUserTransactions, invalid_format. rewrite P, orb_true_r. reflexivity. }
    unfold callTool. cbn [arg_walletAddress arg_limit].
    destruct (String.eqb name "get_user_transactions").
    { unfold try_catch, bind. rewrite G. reflexivity. }
    destruct (String.eqb name "compare_with_1inch").
    { unfold try_catch, bind.
      rewrite (compareWithOneInch_rejects w walletAddress s P). reflexivity. }
    destruct (String.eqb name "generate_swap_report"); [|discriminate].
    unfold try_catch, bind.
    rewrite (generateSwapReport_rejects w walletAddress s P). reflexivity.
Qed.

(** X16 at an unknown tool and at a report request for a wallet without the
    prefix. *)
Lemma X16_witness :
  callTool example_world "get_balance"
    {| arg_walletAddress := well_formed_wallet; arg_limit := None |} St0
  = (Ok (ErrorPayload "Unknown tool: get_balance"), St0)
  /\ callTool example_world "generate_swap_report"
       {| arg_walletAddress := "1111"; arg_limit := None |} St0
     = (Ok (ErrorPayload "Invalid wallet address format"), St0).
Proof.
  split.
  - apply (proj1 (X16_handler_answers_bad_input_without_effect example_world
                    "get_balance" well_formed_wallet None St0)).
    reflexivity.
  - apply (proj1 (proj2 (X16_handler_answers_bad_input_without_effect example_world
                    "generate_swap_report" "1111" None St0)));
      reflexivity.
Defined.

(** X17. A quote call makes exactly one request.  When it returns, the
    estimated gas of the quote is never 0 (a missing or zero figure of the
    provider is replaced, in the end by 150000) and the two amount fields
    agree; when it throws, the message is either the rate-limit message or
    the generic one with its prefix, and a provider that answers with status
    429 always gets the rate-limit message. *)
Theorem X17_quote_is_normalised :
  forall w position a b amount fs ts s,
  exists outcome,
    getOneInchQuote w position a b amount fs ts s
    = (outcome, after s (HttpGet quote_url))
    /\ match outcome with
       | Ok quote =>
           estimatedGas quote <> 0%Z /\ toTokenAmount quote = toAmount quote
       | Throw e =>
           e = rate_limit_message
           \/ exists m, e = "Failed to get 1inch quote: " ^^ m
       end
    /\ ((forall src dst amountInWei,
           exists m, oneinch_quote w position src dst amountInWei
                     = QuoteError (Some 429%Z) m) ->
        outcome = Throw rate_limit_message).
Proof.
  intros w position a b amount fs ts s.
  rewrite getOneInchQuote_state. eexists. split; [reflexivity|].
  unfold getOneInchQuote, bind, emit, throw, ret. cbn [fst].
  match goal with
  | |- context [oneinch_quote w position ?src ?dst ?amt] =>
      destruct (oneinch_quote w position src dst amt) as [status m|data] eqn:Q
  end.
  - unfold rate_limit_message.
    repeat match goal with
           | |- context [match ?x with _ => _ end] => is_var x; destruct x
           end;
      cbn [fst];
      (split;
       [ first [ left; reflexivity | right; exists m; reflexivity ]
       | intros H;
         first
           [ reflexivity
           | exfalso;
             match type of Q with
             | oneinch_quote w position ?src ?dst ?amt = _ =>
                 destruct (H src dst amt) as [m' Hm]
             end;
             rewrite Q in Hm; discriminate Hm ] ]).
  - cbn [fst estimatedGas toTokenAmount toAmount]. split.
    + split; [|reflexivity].
      destruct (data_estimatedGas data) as [g|]; destruct (data_gas data) as [g'|];
        repeat match goal with
               | |- context [Z.eqb ?x 0] => destruct (Z.eqb_spec x 0)
               end; try assumption; discriminate.
    + intros H. match type of Q with oneinch_quote w position ?src ?dst ?amt = _ =>
        destruct (H src dst amt) as [m' Hm] end.
      rewrite Q in Hm. discriminate.
Qed.

(** X17 at a provider that answers with status 429. *)
Lemma X17_witness :
  getOneInchQuote throttled_world 0 "0xC0" "0xA0" 1 "WETH" "USDC" St0
  = (Throw rate_limit_message, after St0 (HttpGet quote_url)).
Proof.
  destruct (X17_quote_is_normalised throttled_world 0 "0xC0" "0xA0" 1 "WETH" "USDC" St0)
    as [outcome [E [_ H]]].
  rewrite E. rewrite H; [reflexivity|].
  intros src dst amountInWei. eexists. reflexivity.
Defined.

Lemma upper_of_lower (c : ascii) : upper_ascii (lower_ascii c) = upper_ascii c.
Proof. destruct c as [[] [] [] [] [] [] [] []]; reflexivity. Qed.

Lemma upper_ascii_idempotent (c : ascii) : upper_ascii (upper_ascii c) = upper_ascii c.
Proof. destruct c as [[] [] [] [] [] [] [] []]; reflexivity. Qed.

Lemma toUpperCase_of_lower (s : string) : toUpperCase (toLowerCase s) = toUpperCase s.
Proof.
  induction s as [|c rest IH]; [reflexivity|].
  simpl. rewrite upper_of_lower, IH. reflexivity.
Qed.

Lemma toUpperCase_idempotent (s : string) : toUpperCase (toUpperCase s) = toUpperCase s.
Proof.
  induction s as [|c rest IH]; [reflexivity|].
  simpl. rewrite upper_ascii_idempotent, IH. reflexivity.
Qed.

(** X18. The symbol table is consulted without regard to letter case: a
    symbol one of whose spellings is in the table resolves, in any case, to
    the same address, which has the '0x' prefix and 42 characters; a symbol
    that is not in the table is returned unchanged. *)
Theorem X18_symbol_resolution_ignores_case :
  forall symbol,
    match lookup (toUpperCase symbol) TOKEN_ADDRESSES with
    | Some address =>
        getTokenAddress symbol = address
        /\ getTokenAddress (toLowerCase symbol) = address
        /\ getTokenAddress (toUpperCase symbol) = address
        /\ startsWith address "0x" = true
        /\ String.length address = 42%nat
    | None => getTokenAddress symbol = symbol
    end.
Proof.
  intros symbol. unfold getTokenAddress.
  rewrite toUpperCase_of_lower, toUpperCase_idempotent.
  destruct (lookup (toUpperCase symbol) TOKEN_ADDRESSES) as [address|] eqn:L;
    [|reflexivity].
  repeat (split; [reflexivity|]).
  unfold TOKEN_ADDRESSES in L. cbn [lookup] in L.
  repeat match type of L with
         | (if ?c then _ else _) = _ => destruct c
         end; inversion L; split; reflexivity.
Qed.

(* ===================================================================== *)
(** ** Further properties: recommendations and the efficiency score *)
(* ===================================================================== *)

Lemma length_if_singleton {A} (c : bool) (x : A) :
  (List.length (if c then [x] else []) <= 1)%nat.
Proof. destruct c; simpl; lia. Qed.

Lemma generateRecommendations_length transactions gasSavingsPotential
    totalActualGas averageSlippage comparisons :
  (1 <= List.length (generateRecommendations transactions gasSavingsPotential
                       totalActualGas averageSlippage comparisons) <= 6)%nat.
Proof.
  unfold generateRecommendations. rewrite !length_app.
  match goal with
  | |- context [List.length (if Qltb 0 gasSavingsPotential then ?a else ?b)] =>
      assert (G : (1 <= List.length (if Qltb 0 gasSavingsPotential then a else b) <= 2)%nat)
        by (destruct (Qltb 0 gasSavingsPotential); simpl; lia)
  end.
  match goal with
  | |- context [List.length (match mostUsedDex transactions with
                             | Some _ => _ | None => _ end)] =>
      assert (V : (List.length (match mostUsedDex transactions with
                                | Some (name, _) =>
                                    if String.eqb name "Uniswap V2"
                                    then [ upgrade_advice ] else []
                                | None => []
                                end) <= 1)%nat)
        by (destruct (mostUsedDex transactions) as [[name n]|];
            [apply length_if_singleton|simpl; lia])
  end.
  unfold upgrade_advice in V.
  match goal with
  | |- context [List.length (if ngt averageSlippage (Fin 1) then ?a
                             else if ?c then ?b else [])] =>
      assert (S : (List.length (if ngt averageSlippage (Fin 1) then a
                                else if c then b else []) <= 1)%nat)
        by (destruct (ngt averageSlippage (Fin 1)); [simpl; lia|];
            destruct c; simpl; lia)
  end.
  repeat match goal with
         | |- context [List.length (if ?c then [?x] else [])] =>
             let H := fresh "L" in
             pose proof (length_if_singleton c x) as H;
             generalize dependent (List.length (if c then [x] else []));
             intros
         end.
  lia.
Qed.

(** X19. The recommendations of a report of at least one transaction begin
    with the recommendations of the comparison engine, in the same order, and
    add at most five lines of the report's own; the engine gives between one
    and six. *)
Theorem X19_report_extends_the_engine_recommendations :
  forall w walletAddress s r s' transactions s1,
    generateSwapReport w walletAddress s = (Ok r, s') ->
    getUserTransactions w walletAddress 50 s = (Ok transactions, s1) ->
    transactions <> [] ->
    exists comparison s2 extra,
      compareWithOneInch w walletAddress s1 = (Ok comparison, s2)
      /\ report_recommendations r = recommendations comparison ++ extra
      /\ (List.length extra <= 5)%nat
      /\ (1 <= List.length (recommendations comparison) <= 6)%nat.
Proof.
  intros w walletAddress s r s' transactions s1 H E Hne.
  apply generateSwapReport_Ok in H.
  destruct H as [l [s2 [c [s3 [E' [C R]]]]]].
  rewrite E in E'. inversion E'; subst l s2.
  destruct R as [[Hnil _]|[_ [v [s4 [g [_ ->]]]]]]; [contradiction|].
  exists c, s3. unfold report_of. cbn [report_recommendations].
  unfold generateComprehensiveRecommendations.
  eexists. split; [exact C|]. split; [reflexivity|]. split.
  - rewrite !length_app.
    repeat match goal with
           | |- context [List.length (if ?a then [?x] else if ?b then [?y] else if ?c then [?z] else [])] =>
               assert (List.length (if a then [x] else if b then [y] else if c then [z] else []) <= 1)%nat
                 by (destruct a; [simpl; lia|]; destruct b; [simpl; lia|];
                     destruct c; simpl; lia);
               generalize dependent (List.length (if a then [x] else if b then [y] else if c then [z] else []));
               intros
           | |- context [List.length (if ?a then [?x] else if ?b then [?y] else [])] =>
               assert (List.length (if a then [x] else if b then [y] else []) <= 1)%nat
                 by (destruct a; [simpl; lia|]; destruct b; simpl; lia);
               generalize dependent (List.length (if a then [x] else if b then [y] else []));
               intros
           | |- context [List.length (if ?a then [?x] else [])] =>
               pose proof (length_if_singleton a x);
               generalize dependent (List.length (if a then [x] else []));
               intros
           end.
    lia.
  - apply compareWithOneInch_Ok in C.
    destruct C as [_ [txs [s5 [_ [_ [_ ->]]]]]].
    destruct txs as [|tx rest]; [simpl; lia|].
    unfold comparison_result. cbn [recommendations].
    apply generateRecommendations_length.
Qed.

(** X19 at the example of the specification: five lines of the engine, three
    more of the report. *)
Lemma X19_witness :
  exists r s' comparison s2 extra,
    generateSwapReport example_world well_formed_wallet St0 = (Ok r, s')
    /\ compareWithOneInch example_world well_formed_wallet
         (snd (getUserTransactions example_world well_formed_wallet 50 St0))
       = (Ok comparison, s2)
    /\ report_recommendations r = recommendations comparison ++ extra
    /\ List.length (report_recommendations r) = 8%nat.
Proof.
  destruct (generateSwapReport example_world well_formed_wallet St0)
    as [[r|e] s'] eqn:E; [|vm_compute in E; discriminate].
  destruct (getUserTransactions example_world well_formed_wallet 50 St0)
    as [[transactions|e] s1] eqn:E1; [|vm_compute in E1; discriminate].
  destruct (X19_report_extends_the_engine_recommendations example_world
              well_formed_wallet St0 r s' transactions s1 E E1)
    as [comparison [s2 [extra [C [R _]]]]].
  - vm_compute in E1. inversion E1. discriminate.
  - exists r, s', comparison, s2, extra. split; [reflexivity|].
    split; [exact C|]. split; [exact R|].
    vm_compute in E. inversion E. reflexivity.
Defined.








(* ===================================================================== *)
(** ** Facts on binary64 rounding *)
(* ===================================================================== *)


Lemma pow2_plus (a b : Z) : pow2 (a + b) == pow2 a * pow2 b.
Proof. apply Qpower_plus. discriminate. Qed.



Lemma pow2_succ (k : Z) : pow2 (k + 1) == 2 * pow2 k.
Proof. rewrite pow2_plus. change (pow2 1) with 2. ring. Qed.




Lemma binary64_not_NaN (q : Q) : binary64 q <> NaN.
Proof.
  unfold binary64. destruct (Qzero q); [discriminate|]. cbv zeta.
  destruct (Qle_bool _ max_double); [discriminate|].
  destruct (Qltb 0 q); discriminate.
Qed.









(** Values of the rounding: a decimal fraction, the ties at 2^53, the largest
    number and the overflow threshold half-way to 2^1024, and the ties at the
    smallest subnormal. *)
Example binary64_values :
  binary64 (1 # 10) = Fin (3602879701896397 # 36028797018963968)
  /\ binary64 (inject_Z (2 ^ 53 + 1)) = Fin (inject_Z (2 ^ 53))
  /\ binary64 (inject_Z (2 ^ 53 + 3)) = Fin (inject_Z (2 ^ 53 + 4))
  /\ binary64 max_double = Fin max_double
  /\ binary64 (inject_Z (2 ^ 1024 - 2 ^ 970 - 1)) = Fin max_double
  /\ binary64 (inject_Z (2 ^ 1024 - 2 ^ 970)) = PInf
  /\ binary64 (- inject_Z (2 ^ 1024)) = NInf
  /\ binary64 (1 # 2 ^ 1074) = Fin (1 # 2 ^ 1074)
  /\ binary64 (1 # 2 ^ 1075) = Fin 0
  /\ binary64 (3 # 2 ^ 1075) = Fin (1 # 2 ^ 1073).
Proof. repeat split; vm_compute; reflexivity. Qed.

(** Sums are rounded at every step: 0.1 + 0.2 is not 0.3, and the order of
    three addends matters. *)
Example binary64_sums :
  fadd (binary64 (1 # 10)) (binary64 (2 # 10))
  = Fin (1351079888211149 # 4503599627370496)
  /\ binary64 (3 # 10) = Fin (5404319552844595 # 18014398509481984)
  /\ fadd (fadd (binary64 (12 # 100)) (binary64 (137 # 100))) (binary64 (1 # 100))
     = Fin (6755399441055745 # 4503599627370496)
  /\ fadd (fadd (binary64 (1 # 100)) (binary64 (12 # 100))) (binary64 (137 # 100))
     = Fin (3 # 2).
Proof. repeat split; vm_compute; reflexivity. Qed.

(** On gas figures in wei the totals of the loop are rounded sums: the total
    paid is 79668396451977328 where the exact sum is 79668396451977324, and
    the line items add up to 26136763651084884 where the difference of the
    totals is 26136763651084888. *)
Example totals_are_rounded_sums :
  sum_Q actualGas wei_pairs == 79668396451977324
  /\ accumulate cost_paid wei_pairs = Fin 79668396451977328
  /\ accumulate cost_quoted wei_pairs = Fin 53531632800892440
  /\ fsub (accumulate cost_paid wei_pairs) (accumulate cost_quoted wei_pairs)
     = Fin 26136763651084888
  /\ accumulate (fun p => fsub (cost_paid p) (cost_quoted p)) wei_pairs
     = Fin 26136763651084884.
Proof. repeat split; vm_compute; reflexivity. Qed.

(* ===================================================================== *)
(** ** Numbers that are not below zero *)
(* ===================================================================== *)







Lemma not_below_zero_number (a : num) : not_below_zero a -> is_number a.
Proof.
  intros H E. rewrite E in H. discriminate.
Qed.




(* ===================================================================== *)
(** ** Rounding is monotone *)
(* ===================================================================== *)










(* ===================================================================== *)
(** ** The comparison in binary64 *)
(* ===================================================================== *)

Lemma binary64_compare_one_spec w position tx acc s :
  exists s',
    Binary64.compare_one w position tx acc s
    = (Ok (totals_after (compared_here w position tx) acc), s').
Proof.
  unfold Binary64.compare_one, compared_here, quote_of, try_catch, bind.
  destruct (has_addresses tx); simpl.
  - rewrite getOneInchQuote_state.
    destruct (fst (getOneInchQuote w position _ _ _ _ _ St0)) as [quote|e]; simpl;
      eexists; reflexivity.
  - exists s. reflexivity.
Qed.

Lemma totals_after_app pairs1 pairs2 acc :
  totals_after (pairs1 ++ pairs2) acc = totals_after pairs2 (totals_after pairs1 acc).
Proof. unfold totals_after. apply fold_left_app. Qed.

Lemma binary64_compare_loop_spec w transactions :
  forall position acc s,
  exists s',
    Binary64.compare_loop w position transactions acc s
    = (Ok (totals_after (compared w position transactions) acc), s').
Proof.
  induction transactions as [|tx rest IH]; intros position acc s.
  - exists s. reflexivity.
  - simpl. unfold bind.
    destruct (binary64_compare_one_spec w position tx acc s) as [s1 E1].
    rewrite E1.
    destruct (IH (S position) (totals_after (compared_here w position tx) acc) s1)
      as [s2 E2].
    exists s2. rewrite E2, totals_after_app. reflexivity.
Qed.

Lemma totals_after_actual pairs :
  forall acc,
    Binary64.l_totalActualGas (totals_after pairs acc)
    = fold_left (fun sum p => fadd sum (cost_paid p)) pairs
                (Binary64.l_totalActualGas acc).
Proof.
  induction pairs as [|p rest IH]; intros acc; [reflexivity|].
  simpl. rewrite IH. reflexivity.
Qed.

Lemma totals_after_optimal pairs :
  forall acc,
    Binary64.l_totalOptimalGas (totals_after pairs acc)
    = fold_left (fun sum p => fadd sum (cost_quoted p)) pairs
                (Binary64.l_totalOptimalGas acc).
Proof.
  induction pairs as [|p rest IH]; intros acc; [reflexivity|].
  simpl. rewrite IH. reflexivity.
Qed.


Lemma totals_after_valid pairs :
  forall acc,
    Binary64.l_validComparisons (totals_after pairs acc)
    = (Binary64.l_validComparisons acc + List.length pairs)%nat.
Proof.
  induction pairs as [|p rest IH]; intros acc; simpl.
  - lia.
  - rewrite IH. simpl. lia.
Qed.

Lemma totals_after_records pairs :
  forall acc,
    Binary64.l_detailedComparisons (totals_after pairs acc)
    = Binary64.l_detailedComparisons acc ++ map line_item pairs.
Proof.
  induction pairs as [|p rest IH]; intros acc; simpl.
  - symmetry. apply app_nil_r.
  - rewrite IH. simpl. rewrite <- app_assoc. reflexivity.
Qed.

(** What a successful comparison returns. *)
Lemma binary64_compareWithOneInch_Ok w walletAddress s r s' :
  Binary64.compareWithOneInch w walletAddress s = (Ok r, s') ->
  exists transactions s1,
    getDuneData w walletAddress 10 s = (Ok transactions, s1)
    /\ r = match transactions with
           | [] => Binary64.empty_comparison walletAddress
           | _ :: _ =>
               Binary64.comparison_result walletAddress transactions
                 (totals_after (compared w 0 transactions) Binary64.Totals0)
           end.
Proof.
  unfold Binary64.compareWithOneInch. intros H.
  destruct (invalid_format walletAddress); [discriminate|].
  apply try_catch_rethrow_Ok in H.
  apply bind_Ok in H. destruct H as [transactions [s1 [E H]]].
  exists transactions, s1. split; [exact E|].
  destruct transactions as [|tx rest].
  - inversion H; subst. reflexivity.
  - apply bind_Ok in H. destruct H as [acc [s2 [L H]]].
    destruct (binary64_compare_loop_spec w (tx :: rest) 0 Binary64.Totals0 s1)
      as [s3 L'].
    rewrite L' in L. inversion L; subst. inversion H; subst. reflexivity.
Qed.



(** The two embeddings of the comparison differ in arithmetic only: they make
    the same requests and pauses, fail together with the same message, and
    return the same number of transactions and records with the same hashes,
    venues and quoted routes. *)
Lemma binary64_compare_one_state w position tx acc64 acc s :
  snd (Binary64.compare_one w position tx acc64 s) = snd (compare_one w position tx acc s).
Proof.
  unfold Binary64.compare_one, compare_one, try_catch, bind.
  destruct (has_addresses tx); simpl; [|reflexivity].
  rewrite getOneInchQuote_state.
  destruct (fst (getOneInchQuote w position _ _ _ _ _ St0)); reflexivity.
Qed.

Lemma binary64_compare_loop_state w transactions :
  forall position acc64 acc s,
    snd (Binary64.compare_loop w position transactions acc64 s)
    = snd (compare_loop w position transactions acc s).
Proof.
  induction transactions as [|tx rest IH]; intros position acc64 acc s; [reflexivity|].
  simpl. unfold bind.
  pose proof (binary64_compare_one_state w position tx acc64 acc s) as S.
  destruct (binary64_compare_one_spec w position tx acc64 s) as [s1 E1].
  destruct (compare_one_spec w position tx acc s) as [s2 [E2 _]].
  rewrite E1, E2 in S |- *. cbn [snd] in S. subst s2. apply IH.
Qed.

Lemma binary64_compareWithOneInch_same_effects w walletAddress s :
  snd (Binary64.compareWithOneInch w walletAddress s)
  = snd (compareWithOneInch w walletAddress s)
  /\ match fst (Binary64.compareWithOneInch w walletAddress s),
           fst (compareWithOneInch w walletAddress s) with
     | Ok r64, Ok r =>
         Binary64.totalTransactions r64 = totalTransactions r
         /\ map (fun c => (Binary64.txHash c, Binary64.actualRoute c,
                           Binary64.optimalRoute c))
                (Binary64.detailedComparisons r64)
            = map (fun c => (txHash c, actualRoute c, optimalRoute c))
                  (detailedComparisons r)
     | Throw e64, Throw e => e64 = e
     | _, _ => False
     end.
Proof.
  unfold Binary64.compareWithOneInch, compareWithOneInch.
  destruct (invalid_format walletAddress); [split; reflexivity|].
  unfold try_catch, bind.
  destruct (getDuneData w walletAddress 10 s) as [[[|tx rest]|e] s1];
    [split; [reflexivity|split; reflexivity]| |split; reflexivity].
  pose proof (binary64_compare_loop_state w (tx :: rest) 0 Binary64.Totals0 Totals0 s1)
    as S.
  destruct (binary64_compare_loop_spec w (tx :: rest) 0 Binary64.Totals0 s1)
    as [s2 E64].
  destruct (compare_loop_spec w (tx :: rest) 0 Totals0 s1) as [s3 [E _]].
  rewrite E64, E in S |- *. cbn [snd] in S. subst s3.
  split; [reflexivity|]. cbn [fst ret].
  split; [reflexivity|].
  cbn [Binary64.detailedComparisons Binary64.comparison_result
       detailedComparisons comparison_result].
  rewrite totals_after_records, record_all_records.
  cbn [Binary64.l_detailedComparisons Binary64.Totals0 l_detailedComparisons Totals0 app].
  rewrite !map_map. reflexivity.
Qed.

(* ===================================================================== *)
(** ** The gas totals and the savings potential *)
(* ===================================================================== *)

(** [Math.max(0, x)] is [NaN] for [NaN] and otherwise not below zero. *)
Lemma Math_max_0_cases (x : num) :
  (x = NaN /\ nMath_max (Fin 0) x = NaN)
  \/ (x <> NaN /\ not_below_zero (nMath_max (Fin 0) x)).
Proof.
  destruct x as [q| | |].
  - right. split; [discriminate|]. unfold not_below_zero. cbn [nMath_max nlt].
    destruct (Qltb 0 q) eqn:E; cbn [nle]; apply Qle_bool_iff.
    + apply Qltb_lt in E. lra.
    + lra.
  - right. split; [discriminate|reflexivity].
  - right. split; [discriminate|reflexivity].
  - left. split; reflexivity.
Qed.

Lemma Math_max_0_not_negative (x : num) : nlt (nMath_max (Fin 0) x) (Fin 0) = false.
Proof.
  destruct x as [q| | |]; cbn [nMath_max nlt]; try reflexivity.
  destruct (Qltb 0 q) eqn:E; cbn [nlt]; apply Qltb_ge.
  - apply Qltb_lt in E. lra.
  - lra.
Qed.

Lemma Math_max_0_NaN (x : num) : nMath_max (Fin 0) x = NaN <-> x = NaN.
Proof.
  destruct x as [q| | |]; cbn [nMath_max nlt]; split; try discriminate;
    try reflexivity.
  destruct (Qltb 0 q); discriminate.
Qed.

Lemma fsub_finite_is_number (a b : num) : finite a -> finite b -> is_number (fsub a b).
Proof.
  intros [x ->] [y ->]. unfold fsub. cbn [nneg fadd]. apply binary64_not_NaN.
Qed.

(** C3, amended. Whenever the comparison engine returns, its two gas totals
    are accumulated in transaction order, in binary64 arithmetic, from the
    costs [gas_used * gas_price] and [estimatedGas * gas_price] of the
    compared transactions; every record carries the difference of the two
    costs of its own transaction; and the savings potential is
    [Math.max(0, totalActualGas - totalOptimalGas)].  It is never less than
    zero, and it is a number not below zero whenever both totals are finite
    (it is [NaN] when the difference of the totals is).  For the single
    transaction with gas used 100000, gas price 50 and a quote of 80000 gas
    the engine returns the totals 5000000 and 4000000 and the savings
    potential 1000000. *)
Theorem C3_gas_totals_and_savings_potential :
  (forall w walletAddress s r s',
     Binary64.compareWithOneInch w walletAddress s = (Ok r, s') ->
     exists transactions s1,
       getDuneData w walletAddress 10 s = (Ok transactions, s1)
       /\ Binary64.totalActualGas r
          = accumulate cost_paid (compared w 0 transactions)
       /\ Binary64.totalOptimalGas r
          = accumulate cost_quoted (compared w 0 transactions)
       /\ map Binary64.gasDifference (Binary64.detailedComparisons r)
          = map (fun p => fsub (cost_paid p) (cost_quoted p))
                (compared w 0 transactions)
       /\ Binary64.gasSavingsPotential r
          = nMath_max (Fin 0)
              (fsub (Binary64.totalActualGas r) (Binary64.totalOptimalGas r))
       /\ nlt (Binary64.gasSavingsPotential r) (Fin 0) = false
       /\ (Binary64.gasSavingsPotential r = NaN
           <-> fsub (Binary64.totalActualGas r) (Binary64.totalOptimalGas r) = NaN)
       /\ (finite (Binary64.totalActualGas r) ->
           finite (Binary64.totalOptimalGas r) ->
           not_below_zero (Binary64.gasSavingsPotential r)))
  /\ (exists r s,
        Binary64.compareWithOneInch example_world well_formed_wallet St0 = (Ok r, s)
        /\ map (fun p => (gas_used (fst p), gas_price (fst p), estimatedGas (snd p)))
               (compared example_world 0
                  match fst (getDuneData example_world well_formed_wallet 10 St0) with
                  | Ok transactions => transactions
                  | Throw _ => []
                  end)
           = [(100000%Z, 50, 80000%Z)]
        /\ Binary64.totalActualGas r = Fin 5000000
        /\ Binary64.totalOptimalGas r = Fin 4000000
        /\ Binary64.gasSavingsPotential r = Fin 1000000).
Proof.
  split.
  - intros w walletAddress s r s' H.
    apply binary64_compareWithOneInch_Ok in H.
    destruct H as [transactions [s1 [E R]]].
    exists transactions, s1. split; [exact E|].
    destruct transactions as [|tx rest].
    + subst r. simpl. repeat split; try reflexivity; discriminate.
    + subst r. unfold Binary64.comparison_result.
      cbn [Binary64.totalActualGas Binary64.totalOptimalGas
           Binary64.gasSavingsPotential Binary64.detailedComparisons].
      rewrite totals_after_actual, totals_after_optimal, totals_after_records.
      split; [reflexivity|]. split; [reflexivity|].
      split; [simpl; rewrite map_map; reflexivity|].
      split; [reflexivity|].
      split; [apply Math_max_0_not_negative|].
      split; [apply Math_max_0_NaN|].
      intros Fa Fo.
      destruct (Math_max_0_cases
                  (fsub (fold_left (fun sum p => fadd sum (cost_paid p))
                           (compared w 0 (tx :: rest))
                           (Binary64.l_totalActualGas Binary64.Totals0))
                        (fold_left (fun sum p => fadd sum (cost_quoted p))
                           (compared w 0 (tx :: rest))
                           (Binary64.l_totalOptimalGas Binary64.Totals0))))
        as [[N _]|[_ P]]; [|exact P].
      exfalso. apply (fsub_finite_is_number _ _ Fa Fo). exact N.
  - eexists. eexists. split; [vm_compute; reflexivity|].
    repeat split; reflexivity.
Qed.

(** The general part of C3 at the example of the specification. *)
Lemma C3_witness :
  exists r s,
    Binary64.compareWithOneInch example_world well_formed_wallet St0 = (Ok r, s)
    /\ Binary64.gasSavingsPotential r
       = nMath_max (Fin 0)
           (fsub (Binary64.totalActualGas r) (Binary64.totalOptimalGas r))
    /\ not_below_zero (Binary64.gasSavingsPotential r).
Proof.
  destruct (Binary64.compareWithOneInch example_world well_formed_wallet St0)
    as [[r|e] s] eqn:E; [|vm_compute in E; discriminate].
  exists r, s. split; [reflexivity|].
  destruct (proj1 C3_gas_totals_and_savings_potential example_world
              well_formed_wallet St0 r s E)
    as [transactions [s1 [_ [_ [_ [_ [G [_ [_ P]]]]]]]]].
  split; [exact G|].
  vm_compute in E. inversion E; subst r.
  apply P; eexists; reflexivity.
Defined.

(** C3 as stated fails: for one transaction of 100000 gas at the gas price
    2^1023 and a quote of 80000 gas, the sums of the two costs differ by
    20000 * 2^1023, a positive number, but both totals of the engine are
    [Infinity] and its savings potential is [NaN], which is not a number at
    or above zero. *)
Lemma C3_counterexample :
  exists r s' transactions s1,
    Binary64.compareWithOneInch steep_world well_formed_wallet St0 = (Ok r, s')
    /\ getDuneData steep_world well_formed_wallet 10 St0 = (Ok transactions, s1)
    /\ map (fun p => (gas_used (fst p), gas_price (fst p), estimatedGas (snd p)))
           (compared steep_world 0 transactions)
       = [(100000%Z, inject_Z (2 ^ 1023), 80000%Z)]
    /\ Qmax 0 (sum_Q actualGas (compared steep_world 0 transactions)
               - sum_Q optimalGas (compared steep_world 0 transactions))
       == inject_Z (20000 * 2 ^ 1023)
    /\ Binary64.totalActualGas r = PInf
    /\ Binary64.totalOptimalGas r = PInf
    /\ Binary64.gasSavingsPotential r = NaN
    /\ nle (Fin 0) (Binary64.gasSavingsPotential r) = false.
Proof.
  eexists. eexists. eexists. eexists.
  split; [vm_compute; reflexivity|].
  split; [vm_compute; reflexivity|].
  split; [vm_compute; reflexivity|].
  split; [vm_compute; reflexivity|].
  repeat split; reflexivity.
Qed.


(* ===================================================================== *)
(** ** The gas statistics of the report *)
(* ===================================================================== *)













(* ===================================================================== *)
(** ** The efficiency score *)
(* ===================================================================== *)
















(* ===================================================================== *)
(** ** The recommendation list in binary64 *)
(* ===================================================================== *)






(* ===================================================================== *)
(** ** The routing analysis and the figures of the report in binary64 *)
(* ===================================================================== *)

Lemma filter_partition_length {A} (f : A -> bool) (l : list A) :
  (List.length (filter f l) + List.length (filter (fun x => negb (f x)) l))%nat
  = List.length l.
Proof.
  induction l as [|x rest IH]; [reflexivity|].
  simpl. destruct (f x); simpl; lia.
Qed.

Lemma not_optimal_cases (c : Binary64.ComparisonRecord) :
  not_optimal c = true
  <-> Binary64.gasDifference c = NaN \/ ngt (Binary64.gasDifference c) (Fin 0) = true.
Proof.
  unfold not_optimal, ngt.
  destruct (Binary64.gasDifference c) as [x| | |]; cbn [nle nlt negb].
  - rewrite negb_true_iff. split.
    + intros H. right. apply Qltb_lt. apply Qnot_le_lt. intros C.
      apply Qle_bool_iff in C. congruence.
    + intros [H|H]; [discriminate|]. apply Qltb_lt in H.
      destruct (Qle_bool x 0) eqn:E; [|reflexivity].
      apply Qle_bool_iff in E. lra.
  - split; [intros _; right; reflexivity|reflexivity].
  - split; [discriminate|]. intros [H|H]; discriminate.
  - split; [intros _; left; reflexivity|reflexivity].
Qed.

(** X10. The routing analysis splits the detailed comparisons in two: the
    optimal and the suboptimal routes add up to their number, the suboptimal
    ones being exactly those that fail the test [gasDifference <= 0], that
    is, whose gas difference is positive or [NaN]; and it always gives one or
    two notes. *)
Theorem X10_routing_analysis_partitions_the_comparisons :
  forall detailedComparisons,
    (optimalRoutes (Binary64.calculateRoutingAnalysis detailedComparisons)
     + suboptimalRoutes (Binary64.calculateRoutingAnalysis detailedComparisons))%nat
    = List.length detailedComparisons
    /\ suboptimalRoutes (Binary64.calculateRoutingAnalysis detailedComparisons)
       = List.length (filter not_optimal detailedComparisons)
    /\ (forall c,
          not_optimal c = true
          <-> Binary64.gasDifference c = NaN
              \/ ngt (Binary64.gasDifference c) (Fin 0) = true)
    /\ (1 <= List.length (missedOpportunities
                            (Binary64.calculateRoutingAnalysis detailedComparisons))
        <= 2)%nat.
Proof.
  intros l. destruct l as [|c rest].
  - split; [reflexivity|]. split; [reflexivity|].
    split; [apply not_optimal_cases|]. simpl. lia.
  - unfold Binary64.calculateRoutingAnalysis.
    cbn [optimalRoutes suboptimalRoutes missedOpportunities].
    pose proof (filter_partition_length
                  (fun c => nle (Binary64.gasDifference c) (Fin 0)) (c :: rest)) as P.
    cbv beta in P.
    change (fun x => negb (nle (Binary64.gasDifference x) (Fin 0)))
      with not_optimal in P.
    split; [lia|]. split; [lia|]. split; [apply not_optimal_cases|].
    destruct (0 <? List.length (filter _ (c :: rest)))%nat;
      destruct (0 <? List.length (filter _ (c :: rest)))%nat; simpl; lia.
Qed.



